(** * Encrypted-secret storage service: [core/encryption.py]

    A shallow embedding of the module [core/encryption.py] and of the
    library code it runs ([str.encode], [bytes.decode], [base64],
    [cryptography.fernet.Fernet] with AES-128-CBC, PKCS7 and HMAC-SHA256),
    of the test case of [core/tests.py] and of the credential mask of
    [core/models.py], followed by the properties of [encrypt] and
    [decrypt], of the tests and of the mask. *)

From Stdlib Require Import List NArith ZArith Lia Bool String Ascii.
From Stdlib Require Strings.Byte.
From Stdlib Require DecimalString.
From stdpp Require Import gmap strings.
Import ListNotations.
Import Stdlib.Init.Byte.

Local Open Scope N_scope.

(** ** Bytes *)

Abbreviation bytes := (list byte).

(** A byte from a number, reduced modulo 256 (a store into [unsigned char]). *)
Definition byte_of_N (n : N) : byte :=
  match Byte.of_N (n mod 256) with
  | Some b => b
  | None => x00
  end.

Definition byte_eqb (a b : byte) : bool := Byte.to_N a =? Byte.to_N b.

Definition bxor (a b : byte) : byte := byte_of_N (N.lxor (Byte.to_N a) (Byte.to_N b)).

(** The 256 bytes, for properties checked on each of them. *)
Definition all_bytes : bytes :=
  Eval vm_compute in map (fun i => byte_of_N (N.of_nat i)) (seq 0 256).

Definition opt_N_eqb (o : option N) (v : N) : bool :=
  match o with
  | Some x => x =? v
  | None => false
  end.

(** The bytes of an ASCII literal. *)
Definition ascii_bytes (s : string) : bytes := list_byte_of_string s.

(** ** Python's [base64] / [binascii]

    The functions [Fernet] calls, [base64.urlsafe_b64encode] and
    [base64.urlsafe_b64decode], with the non-strict decoder of CPython's
    [binascii.a2b_base64]. *)

Module Base64.

Definition BASE64_PAD : byte := x3d.

Definition table_b2a_base64 : bytes :=
  ascii_bytes "ABCDEFGHIJKLMNOPQRSTUVWXYZabcdefghijklmnopqrstuvwxyz0123456789+/".

Definition b2a (n : N) : byte := nth (N.to_nat n) table_b2a_base64 BASE64_PAD.

(** [binascii.b2a_base64(bin, newline=False)] *)
Fixpoint b2a_base64 (bin : bytes) : bytes :=
  match bin with
  | [] => []
  | [a] =>
      let a := Byte.to_N a in
      [b2a (N.shiftr a 2); b2a (N.shiftl (N.land a 3) 4); BASE64_PAD; BASE64_PAD]
  | [a; b] =>
      let a := Byte.to_N a in
      let b := Byte.to_N b in
      [b2a (N.shiftr a 2);
       b2a (N.lor (N.shiftl (N.land a 3) 4) (N.shiftr b 4));
       b2a (N.shiftl (N.land b 15) 2);
       BASE64_PAD]
  | a :: b :: c :: rest =>
      let a := Byte.to_N a in
      let b := Byte.to_N b in
      let c := Byte.to_N c in
      b2a (N.shiftr a 2)
        :: b2a (N.lor (N.shiftl (N.land a 3) 4) (N.shiftr b 4))
        :: b2a (N.lor (N.shiftl (N.land b 15) 2) (N.shiftr c 6))
        :: b2a (N.land c 63)
        :: b2a_base64 rest
  end.

(** Index of a character in the standard alphabet ([table_a2b_base64];
    [None] is the table's "not a base64 character" entry). *)
Fixpoint index_of (c : byte) (tbl : bytes) (i : N) : option N :=
  match tbl with
  | [] => None
  | d :: tbl' => if byte_eqb c d then Some i else index_of c tbl' (N.succ i)
  end.

Definition a2b (c : byte) : option N := index_of c table_b2a_base64 0.

Inductive binascii_Error : Type :=
| Incorrect_padding
| Invalid_number_of_data_characters.

Inductive decoded : Type :=
| Decoded (bin : bytes)
| Error (e : binascii_Error).

Definition emit (b : byte) (r : decoded) : decoded :=
  match r with
  | Decoded bin => Decoded (b :: bin)
  | Error e => Error e
  end.

(** [binascii.a2b_base64(data, strict_mode=False)]: the loop over the
    input with its three registers [quad_pos], [leftchar] and [pads].
    Characters outside the alphabet are skipped, a complete pad sequence
    stops the parse, and an incomplete last quad is an error. *)
Fixpoint a2b_loop (ascii : bytes) (quad_pos : nat) (leftchar : N) (pads : nat)
  : decoded :=
  match ascii with
  | [] =>
      match quad_pos with
      | O => Decoded []
      | 1%nat => Error Invalid_number_of_data_characters
      | _ => Error Incorrect_padding
      end
  | this_ch :: rest =>
      if byte_eqb this_ch BASE64_PAD then
        if (2 <=? quad_pos)%nat then
          if (4 <=? quad_pos + S pads)%nat then Decoded []
          else a2b_loop rest quad_pos leftchar (S pads)
        else a2b_loop rest quad_pos leftchar pads
      else
        match a2b this_ch with
        | None => a2b_loop rest quad_pos leftchar pads
        | Some v =>
            match quad_pos with
            | O => a2b_loop rest 1 v 0
            | 1%nat =>
                emit (byte_of_N (N.lor (N.shiftl leftchar 2) (N.shiftr v 4)))
                     (a2b_loop rest 2 (N.land v 15) 0)
            | 2%nat =>
                emit (byte_of_N (N.lor (N.shiftl leftchar 4) (N.shiftr v 2)))
                     (a2b_loop rest 3 (N.land v 3) 0)
            | _ =>
                emit (byte_of_N (N.lor (N.shiftl leftchar 6) v))
                     (a2b_loop rest 0 0 0)
            end
        end
  end.

Definition a2b_base64 (ascii : bytes) : decoded := a2b_loop ascii 0 0 0.

(** [bytes.maketrans(b'+/', b'-_')] and [bytes.maketrans(b'-_', b'+/')] *)
Definition _urlsafe_encode_translation (c : byte) : byte :=
  if byte_eqb c x2b then x2d else if byte_eqb c x2f then x5f else c.

Definition _urlsafe_decode_translation (c : byte) : byte :=
  if byte_eqb c x2d then x2b else if byte_eqb c x5f then x2f else c.

Definition urlsafe_b64encode (s : bytes) : bytes :=
  map _urlsafe_encode_translation (b2a_base64 s).

Definition urlsafe_b64decode (s : bytes) : decoded :=
  a2b_base64 (map _urlsafe_decode_translation s).

End Base64.

(** ** Python's [str] and the UTF-8 codec *)

(** A Python [str] is a sequence of code points; lone surrogates
    (U+D800..U+DFFF) are legal elements of a [str].  Numbers above
    U+10FFFF are no code points and occur in no [str]; [Utf8.encodable]
    below leaves them out. *)
Abbreviation pystr := (list N).

(** The code points of an ASCII literal. *)
Definition pystr_of_string (s : string) : pystr := map Byte.to_N (ascii_bytes s).

Module Utf8.

Definition is_surrogate (ch : N) : bool := (0xD800 <=? ch) && (ch <=? 0xDFFF).

Definition cont (n : N) : byte := byte_of_N (N.lor 0x80 (N.land n 0x3f)).

(** The bytes the encoder writes for one code point that is not a
    surrogate. *)
Definition encode_char (ch : N) : bytes :=
  if ch <? 0x80 then [byte_of_N ch]
  else if ch <? 0x800 then
    [byte_of_N (N.lor 0xc0 (N.shiftr ch 6)); cont ch]
  else if ch <? 0x10000 then
    [byte_of_N (N.lor 0xe0 (N.shiftr ch 12)); cont (N.shiftr ch 6); cont ch]
  else
    [byte_of_N (N.lor 0xf0 (N.shiftr ch 18)); cont (N.shiftr ch 12);
     cont (N.shiftr ch 6); cont ch].

(** Length of the run of surrogates at the head of [s]: the encoder
    reports the whole run in its error. *)
Fixpoint surrogate_run (s : pystr) : nat :=
  match s with
  | ch :: s' => if is_surrogate ch then S (surrogate_run s') else O
  | [] => O
  end.

Inductive encoded : Type :=
| Encoded (b : bytes)
| SurrogatesNotAllowed (start stop : nat).

(** [s.encode()] with the default codec (UTF-8, errors='strict'),
    scanning from index [pos]. *)
Fixpoint encode_from (s : pystr) (pos : nat) : encoded :=
  match s with
  | [] => Encoded []
  | ch :: rest =>
      if is_surrogate ch then SurrogatesNotAllowed pos (pos + surrogate_run s)
      else
        match encode_from rest (S pos) with
        | Encoded out => Encoded (encode_char ch ++ out)
        | err => err
        end
  end.

Definition encode (s : pystr) : encoded := encode_from s 0.

Definition is_cont (n : N) : bool := (0x80 <=? n) && (n <=? 0xbf).

Definition decode2 (n0 n1 : N) : option N :=
  if is_cont n1
  then Some (N.lor (N.shiftl (N.land n0 0x1f) 6) (N.land n1 0x3f))
  else None.

(** Three-byte forms: E0 needs A0..BF next (no overlong form), ED needs
    80..9F next (no surrogate). *)
Definition decode3 (n0 n1 n2 : N) : option N :=
  if is_cont n1 && is_cont n2
     && negb ((n0 =? 0xe0) && (n1 <? 0xa0))
     && negb ((n0 =? 0xed) && (0x9f <? n1))
  then Some (N.lor (N.shiftl (N.land n0 0x0f) 12)
               (N.lor (N.shiftl (N.land n1 0x3f) 6) (N.land n2 0x3f)))
  else None.

(** Four-byte forms: F0 needs 90..BF next, F4 needs 80..8F next. *)
Definition decode4 (n0 n1 n2 n3 : N) : option N :=
  if is_cont n1 && is_cont n2 && is_cont n3
     && negb ((n0 =? 0xf0) && (n1 <? 0x90))
     && negb ((n0 =? 0xf4) && (0x8f <? n1))
  then Some (N.lor (N.shiftl (N.land n0 0x07) 18)
               (N.lor (N.shiftl (N.land n1 0x3f) 12)
                  (N.lor (N.shiftl (N.land n2 0x3f) 6) (N.land n3 0x3f))))
  else None.

(** [b.decode()] with the default codec (UTF-8, errors='strict');
    [None] is the codec's [UnicodeDecodeError]. *)
Fixpoint decode (s : bytes) : option pystr :=
  match s with
  | [] => Some []
  | b0 :: r0 =>
      let n0 := Byte.to_N b0 in
      if n0 <? 0x80 then option_map (cons n0) (decode r0)
      else if n0 <? 0xc2 then None
      else if n0 <? 0xe0 then
        match r0 with
        | b1 :: r1 =>
            match decode2 n0 (Byte.to_N b1) with
            | Some ch => option_map (cons ch) (decode r1)
            | None => None
            end
        | _ => None
        end
      else if n0 <? 0xf0 then
        match r0 with
        | b1 :: b2 :: r2 =>
            match decode3 n0 (Byte.to_N b1) (Byte.to_N b2) with
            | Some ch => option_map (cons ch) (decode r2)
            | None => None
            end
        | _ => None
        end
      else if n0 <? 0xf5 then
        match r0 with
        | b1 :: b2 :: b3 :: r3 =>
            match decode4 n0 (Byte.to_N b1) (Byte.to_N b2) (Byte.to_N b3) with
            | Some ch => option_map (cons ch) (decode r3)
            | None => None
            end
        | _ => None
        end
      else None
  end.

(** The code points the encoder accepts: Unicode scalar values. *)
Definition is_scalar (ch : N) : bool := (ch <=? 0x10FFFF) && negb (is_surrogate ch).

Definition encodable (s : pystr) : bool := forallb is_scalar s.

Definition is_ascii (b : byte) : bool := Byte.to_N b <? 0x80.

End Utf8.

(** ** SHA-256 (FIPS 180-4) and HMAC (RFC 2104) *)

Module Sha256.

Definition mask32 : N := 0xffffffff.
Definition add32 (a b : N) : N := N.land (a + b) mask32.
Definition rotr (n x : N) : N :=
  N.land (N.lor (N.shiftr x n) (N.shiftl x (32 - n))) mask32.
Definition not32 (x : N) : N := N.lxor x mask32.

Definition Ch (x y z : N) : N := N.lxor (N.land x y) (N.land (not32 x) z).
Definition Maj (x y z : N) : N :=
  N.lxor (N.lxor (N.land x y) (N.land x z)) (N.land y z).
Definition Sigma0 (x : N) : N := N.lxor (N.lxor (rotr 2 x) (rotr 13 x)) (rotr 22 x).
Definition Sigma1 (x : N) : N := N.lxor (N.lxor (rotr 6 x) (rotr 11 x)) (rotr 25 x).
Definition sigma0 (x : N) : N := N.lxor (N.lxor (rotr 7 x) (rotr 18 x)) (N.shiftr x 3).
Definition sigma1 (x : N) : N := N.lxor (N.lxor (rotr 17 x) (rotr 19 x)) (N.shiftr x 10).

(** The constants come from the primes: the first 32 bits of the
    fractional parts of the cube roots of the first 64 primes, and of the
    square roots of the first 8. *)
Definition is_prime (n : nat) : bool :=
  (2 <=? n)%nat && forallb (fun d => negb (n mod d =? 0)%nat) (seq 2 (n - 2)).

Definition primes : list N := map N.of_nat (filter is_prime (seq 2 310)).

(** The integer cube root, one bit at a time from bit [i] down. *)
Fixpoint cube_root_from (i : nat) (r n : N) : N :=
  let r' := N.setbit r (N.of_nat i) in
  let r := if r' * r' * r' <=? n then r' else r in
  match i with
  | O => r
  | S i' => cube_root_from i' r n
  end.

Definition frac_cube_root (p : N) : N :=
  N.land (cube_root_from 35 0 (N.shiftl p 96)) mask32.

Definition frac_square_root (p : N) : N :=
  N.land (N.sqrt (N.shiftl p 64)) mask32.

Definition K : list N := Eval vm_compute in map frac_cube_root primes.

Record state : Type :=
  State { sa : N; sb : N; sc : N; sd : N; se : N; sf : N; sg : N; sh : N }.

Definition H0 : state :=
  Eval vm_compute in
    match map frac_square_root primes with
    | a :: b :: c :: d :: e :: f :: g :: h :: _ => State a b c d e f g h
    | _ => State 0 0 0 0 0 0 0 0
    end.

Definition word_of_bytes (b0 b1 b2 b3 : byte) : N :=
  N.lor (N.shiftl (Byte.to_N b0) 24)
    (N.lor (N.shiftl (Byte.to_N b1) 16)
       (N.lor (N.shiftl (Byte.to_N b2) 8) (Byte.to_N b3))).

Definition bytes_of_word (w : N) : bytes :=
  [byte_of_N (N.shiftr w 24); byte_of_N (N.shiftr w 16);
   byte_of_N (N.shiftr w 8); byte_of_N w].

Fixpoint words (b : bytes) : list N :=
  match b with
  | b0 :: b1 :: b2 :: b3 :: r => word_of_bytes b0 b1 b2 b3 :: words r
  | _ => []
  end.

(** The message, a 1 bit, zero bits up to 56 mod 64 bytes, and the bit
    length as a 64-bit big-endian number. *)
Definition pad (msg : bytes) : bytes :=
  let len := N.of_nat (length msg) in
  let bits := 8 * len in
  msg ++ [x80]
      ++ repeat x00 (N.to_nat ((119 - len mod 64) mod 64))
      ++ bytes_of_word (N.shiftr bits 32) ++ bytes_of_word bits.

Definition step (st : state) (k w : N) : state :=
  let t1 := add32 (add32 (add32 (add32 (sh st) (Sigma1 (se st)))
                            (Ch (se st) (sf st) (sg st))) k) w in
  let t2 := add32 (Sigma0 (sa st)) (Maj (sa st) (sb st) (sc st)) in
  State (add32 t1 t2) (sa st) (sb st) (sc st)
        (add32 (sd st) t1) (se st) (sf st) (sg st).

(** The 64 rounds; [w] is the window W[t..t+15] of the message schedule. *)
Fixpoint rounds (ks : list N) (w : list N) (st : state) : state :=
  match ks with
  | [] => st
  | k :: ks' =>
      let wt := nth 0 w 0 in
      let new := add32 (add32 (add32 (sigma1 (nth 14 w 0)) (nth 9 w 0))
                          (sigma0 (nth 1 w 0))) wt in
      rounds ks' (tl w ++ [new]) (step st k wt)
  end.

Definition compress (st : state) (block : bytes) : state :=
  let r := rounds K (words block) st in
  State (add32 (sa st) (sa r)) (add32 (sb st) (sb r))
        (add32 (sc st) (sc r)) (add32 (sd st) (sd r))
        (add32 (se st) (se r)) (add32 (sf st) (sf r))
        (add32 (sg st) (sg r)) (add32 (sh st) (sh r)).

Fixpoint process (n : nat) (msg : bytes) (st : state) : state :=
  match n with
  | O => st
  | S n' => process n' (skipn 64 msg) (compress st (firstn 64 msg))
  end.

Definition digest (st : state) : bytes :=
  bytes_of_word (sa st) ++ bytes_of_word (sb st) ++ bytes_of_word (sc st)
    ++ bytes_of_word (sd st) ++ bytes_of_word (se st) ++ bytes_of_word (sf st)
    ++ bytes_of_word (sg st) ++ bytes_of_word (sh st).

Definition sha256 (msg : bytes) : bytes :=
  let p := pad msg in
  digest (process (Nat.div (length p) 64) p H0).

End Sha256.

(** [HMAC(key, hashes.SHA256())]: [update(msg)] then [finalize()]. *)
Definition hmac_sha256 (key msg : bytes) : bytes :=
  let key := if (64 <? length key)%nat then Sha256.sha256 key else key in
  let key := key ++ repeat x00 (64 - length key) in
  let ipad := map (bxor x36) key in
  let opad := map (bxor x5c) key in
  Sha256.sha256 (opad ++ Sha256.sha256 (ipad ++ msg)).

(** ** AES-128 (FIPS 197), CBC mode and PKCS7 padding *)

Module Aes.

(** The 4x4 state, column by column: [bN] is row [N mod 4] of column
    [N / 4]. *)
Inductive block : Type :=
| Block (b0 b1 b2 b3 b4 b5 b6 b7 b8 b9 b10 b11 b12 b13 b14 b15 : byte).

Definition bytes_of_block (s : block) : bytes :=
  let '(Block b0 b1 b2 b3 b4 b5 b6 b7 b8 b9 b10 b11 b12 b13 b14 b15) := s in
  [b0; b1; b2; b3; b4; b5; b6; b7; b8; b9; b10; b11; b12; b13; b14; b15].

Definition block_of_bytes (l : bytes) : option block :=
  match l with
  | [b0; b1; b2; b3; b4; b5; b6; b7; b8; b9; b10; b11; b12; b13; b14; b15] => Some (Block b0 b1 b2 b3 b4 b5 b6 b7 b8 b9 b10 b11 b12 b13 b14 b15)
  | _ => None
  end.

Fixpoint blocks_of_bytes (l : bytes) : option (list block) :=
  match l with
  | [] => Some []
  | b0 :: b1 :: b2 :: b3 :: b4 :: b5 :: b6 :: b7 :: b8 :: b9 :: b10 :: b11 :: b12 :: b13 :: b14 :: b15 :: rest =>
      option_map (cons (Block b0 b1 b2 b3 b4 b5 b6 b7 b8 b9 b10 b11 b12 b13 b14 b15)) (blocks_of_bytes rest)
  | _ => None
  end.

Definition bytes_of_blocks (l : list block) : bytes := flat_map bytes_of_block l.

Definition map_block (f : byte -> byte) (s : block) : block :=
  let '(Block b0 b1 b2 b3 b4 b5 b6 b7 b8 b9 b10 b11 b12 b13 b14 b15) := s in
  Block (f b0) (f b1) (f b2) (f b3) (f b4) (f b5) (f b6) (f b7) (f b8) (f b9) (f b10) (f b11) (f b12) (f b13) (f b14) (f b15).

Definition xor_block (s t : block) : block :=
  let '(Block b0 b1 b2 b3 b4 b5 b6 b7 b8 b9 b10 b11 b12 b13 b14 b15) := s in
  let '(Block c0 c1 c2 c3 c4 c5 c6 c7 c8 c9 c10 c11 c12 c13 c14 c15) := t in
  Block (bxor b0 c0) (bxor b1 c1) (bxor b2 c2) (bxor b3 c3) (bxor b4 c4) (bxor b5 c5) (bxor b6 c6) (bxor b7 c7) (bxor b8 c8) (bxor b9 c9) (bxor b10 c10) (bxor b11 c11) (bxor b12 c12) (bxor b13 c13) (bxor b14 c14) (bxor b15 c15).

Definition sbox : bytes :=
    [x63; x7c; x77; x7b; xf2; x6b; x6f; xc5; x30; x01; x67; x2b; xfe; xd7; xab; x76;
     xca; x82; xc9; x7d; xfa; x59; x47; xf0; xad; xd4; xa2; xaf; x9c; xa4; x72; xc0;
     xb7; xfd; x93; x26; x36; x3f; xf7; xcc; x34; xa5; xe5; xf1; x71; xd8; x31; x15;
     x04; xc7; x23; xc3; x18; x96; x05; x9a; x07; x12; x80; xe2; xeb; x27; xb2; x75;
     x09; x83; x2c; x1a; x1b; x6e; x5a; xa0; x52; x3b; xd6; xb3; x29; xe3; x2f; x84;
     x53; xd1; x00; xed; x20; xfc; xb1; x5b; x6a; xcb; xbe; x39; x4a; x4c; x58; xcf;
     xd0; xef; xaa; xfb; x43; x4d; x33; x85; x45; xf9; x02; x7f; x50; x3c; x9f; xa8;
     x51; xa3; x40; x8f; x92; x9d; x38; xf5; xbc; xb6; xda; x21; x10; xff; xf3; xd2;
     xcd; x0c; x13; xec; x5f; x97; x44; x17; xc4; xa7; x7e; x3d; x64; x5d; x19; x73;
     x60; x81; x4f; xdc; x22; x2a; x90; x88; x46; xee; xb8; x14; xde; x5e; x0b; xdb;
     xe0; x32; x3a; x0a; x49; x06; x24; x5c; xc2; xd3; xac; x62; x91; x95; xe4; x79;
     xe7; xc8; x37; x6d; x8d; xd5; x4e; xa9; x6c; x56; xf4; xea; x65; x7a; xae; x08;
     xba; x78; x25; x2e; x1c; xa6; xb4; xc6; xe8; xdd; x74; x1f; x4b; xbd; x8b; x8a;
     x70; x3e; xb5; x66; x48; x03; xf6; x0e; x61; x35; x57; xb9; x86; xc1; x1d; x9e;
     xe1; xf8; x98; x11; x69; xd9; x8e; x94; x9b; x1e; x87; xe9; xce; x55; x28; xdf;
     x8c; xa1; x89; x0d; xbf; xe6; x42; x68; x41; x99; x2d; x0f; xb0; x54; xbb; x16].

Definition inv_sbox : bytes :=
    [x52; x09; x6a; xd5; x30; x36; xa5; x38; xbf; x40; xa3; x9e; x81; xf3; xd7; xfb;
     x7c; xe3; x39; x82; x9b; x2f; xff; x87; x34; x8e; x43; x44; xc4; xde; xe9; xcb;
     x54; x7b; x94; x32; xa6; xc2; x23; x3d; xee; x4c; x95; x0b; x42; xfa; xc3; x4e;
     x08; x2e; xa1; x66; x28; xd9; x24; xb2; x76; x5b; xa2; x49; x6d; x8b; xd1; x25;
     x72; xf8; xf6; x64; x86; x68; x98; x16; xd4; xa4; x5c; xcc; x5d; x65; xb6; x92;
     x6c; x70; x48; x50; xfd; xed; xb9; xda; x5e; x15; x46; x57; xa7; x8d; x9d; x84;
     x90; xd8; xab; x00; x8c; xbc; xd3; x0a; xf7; xe4; x58; x05; xb8; xb3; x45; x06;
     xd0; x2c; x1e; x8f; xca; x3f; x0f; x02; xc1; xaf; xbd; x03; x01; x13; x8a; x6b;
     x3a; x91; x11; x41; x4f; x67; xdc; xea; x97; xf2; xcf; xce; xf0; xb4; xe6; x73;
     x96; xac; x74; x22; xe7; xad; x35; x85; xe2; xf9; x37; xe8; x1c; x75; xdf; x6e;
     x47; xf1; x1a; x71; x1d; x29; xc5; x89; x6f; xb7; x62; x0e; xaa; x18; xbe; x1b;
     xfc; x56; x3e; x4b; xc6; xd2; x79; x20; x9a; xdb; xc0; xfe; x78; xcd; x5a; xf4;
     x1f; xdd; xa8; x33; x88; x07; xc7; x31; xb1; x12; x10; x59; x27; x80; xec; x5f;
     x60; x51; x7f; xa9; x19; xb5; x4a; x0d; x2d; xe5; x7a; x9f; x93; xc9; x9c; xef;
     xa0; xe0; x3b; x4d; xae; x2a; xf5; xb0; xc8; xeb; xbb; x3c; x83; x53; x99; x61;
     x17; x2b; x04; x7e; xba; x77; xd6; x26; xe1; x69; x14; x63; x55; x21; x0c; x7d].

Definition sub_byte (b : byte) : byte := nth (N.to_nat (Byte.to_N b)) sbox x00.
Definition inv_sub_byte (b : byte) : byte := nth (N.to_nat (Byte.to_N b)) inv_sbox x00.

Definition sub_bytes : block -> block := map_block sub_byte.
Definition inv_sub_bytes : block -> block := map_block inv_sub_byte.

Definition shift_rows (s : block) : block :=
  let '(Block b0 b1 b2 b3 b4 b5 b6 b7 b8 b9 b10 b11 b12 b13 b14 b15) := s in
  Block b0 b5 b10 b15 b4 b9 b14 b3 b8 b13 b2 b7 b12 b1 b6 b11.

Definition inv_shift_rows (s : block) : block :=
  let '(Block b0 b1 b2 b3 b4 b5 b6 b7 b8 b9 b10 b11 b12 b13 b14 b15) := s in
  Block b0 b13 b10 b7 b4 b1 b14 b11 b8 b5 b2 b15 b12 b9 b6 b3.

(** Multiplication by x in GF(2^8) modulo x^8 + x^4 + x^3 + x + 1. *)
Definition xtime (b : byte) : byte :=
  let n := 2 * Byte.to_N b in
  byte_of_N (if 256 <=? n then N.lxor n 0x11b else n).

Definition mul2 (b : byte) : byte := xtime b.
Definition mul3 (b : byte) : byte := bxor (xtime b) b.
Definition mul4 (b : byte) : byte := xtime (xtime b).
Definition mul8 (b : byte) : byte := xtime (mul4 b).
Definition mul9 (b : byte) : byte := bxor (mul8 b) b.
Definition mul11 (b : byte) : byte := bxor (bxor (mul8 b) (mul2 b)) b.
Definition mul13 (b : byte) : byte := bxor (bxor (mul8 b) (mul4 b)) b.
Definition mul14 (b : byte) : byte := bxor (bxor (mul8 b) (mul4 b)) (mul2 b).

Definition xor4 (a b c d : byte) : byte := bxor (bxor (bxor a b) c) d.

(** One column of the state. *)
Abbreviation column := (byte * byte * byte * byte)%type.

(** The column times the fixed polynomial {03}x^3 + {01}x^2 + {01}x + {02}. *)
Definition mix_column (c : column) : column :=
  let '(a0, a1, a2, a3) := c in
  (xor4 (mul2 a0) (mul3 a1) a2 a3,
   xor4 a0 (mul2 a1) (mul3 a2) a3,
   xor4 a0 a1 (mul2 a2) (mul3 a3),
   xor4 (mul3 a0) a1 a2 (mul2 a3)).

(** The column times {0b}x^3 + {0d}x^2 + {09}x + {0e}. *)
Definition inv_mix_column (c : column) : column :=
  let '(a0, a1, a2, a3) := c in
  (xor4 (mul14 a0) (mul11 a1) (mul13 a2) (mul9 a3),
   xor4 (mul9 a0) (mul14 a1) (mul11 a2) (mul13 a3),
   xor4 (mul13 a0) (mul9 a1) (mul14 a2) (mul11 a3),
   xor4 (mul11 a0) (mul13 a1) (mul9 a2) (mul14 a3)).

Definition xor_column (x y : column) : column :=
  let '(x0, x1, x2, x3) := x in
  let '(y0, y1, y2, y3) := y in
  (bxor x0 y0, bxor x1 y1, bxor x2 y2, bxor x3 y3).

Definition column_eqb (x y : column) : bool :=
  let '(x0, x1, x2, x3) := x in
  let '(y0, y1, y2, y3) := y in
  byte_eqb x0 y0 && byte_eqb x1 y1 && byte_eqb x2 y2 && byte_eqb x3 y3.

Definition map_columns (f : column -> column) (s : block) : block :=
  let '(Block b0 b1 b2 b3 b4 b5 b6 b7 b8 b9 b10 b11 b12 b13 b14 b15) := s in
  let '(c0, c1, c2, c3) := f (b0, b1, b2, b3) in
  let '(c4, c5, c6, c7) := f (b4, b5, b6, b7) in
  let '(c8, c9, c10, c11) := f (b8, b9, b10, b11) in
  let '(c12, c13, c14, c15) := f (b12, b13, b14, b15) in
  Block c0 c1 c2 c3 c4 c5 c6 c7 c8 c9 c10 c11 c12 c13 c14 c15.

Definition mix_columns : block -> block := map_columns mix_column.

Definition inv_mix_columns : block -> block := map_columns inv_mix_column.

Definition add_round_key (s k : block) : block := xor_block s k.

(** One step of the key expansion: the next four words of the
    schedule from the previous four and the round constant. *)
Definition next_round_key (k : block) (rcon : byte) : block :=
  let '(Block b0 b1 b2 b3 b4 b5 b6 b7 b8 b9 b10 b11 b12 b13 b14 b15) := k in
  let c0 := bxor b0 (bxor (sub_byte b13) rcon) in
  let c1 := bxor b1 (sub_byte b14) in
  let c2 := bxor b2 (sub_byte b15) in
  let c3 := bxor b3 (sub_byte b12) in
  let c4 := bxor b4 c0 in
  let c5 := bxor b5 c1 in
  let c6 := bxor b6 c2 in
  let c7 := bxor b7 c3 in
  let c8 := bxor b8 c4 in
  let c9 := bxor b9 c5 in
  let c10 := bxor b10 c6 in
  let c11 := bxor b11 c7 in
  let c12 := bxor b12 c8 in
  let c13 := bxor b13 c9 in
  let c14 := bxor b14 c10 in
  let c15 := bxor b15 c11 in
  Block c0 c1 c2 c3 c4 c5 c6 c7 c8 c9 c10 c11 c12 c13 c14 c15.

Definition Rcon : bytes := [x01; x02; x04; x08; x10; x20; x40; x80; x1b; x36].

Fixpoint expand (k : block) (rcons : bytes) : list block :=
  match rcons with
  | [] => []
  | rc :: rcons' => let k' := next_round_key k rc in k' :: expand k' rcons'
  end.

(** The eleven round keys of a 128-bit key. *)
Definition key_expansion (key : block) : list block := key :: expand key Rcon.

Definition round (k s : block) : block :=
  add_round_key (mix_columns (shift_rows (sub_bytes s))) k.

Definition final_round (k s : block) : block :=
  add_round_key (shift_rows (sub_bytes s)) k.

Definition inv_round (k s : block) : block :=
  inv_sub_bytes (inv_shift_rows (inv_mix_columns (add_round_key s k))).

Definition inv_final_round (k s : block) : block :=
  inv_sub_bytes (inv_shift_rows (add_round_key s k)).

Fixpoint cipher_rounds (ks : list block) (s : block) : block :=
  match ks with
  | [] => s
  | [k] => final_round k s
  | k :: ks' => cipher_rounds ks' (round k s)
  end.

Fixpoint inv_cipher_rounds (ks : list block) (s : block) : block :=
  match ks with
  | [] => s
  | [k] => inv_final_round k s
  | k :: ks' => inv_round k (inv_cipher_rounds ks' s)
  end.

(** Cipher and InvCipher of FIPS 197 (figures 5 and 12) on the
    expanded key [ks]. *)
Definition cipher (ks : list block) (s : block) : block :=
  match ks with
  | [] => s
  | k0 :: ks' => cipher_rounds ks' (add_round_key s k0)
  end.

Definition inv_cipher (ks : list block) (s : block) : block :=
  match ks with
  | [] => s
  | k0 :: ks' => add_round_key (inv_cipher_rounds ks' s) k0
  end.

(** CBC chaining over whole blocks; [prev] starts as the IV. *)
Fixpoint cbc_encrypt (ks : list block) (prev : block) (pt : list block)
  : list block :=
  match pt with
  | [] => []
  | p :: pt' =>
      let c := cipher ks (xor_block p prev) in
      c :: cbc_encrypt ks c pt'
  end.

Fixpoint cbc_decrypt (ks : list block) (prev : block) (ct : list block)
  : list block :=
  match ct with
  | [] => []
  | c :: ct' => xor_block (inv_cipher ks c) prev :: cbc_decrypt ks c ct'
  end.

End Aes.

(** [padding.PKCS7(128)]: the padder and the unpadder's final check. *)
Module Pkcs7.

Definition pad (data : bytes) : bytes :=
  let n := (16 - length data mod 16)%nat in
  data ++ repeat (byte_of_N (N.of_nat n)) n.

Definition unpad (data : bytes) : option bytes :=
  match rev data with
  | [] => None
  | last :: _ =>
      let pad_size := N.to_nat (Byte.to_N last) in
      if ((length data mod 16 =? 0) && (1 <=? pad_size) && (pad_size <=? 16)
          && forallb (byte_eqb last) (skipn (length data - pad_size) data))%nat
      then Some (firstn (length data - pad_size) data)
      else None
  end.

End Pkcs7.

(** ** Python values, exceptions and the process state *)

(** Exceptions carry the data that [str(e)] shows.  A message is a
    literal, or an f-string: a literal followed by [str] of an exception
    or by a number. *)
Inductive exn : Type :=
| ValueError (msg : message)
| TypeError (msg : message)
| AttributeError (msg : message)
| UnicodeEncodeError (encoding : string) (object : pystr) (start stop : nat)
                     (reason : string)
| UnicodeDecodeError (encoding : string) (object : bytes)
| InvalidToken
with message : Type :=
| Text (s : string)
| Format (s : string) (e : exn)
| FormatNat (s : string) (n : nat) (s' : string).

(** The classes an [except] clause can name. *)
Inductive exn_class : Type :=
| cls_Exception
| cls_ValueError
| cls_TypeError
| cls_AttributeError
| cls_UnicodeError
| cls_UnicodeEncodeError
| cls_UnicodeDecodeError
| cls_InvalidToken.

Definition class_of (e : exn) : exn_class :=
  match e with
  | ValueError _ => cls_ValueError
  | TypeError _ => cls_TypeError
  | AttributeError _ => cls_AttributeError
  | UnicodeEncodeError _ _ _ _ _ => cls_UnicodeEncodeError
  | UnicodeDecodeError _ _ => cls_UnicodeDecodeError
  | InvalidToken => cls_InvalidToken
  end.

Definition exn_class_eqb (c d : exn_class) : bool :=
  match c, d with
  | cls_Exception, cls_Exception
  | cls_ValueError, cls_ValueError
  | cls_TypeError, cls_TypeError
  | cls_AttributeError, cls_AttributeError
  | cls_UnicodeError, cls_UnicodeError
  | cls_UnicodeEncodeError, cls_UnicodeEncodeError
  | cls_UnicodeDecodeError, cls_UnicodeDecodeError
  | cls_InvalidToken, cls_InvalidToken => true
  | _, _ => false
  end.

(** The base class: [UnicodeEncodeError] and [UnicodeDecodeError] derive
    from [UnicodeError], which derives from [ValueError]. *)
Definition base_class (c : exn_class) : option exn_class :=
  match c with
  | cls_Exception => None
  | cls_UnicodeEncodeError | cls_UnicodeDecodeError => Some cls_UnicodeError
  | cls_UnicodeError => Some cls_ValueError
  | _ => Some cls_Exception
  end.

Fixpoint issubclass_fuel (fuel : nat) (c d : exn_class) : bool :=
  exn_class_eqb c d ||
  match fuel with
  | O => false
  | S fuel' =>
      match base_class c with
      | Some b => issubclass_fuel fuel' b d
      | None => false
      end
  end.

Definition issubclass (c d : exn_class) : bool := issubclass_fuel 3 c d.

(** [isinstance(e, classes)] for a tuple of classes. *)
Definition isinstance_exn (e : exn) (classes : list exn_class) : bool :=
  existsb (issubclass (class_of e)) classes.

#[warnings="-register-all"] Inductive value : Type :=
| PyNone
| PyBool (b : bool)
| PyInt (z : Z)
| PyStr (s : pystr)
| PyBytes (b : bytes)
| PyList (l : list value).

(** [isinstance(v, str)] *)
Definition isinstance_str (v : value) : bool :=
  match v with
  | PyStr _ => true
  | _ => false
  end.

(** A [cryptography.fernet.Fernet] object: the two halves of the 32-byte
    key.  The second half, the AES-128 key, always has sixteen bytes and
    is kept as a block. *)
Record Fernet : Type :=
  { _signing_key : bytes;
    _encryption_key : Aes.block }.

(** Calls that leave the module: reads of the process configuration,
    of the clock and of the random source, and entries into the cipher
    library. *)
Inductive event : Type :=
| Getenv (name : string)
| FernetNew
| FernetEncrypt
| FernetDecrypt
| Time
| Urandom (n : nat).

(** The process: [os.environ], the module global [_fernet_instance],
    the kernel's random source (a stream and the read position), the
    clock in seconds, and the log of calls made so far (latest first). *)
Record world : Type :=
  { environ : gmap string pystr;
    _fernet_instance : option Fernet;
    entropy : nat -> byte;
    entropy_pos : nat;
    clock : N;
    trace : list event }.

Definition set_trace (t : list event) (w : world) : world :=
  {| environ := environ w; _fernet_instance := _fernet_instance w;
     entropy := entropy w; entropy_pos := entropy_pos w;
     clock := clock w; trace := t |}.

Definition set_fernet_instance (f : option Fernet) (w : world) : world :=
  {| environ := environ w; _fernet_instance := f;
     entropy := entropy w; entropy_pos := entropy_pos w;
     clock := clock w; trace := trace w |}.

Definition set_entropy_pos (n : nat) (w : world) : world :=
  {| environ := environ w; _fernet_instance := _fernet_instance w;
     entropy := entropy w; entropy_pos := n;
     clock := clock w; trace := trace w |}.

Definition set_environ (env : gmap string pystr) (w : world) : world :=
  {| environ := env; _fernet_instance := _fernet_instance w;
     entropy := entropy w; entropy_pos := entropy_pos w;
     clock := clock w; trace := trace w |}.

Definition set_clock (now : N) (w : world) : world :=
  {| environ := environ w; _fernet_instance := _fernet_instance w;
     entropy := entropy w; entropy_pos := entropy_pos w;
     clock := now; trace := trace w |}.

Inductive result (A : Type) : Type :=
| Ok (a : A)
| Raise (e : exn).
Arguments Ok {A} a.
Arguments Raise {A} e.

(** Computations that read and write the process and may raise. *)
Definition M (A : Type) : Type := world -> result A * world.

Definition ret {A} (a : A) : M A := fun w => (Ok a, w).

Definition raise {A} (e : exn) : M A := fun w => (Raise e, w).

Definition bind {A B} (m : M A) (k : A -> M B) : M B :=
  fun w =>
    match m w with
    | (Ok a, w') => k a w'
    | (Raise e, w') => (Raise e, w')
    end.

(** [try: m  except classes as e: handler e] *)
Definition try_except {A} (m : M A) (classes : list exn_class)
    (handler : exn -> M A) : M A :=
  fun w =>
    match m w with
    | (Raise e, w') =>
        if isinstance_exn e classes then handler e w' else (Raise e, w')
    | r => r
    end.

Definition lift {A} (r : result A) : M A := fun w => (r, w).

Declare Scope py_scope.
Delimit Scope py_scope with py.
Notation "x <- m ;; k" := (bind m (fun x => k))
  (at level 100, m at next level, right associativity) : py_scope.
Notation "m ;; k" := (bind m (fun _ => k))
  (at level 100, right associativity) : py_scope.
Local Open Scope py_scope.

Definition log (e : event) : M unit :=
  fun w => (Ok tt, set_trace (e :: trace w) w).

(** [os.getenv(name)] *)
Definition os_getenv (name : string) : M (option pystr) :=
  log (Getenv name) ;; fun w => (Ok (environ w !! name), w).

(** [os.urandom(n)] *)
Definition os_urandom (n : nat) : M bytes :=
  log (Urandom n) ;;
  fun w =>
    (Ok (map (entropy w) (seq (entropy_pos w) n)),
     set_entropy_pos (entropy_pos w + n) w).

(** [int(time.time())]: the clock is a 64-bit count of seconds. *)
Definition time_time : M N :=
  log Time ;; fun w => (Ok (clock w mod 2 ^ 64), w).

(** [s.encode()] *)
Definition str_encode (s : pystr) : result bytes :=
  match Utf8.encode s with
  | Utf8.Encoded b => Ok b
  | Utf8.SurrogatesNotAllowed start stop =>
      Raise (UnicodeEncodeError "utf-8" s start stop "surrogates not allowed")
  end.

(** [b.decode()] *)
Definition bytes_decode (b : bytes) : result pystr :=
  match Utf8.decode b with
  | Some s => Ok s
  | None => Raise (UnicodeDecodeError "utf-8" b)
  end.

Definition rbind {A B} (r : result A) (k : A -> result B) : result B :=
  match r with
  | Ok a => k a
  | Raise e => Raise e
  end.

(** ** [cryptography.fernet.Fernet]

    The class as [cryptography/fernet.py] defines it, for [bytes]
    arguments and without a ttl, which is how [core/encryption.py] calls
    it. *)

Definition fernet_key_error : exn :=
  ValueError (Text "Fernet key must be 32 url-safe base64-encoded bytes.").

(** [Fernet.__init__(key)]: decode the key, check that it has 32 bytes and
    split it.  (The last branch is the AES key-size check; sixteen bytes
    always remain.) *)
Definition Fernet_init (key : bytes) : result Fernet :=
  match Base64.urlsafe_b64decode key with
  | Base64.Error _ => Raise fernet_key_error
  | Base64.Decoded key =>
      if negb (length key =? 32)%nat then Raise fernet_key_error
      else
        match Aes.block_of_bytes (skipn 16 key) with
        | Some ek =>
            Ok {| _signing_key := firstn 16 key; _encryption_key := ek |}
        | None => Raise fernet_key_error
        end
  end.

Definition Fernet_new (key : bytes) : M Fernet :=
  log FernetNew ;; lift (Fernet_init key).

(** [n.to_bytes(length=8, byteorder="big")] *)
Definition to_bytes8 (n : N) : bytes :=
  map (fun i => byte_of_N (N.shiftr n (8 * i))) [7; 6; 5; 4; 3; 2; 1; 0].

Definition invalid_iv_size (iv : bytes) : exn :=
  ValueError (FormatNat "Invalid IV size (" (length iv) ") for CBC.").

Definition not_block_multiple : exn :=
  ValueError
    (Text "The length of the provided data is not a multiple of the block length.").

(** [Cipher(algorithms.AES(key), modes.CBC(iv)).encryptor()], [update]
    and [finalize]. *)
Definition aes_cbc_encrypt (key : Aes.block) (iv data : bytes) : result bytes :=
  match Aes.block_of_bytes iv with
  | None => Raise (invalid_iv_size iv)
  | Some iv0 =>
      match Aes.blocks_of_bytes data with
      | None => Raise not_block_multiple
      | Some pt =>
          Ok (Aes.bytes_of_blocks (Aes.cbc_encrypt (Aes.key_expansion key) iv0 pt))
      end
  end.

(** [Cipher(algorithms.AES(key), modes.CBC(iv)).decryptor()], [update]
    and [finalize]. *)
Definition aes_cbc_decrypt (key : Aes.block) (iv data : bytes) : result bytes :=
  match Aes.block_of_bytes iv with
  | None => Raise (invalid_iv_size iv)
  | Some iv0 =>
      match Aes.blocks_of_bytes data with
      | None => Raise not_block_multiple
      | Some ct =>
          Ok (Aes.bytes_of_blocks (Aes.cbc_decrypt (Aes.key_expansion key) iv0 ct))
      end
  end.

(** [Fernet._encrypt_from_parts(data, current_time, iv)] *)
Definition _encrypt_from_parts (f : Fernet) (data : bytes) (current_time : N)
    (iv : bytes) : result bytes :=
  let padded_data := Pkcs7.pad data in
  rbind (aes_cbc_encrypt (_encryption_key f) iv padded_data) (fun ciphertext =>
  let basic_parts := x80 :: to_bytes8 current_time ++ iv ++ ciphertext in
  let hmac := hmac_sha256 (_signing_key f) basic_parts in
  Ok (Base64.urlsafe_b64encode (basic_parts ++ hmac))).

(** [Fernet.encrypt(data)]: [encrypt_at_time(data, int(time.time()))],
    which draws the IV from [os.urandom(16)]. *)
Definition Fernet_encrypt (f : Fernet) (data : bytes) : M bytes :=
  log FernetEncrypt ;;
  current_time <- time_time ;;
  iv <- os_urandom 16 ;;
  lift (_encrypt_from_parts f data current_time iv).

(** [Fernet._get_unverified_token_data(token)]; the timestamp it also
    returns is only used when a ttl is given. *)
Definition _get_unverified_token_data (token : bytes) : result bytes :=
  match Base64.urlsafe_b64decode token with
  | Base64.Error _ => Raise InvalidToken
  | Base64.Decoded data =>
      match data with
      | [] => Raise InvalidToken
      | b0 :: _ =>
          if negb (byte_eqb b0 x80) then Raise InvalidToken
          else if (length data <? 9)%nat then Raise InvalidToken
          else Ok data
      end
  end.

Definition bytes_eqb (a b : bytes) : bool :=
  (length a =? length b)%nat && forallb (fun p => byte_eqb (fst p) (snd p)) (combine a b).

(** [h.verify(data[-32:])] after [h.update(data[:-32])] *)
Definition signature_ok (f : Fernet) (data : bytes) : bool :=
  bytes_eqb (hmac_sha256 (_signing_key f) (firstn (length data - 32) data))
            (skipn (length data - 32) data).

Definition _verify_signature (f : Fernet) (data : bytes) : result unit :=
  if signature_ok f data then Ok tt else Raise InvalidToken.

(** [Fernet._decrypt_data(data, timestamp, None)]: the signature, then
    CBC decryption of [data[25:-32]] under the IV [data[9:25]], then the
    padding.  A wrong IV size is raised by the cipher's constructor,
    outside the [try] blocks. *)
Definition _decrypt_data (f : Fernet) (data : bytes) : result bytes :=
  rbind (_verify_signature f data) (fun _ =>
  let iv := firstn 16 (skipn 9 data) in
  let ciphertext := firstn (length data - 32 - 25) (skipn 25 data) in
  match Aes.block_of_bytes iv with
  | None => Raise (invalid_iv_size iv)
  | Some _ =>
      match aes_cbc_decrypt (_encryption_key f) iv ciphertext with
      | Raise _ => Raise InvalidToken
      | Ok plaintext_padded =>
          match Pkcs7.unpad plaintext_padded with
          | None => Raise InvalidToken
          | Some unpadded => Ok unpadded
          end
      end
  end).

(** [Fernet.decrypt(token)] with [ttl=None] *)
Definition Fernet_decrypt_pure (f : Fernet) (token : bytes) : result bytes :=
  rbind (_get_unverified_token_data token) (_decrypt_data f).

Definition Fernet_decrypt (f : Fernet) (token : bytes) : M bytes :=
  log FernetDecrypt ;; lift (Fernet_decrypt_pure f token).

(** Attribute lookup on the value [_get_fernet] returned: [None] has no
    methods. *)
Definition getattr {A} (fernet : option Fernet) (name : string)
    (method : Fernet -> A) : M A :=
  match fernet with
  | Some f => ret (method f)
  | None =>
      raise (AttributeError
               (Text (String.append "'NoneType' object has no attribute '"
                        (String.append name "'"))))
  end.

(** ** The module [core/encryption.py] *)

Definition write_fernet_instance (f : option Fernet) : M unit :=
  fun w => (Ok tt, set_fernet_instance f w).

Definition read_fernet_instance : M (option Fernet) :=
  fun w => (Ok (_fernet_instance w), w).

(** The errors of the module, as it raises them. *)
Definition invalid_input_kind_encrypt : exn :=
  TypeError (Text "Data to encrypt must be a string.").

Definition invalid_input_kind_decrypt : exn :=
  TypeError (Text "Data to decrypt must be a string.").

Definition missing_master_key : exn :=
  ValueError
    (Text "APP_MASTER_KEY environment variable not set. Cannot perform encryption/decryption.").

Definition invalid_master_key (e : exn) : exn :=
  ValueError
    (Format "Invalid APP_MASTER_KEY. It must be a 32-byte URL-safe base64-encoded key. Details: " e).

Definition tampered_or_invalid_token : exn :=
  ValueError
    (Text "Cannot decrypt data: The token is invalid or has been tampered with.").

(** [_get_fernet()]; [not master_key] holds of [None] and of the empty
    string. *)
Definition _get_fernet : M (option Fernet) :=
  inst <- read_fernet_instance ;;
  match inst with
  | None =>
      master_key <- os_getenv "APP_MASTER_KEY" ;;
      match master_key with
      | Some ((_ :: _) as master_key) =>
          try_except
            (key <- lift (str_encode master_key) ;;
             f <- Fernet_new key ;;
             write_fernet_instance (Some f))
            [cls_ValueError; cls_TypeError]
            (fun e => raise (invalid_master_key e))
      | _ => raise missing_master_key
      end
  | Some _ => ret tt
  end ;;
  read_fernet_instance.

Definition encrypt (data : value) : M pystr :=
  match data with
  | PyStr data =>
      fernet <- _get_fernet ;;
      fernet_encrypt <- getattr fernet "encrypt" Fernet_encrypt ;;
      plain <- lift (str_encode data) ;;
      token <- fernet_encrypt plain ;;
      lift (bytes_decode token)
  | _ => raise invalid_input_kind_encrypt
  end.

Definition decrypt (encrypted_data : value) : M pystr :=
  match encrypted_data with
  | PyStr encrypted_data =>
      fernet <- _get_fernet ;;
      try_except
        (fernet_decrypt <- getattr fernet "decrypt" Fernet_decrypt ;;
         token <- lift (str_encode encrypted_data) ;;
         plain <- fernet_decrypt token ;;
         lift (bytes_decode plain))
        [cls_InvalidToken]
        (fun _ => raise tampered_or_invalid_token)
  | _ => raise invalid_input_kind_decrypt
  end.

(** ** The process around the module *)

Definition APP_MASTER_KEY : string := "APP_MASTER_KEY".

(** The state right after [import core.encryption]: the module body has
    run [_fernet_instance = None]. *)
Definition import_module (env : gmap string pystr) (rng : nat -> byte) (now : N)
  : world :=
  {| environ := env; _fernet_instance := None;
     entropy := rng; entropy_pos := 0; clock := now; trace := [] |}.

(** What a process does between two observations: calls into the
    module, changes of [os.environ], and time passing. *)
Inductive action : Type :=
| Call_encrypt (v : value)
| Call_decrypt (v : value)
| Putenv (name : string) (val : pystr)
| Unsetenv (name : string)
| Sleep (seconds : N).

Definition step (w : world) (a : action) : world :=
  match a with
  | Call_encrypt v => snd (encrypt v w)
  | Call_decrypt v => snd (decrypt v w)
  | Putenv name val => set_environ (<[name := val]> (environ w)) w
  | Unsetenv name => set_environ (delete name (environ w)) w
  | Sleep seconds => set_clock (clock w + seconds) w
  end.

Definition run (acts : list action) (w : world) : world := fold_left step acts w.

Definition sets_master_key (a : action) : bool :=
  match a with
  | Putenv name _ => String.eqb name APP_MASTER_KEY
  | _ => false
  end.

(** The events a computation added to the log. *)
Definition events_since (w w' : world) : list event :=
  firstn (length (trace w') - length (trace w)) (trace w').

Definition reads_configuration (e : event) : bool :=
  match e with
  | Getenv _ | FernetNew => true
  | _ => false
  end.

(** [not master_key]: the variable is unset, or set to the empty
    string. *)
Definition falsy (master_key : option pystr) : bool :=
  match master_key with
  | None | Some [] => true
  | Some (_ :: _) => false
  end.

(** The five ways [_get_fernet] ends, with the state it leaves. *)
Inductive get_fernet_outcome (w : world) : result (option Fernet) * world -> Prop :=
| Cached f :
    _fernet_instance w = Some f ->
    get_fernet_outcome w (Ok (Some f), w)
| Built key b f :
    _fernet_instance w = None ->
    environ w !! APP_MASTER_KEY = Some key -> key <> [] ->
    str_encode key = Ok b -> Fernet_init b = Ok f ->
    get_fernet_outcome w
      (Ok (Some f),
       set_fernet_instance (Some f)
         (set_trace (FernetNew :: Getenv APP_MASTER_KEY :: trace w) w))
| Missing :
    _fernet_instance w = None ->
    falsy (environ w !! APP_MASTER_KEY) = true ->
    get_fernet_outcome w
      (Raise missing_master_key, set_trace (Getenv APP_MASTER_KEY :: trace w) w)
| Unencodable key e :
    _fernet_instance w = None ->
    environ w !! APP_MASTER_KEY = Some key -> key <> [] ->
    str_encode key = Raise e ->
    get_fernet_outcome w
      (Raise (invalid_master_key e),
       set_trace (Getenv APP_MASTER_KEY :: trace w) w)
| Rejected key b :
    _fernet_instance w = None ->
    environ w !! APP_MASTER_KEY = Some key -> key <> [] ->
    str_encode key = Ok b -> Fernet_init b = Raise fernet_key_error ->
    get_fernet_outcome w
      (Raise (invalid_master_key fernet_key_error),
       set_trace (FernetNew :: Getenv APP_MASTER_KEY :: trace w) w).

(** The state after the library's [encrypt] and [decrypt], the IV the
    next [os.urandom(16)] returns and the time the clock shows. *)
Definition after_encrypt (w : world) : world :=
  set_entropy_pos (entropy_pos w + 16)
    (set_trace (Urandom 16 :: Time :: FernetEncrypt :: trace w) w).

Definition after_decrypt (w : world) : world :=
  set_trace (FernetDecrypt :: trace w) w.

Definition next_iv (w : world) : bytes := map (entropy w) (seq (entropy_pos w) 16).

Definition now (w : world) : N := clock w mod 2 ^ 64.

(** The text of a byte string of ASCII characters. *)
Definition text (b : bytes) : pystr := map Byte.to_N b.

(** A master key as [Fernet.generate_key()] writes it: the URL-safe
    base64 encoding of 32 bytes, in its one canonical spelling. *)
Definition is_valid_master_key (key : pystr) : bool :=
  match str_encode key with
  | Ok b =>
      match Base64.urlsafe_b64decode b with
      | Base64.Decoded raw =>
          (length raw =? 32)%nat && bytes_eqb (Base64.urlsafe_b64encode raw) b
      | Base64.Error _ => false
      end
  | Raise _ => false
  end.

(** A master key the cipher library accepts. *)
Definition fernet_accepts (key : pystr) : bool :=
  match str_encode key with
  | Ok b =>
      match Fernet_init b with
      | Ok _ => true
      | Raise _ => false
      end
  | Raise _ => false
  end.



(** The bytes under the base64 layer of a token given as text. *)
Definition token_data (t : pystr) : option bytes :=
  match str_encode t with
  | Ok b =>
      match Base64.urlsafe_b64decode b with
      | Base64.Decoded data => Some data
      | Base64.Error _ => None
      end
  | Raise _ => None
  end.

(** The round-trip law at a state of the process: [encrypt(s)] returns a
    token, and [decrypt] of that token returns [s] in every state that
    holds the same cached instance. *)
Definition roundtrip_law (w : world) (s : pystr) : Prop :=
  exists token w1,
    encrypt (PyStr s) w = (Ok token, w1) /\
    forall w2, _fernet_instance w2 = _fernet_instance w1 ->
               fst (decrypt (PyStr token) w2) = Ok s.

(** The part of the bytes of a token that the tag signs: all but the
    last 32 bytes. *)
Definition signed_part (data : bytes) : bytes := firstn (length data - 32) data.

(** [t'] is a forgery with respect to the token [t]: the bytes it
    decodes to carry a tag that verifies under the signing key of [f], on
    a signed part other than the one of [t].  To make one without the key
    is what HMAC-SHA256 is trusted to prevent.  A string that does not
    decode, and one that decodes to the signed part of [t] with whatever
    tag, are no forgeries. *)
Definition forged (f : Fernet) (t t' : pystr) : bool :=
  match token_data t, token_data t' with
  | Some data, Some data' =>
      negb (bytes_eqb (signed_part data') (signed_part data))
      && signature_ok f data'
  | _, _ => false
  end.


(** ** States used in the examples *)

(** The URL-safe base64 encoding of the bytes 0, 1, ..., 31. *)
Definition example_key : pystr :=
  pystr_of_string "AAECAwQFBgcICQoLDA0ODxAREhMUFRYXGBkaGxwdHh8=".

(** The instance [Fernet(example_key)] builds. *)
Definition example_fernet : Fernet :=
  {| _signing_key :=
       [x00; x01; x02; x03; x04; x05; x06; x07;
        x08; x09; x0a; x0b; x0c; x0d; x0e; x0f];
     _encryption_key :=
       Aes.Block x10 x11 x12 x13 x14 x15 x16 x17
                 x18 x19 x1a x1b x1c x1d x1e x1f |}.

Definition example_entropy (i : nat) : byte := byte_of_N (100 + N.of_nat i).

(** A process started with a valid master key, and one started without
    any. *)
Definition example_world : world :=
  import_module {[ APP_MASTER_KEY := example_key ]} example_entropy 1700000000.

Definition unconfigured_world : world :=
  import_module ∅ example_entropy 1700000000.

(** A key in the standard base64 alphabet (43 times [/], then [=]): not
    URL-safe, and the encoding of no byte string under
    [urlsafe_b64encode]; and the malformed key of the module's tests. *)
Definition noncanonical_key : pystr :=
  pystr_of_string "///////////////////////////////////////////=".

Definition noncanonical_world : world :=
  import_module {[ APP_MASTER_KEY := noncanonical_key ]} example_entropy 1700000000.

Definition malformed_key : pystr := pystr_of_string "this-is-not-a-base64-key".

Definition malformed_world : world :=
  import_module {[ APP_MASTER_KEY := malformed_key ]} example_entropy 1700000000.

(** The token [encrypt("some data")] returns in [example_world]; the
    same with its last character replaced by [Z], as in the module's
    tests; with the first [-] replaced by [+]; and with the [w] before the
    padding replaced by [x]. *)
Definition example_token : pystr :=
  pystr_of_string
    "gAAAAABlU_EAZGVmZ2hpamtsbW5vcHFycw93ibVFAToEYjo_N6Px2JpgrGL_DiT0WTN_GT5sC-bjaABW_6niZYby-E3GPan6Mw==".

Definition tampered_token : pystr :=
  pystr_of_string
    "gAAAAABlU_EAZGVmZ2hpamtsbW5vcHFycw93ibVFAToEYjo_N6Px2JpgrGL_DiT0WTN_GT5sC-bjaABW_6niZYby-E3GPan6Mw=Z".




(** [t[:i] + c + t[i+1:]]: the string [t] with the character [c] at
    index [i]. *)
Definition with_character (i : nat) (c : N) (t : pystr) : pystr :=
  firstn i t ++ c :: skipn (S i) t.

(** A process that made a token and then lost its master key. *)
Definition key_removed_world : world :=
  run [Call_encrypt (PyStr (pystr_of_string "some data")); Unsetenv APP_MASTER_KEY]
    example_world.

(** ** The shape of tokens *)

(** The characters of a token: the URL-safe alphabet the encoder writes,
    and the padding sign. *)
Definition urlsafe_alphabet : pystr :=
  text (map Base64._urlsafe_encode_translation Base64.table_b2a_base64
        ++ [Base64.BASE64_PAD]).

Definition is_urlsafe_char (c : N) : bool := existsb (N.eqb c) urlsafe_alphabet.

(** The bytes the decoder of [urlsafe_b64decode] reads: a character of
    either alphabet (after the translation of [-] and [_]) or the padding
    sign.  It steps over every other byte. *)
Definition significant (b : byte) : bool :=
  let c := Base64._urlsafe_decode_translation b in
  byte_eqb c Base64.BASE64_PAD
  || match Base64.a2b c with
     | Some _ => true
     | None => false
     end.

(** The same for a character of a string: one of [A-Z a-z 0-9 + / - _ =]. *)
Definition is_base64_symbol (c : N) : bool :=
  (c <? 0x80) && significant (byte_of_N c).

(** ** [core/models.py]: the stored credential *)

(** The truth value of an object, as [if x:] takes it. *)
Definition truthy (v : value) : bool :=
  match v with
  | PyNone => false
  | PyBool b => b
  | PyInt z => negb (z =? 0)%Z
  | PyStr s => negb (length s =? 0)%nat
  | PyBytes b => negb (length b =? 0)%nat
  | PyList l => negb (length l =? 0)%nat
  end.

Module ApiCredential.

(** The attributes of an [ApiCredential] that its methods read or that
    hold plain values. *)
Record t : Type :=
  { name : value;
    api_key_encrypted : value;
    service_provider : value;
    is_active : value;
    is_free : value }.

(** [ApiCredential.__str__] *)
Definition __str__ (self : t) : value := name self.

(** [ApiCredential.get_masked_key] *)
Definition get_masked_key (self : t) : pystr :=
  if truthy (api_key_encrypted self)
  then pystr_of_string "sk-..." ++ pystr_of_string "xxxx"
  else pystr_of_string "".

End ApiCredential.

(** ** [core/tests.py]: the test case and what it uses of [unittest] *)

(** How a piece of test code ends: it returns, it lets an exception of
    the code under test through, [del os.environ[...]] raises [KeyError],
    or an assertion fails. *)
Inductive verdict (A : Type) : Type :=
| Returned (a : A)
| Raised (e : exn)
| RaisedKeyError (key : string)
| AssertionFailed.
Arguments Returned {A} a.
Arguments Raised {A} e.
Arguments RaisedKeyError {A} key.
Arguments AssertionFailed {A}.

Definition TestM (A : Type) : Type := world -> verdict A * world.

Definition tret {A} (a : A) : TestM A := fun w => (Returned a, w).

Definition tbind {A B} (m : TestM A) (k : A -> TestM B) : TestM B :=
  fun w =>
    match m w with
    | (Returned a, w') => k a w'
    | (Raised e, w') => (Raised e, w')
    | (RaisedKeyError key, w') => (RaisedKeyError key, w')
    | (AssertionFailed, w') => (AssertionFailed, w')
    end.

(** A call into the code under test. *)
Definition call {A} (m : M A) : TestM A :=
  fun w =>
    match m w with
    | (Ok a, w') => (Returned a, w')
    | (Raise e, w') => (Raised e, w')
    end.

Definition fail {A} : TestM A := fun w => (AssertionFailed, w).

Declare Scope test_scope.
Delimit Scope test_scope with test.
Notation "x <- m ;; k" := (tbind m (fun x => k))
  (at level 100, m at next level, right associativity) : test_scope.
Notation "m ;; k" := (tbind m (fun _ => k))
  (at level 100, right associativity) : test_scope.

(** [os.environ.get(name)], [os.environ[name] = val], [name in
    os.environ] and [del os.environ[name]].  The values the tests write
    are a generated key, a literal and a value read from [os.environ]. *)
Definition os_environ_get (name : string) : TestM (option pystr) :=
  fun w => (Returned (environ w !! name), w).

Definition os_environ_setitem (name : string) (val : pystr) : TestM unit :=
  fun w => (Returned tt, step w (Putenv name val)).

Definition os_environ_contains (name : string) : TestM bool :=
  fun w => (Returned (bool_decide (is_Some (environ w !! name))), w).

Definition os_environ_delitem (name : string) : TestM unit :=
  fun w =>
    match environ w !! name with
    | Some _ => (Returned tt, step w (Unsetenv name))
    | None => (RaisedKeyError name, w)
    end.

(** [Fernet.generate_key()] *)
Definition Fernet_generate_key : M bytes :=
  (raw <- os_urandom 32 ;; ret (Base64.urlsafe_b64encode raw))%py.

(** [importlib.reload(encryption)] runs the module body again, in the
    same process: [_fernet_instance = None]. *)
Definition importlib_reload : TestM unit :=
  fun w => (Returned tt, set_fernet_instance None w).

(** [s[:-1]] *)
Definition all_but_last (s : pystr) : pystr := removelast s.

(** [re.search(pattern, text) is not None] for a pattern of literal
    characters and [.], which stands for any character but a newline; the
    patterns of the tests hold no other special character. *)
Fixpoint re_match_here (pattern text : string) : bool :=
  match pattern with
  | EmptyString => true
  | String p pattern' =>
      match text with
      | EmptyString => false
      | String c text' =>
          (if Ascii.eqb p "." then negb (Ascii.eqb c "010") else Ascii.eqb p c)
          && re_match_here pattern' text'
      end
  end.

Fixpoint re_search (pattern text : string) : bool :=
  re_match_here pattern text
  || match text with
     | EmptyString => false
     | String _ text' => re_search pattern text'
     end.

Section EncryptionServiceTests.

(** [str(e)] of a [UnicodeEncodeError] or [UnicodeDecodeError]: the codec
    machinery builds it from the position and the offending data.  The
    tests are modelled for any such text. *)
Variable codec_error_text : exn -> string.

(** [str(e)] *)
Fixpoint str_exn (e : exn) : string :=
  match e with
  | ValueError msg | TypeError msg | AttributeError msg => str_message msg
  | UnicodeEncodeError _ _ _ _ _ | UnicodeDecodeError _ _ => codec_error_text e
  | InvalidToken => ""
  end
with str_message (m : message) : string :=
  match m with
  | Text s => s
  | Format s e => String.append s (str_exn e)
  | FormatNat s n s' =>
      String.append s
        (String.append (DecimalString.NilEmpty.string_of_uint (Nat.to_uint n)) s')
  end.

Local Open Scope test_scope.

(** [self.assertIsInstance(obj, str)], [self.assertEqual(first, second)]
    and [self.assertNotEqual(first, second)] on strings. *)
Definition assertIsInstance_str (obj : value) : TestM unit :=
  if isinstance_str obj then tret tt else fail.

Definition assertEqual (first second : pystr) : TestM unit :=
  if bool_decide (first = second) then tret tt else fail.

Definition assertNotEqual (first second : pystr) : TestM unit :=
  if bool_decide (first = second) then fail else tret tt.

(** [with self.assertRaises(cls): body]: an exception of another class
    goes through. *)
Definition assertRaises {A} (cls : exn_class) (body : TestM A) : TestM unit :=
  fun w =>
    match body w with
    | (Returned _, w') => (AssertionFailed, w')
    | (Raised e, w') =>
        if isinstance_exn e [cls] then (Returned tt, w') else (Raised e, w')
    | (RaisedKeyError key, w') => (RaisedKeyError key, w')
    | (AssertionFailed, w') => (AssertionFailed, w')
    end.

(** [with self.assertRaisesRegex(cls, expected_regex): body] *)
Definition assertRaisesRegex {A} (cls : exn_class) (expected_regex : string)
    (body : TestM A) : TestM unit :=
  fun w =>
    match body w with
    | (Returned _, w') => (AssertionFailed, w')
    | (Raised e, w') =>
        if isinstance_exn e [cls] then
          if re_search expected_regex (str_exn e) then (Returned tt, w')
          else (AssertionFailed, w')
        else (Raised e, w')
    | (RaisedKeyError key, w') => (RaisedKeyError key, w')
    | (AssertionFailed, w') => (AssertionFailed, w')
    end.

(** The attributes [setUp] gives the test case. *)
Record EncryptionServiceTests : Type :=
  { original_key : option pystr;
    test_key : pystr }.

Definition setUp : TestM EncryptionServiceTests :=
  original_key <- os_environ_get "APP_MASTER_KEY" ;;
  key <- call Fernet_generate_key ;;
  test_key <- call (lift (bytes_decode key)) ;;
  os_environ_setitem "APP_MASTER_KEY" test_key ;;
  importlib_reload ;;
  tret {| original_key := original_key; test_key := test_key |}.

Definition tearDown (self : EncryptionServiceTests) : TestM unit :=
  match original_key self with
  | None =>
      present <- os_environ_contains "APP_MASTER_KEY" ;;
      if present then os_environ_delitem "APP_MASTER_KEY" else tret tt
  | Some original_key => os_environ_setitem "APP_MASTER_KEY" original_key
  end ;;
  importlib_reload.

Definition test_encrypt_decrypt_successful_cycle (self : EncryptionServiceTests)
  : TestM unit :=
  let original_text := pystr_of_string "my-secret-api-key-12345" in
  encrypted_text <- call (encrypt (PyStr original_text)) ;;
  assertIsInstance_str (PyStr encrypted_text) ;;
  assertNotEqual original_text encrypted_text ;;
  decrypted_text <- call (decrypt (PyStr encrypted_text)) ;;
  assertEqual original_text decrypted_text.

Definition test_decrypting_tampered_data_raises_value_error
    (self : EncryptionServiceTests) : TestM unit :=
  encrypted_text <- call (encrypt (PyStr (pystr_of_string "some data"))) ;;
  let tampered_text := all_but_last encrypted_text ++ pystr_of_string "Z" in
  assertRaisesRegex cls_ValueError
    "Cannot decrypt data: The token is invalid or has been tampered with."
    (call (decrypt (PyStr tampered_text))).

Definition test_encrypt_decrypt_without_master_key_raises_error
    (self : EncryptionServiceTests) : TestM unit :=
  os_environ_delitem "APP_MASTER_KEY" ;;
  importlib_reload ;;
  assertRaisesRegex cls_ValueError "APP_MASTER_KEY environment variable not set"
    (call (encrypt (PyStr (pystr_of_string "this will fail")))) ;;
  assertRaisesRegex cls_ValueError "APP_MASTER_KEY environment variable not set"
    (let encrypted_data := pystr_of_string "gAAAAABm_..." in
     call (decrypt (PyStr encrypted_data))).

Definition test_invalid_master_key_raises_error (self : EncryptionServiceTests)
  : TestM unit :=
  os_environ_setitem "APP_MASTER_KEY" (pystr_of_string "this-is-not-a-base64-key") ;;
  importlib_reload ;;
  assertRaisesRegex cls_ValueError "Invalid APP_MASTER_KEY"
    (call (encrypt (PyStr (pystr_of_string "this will also fail")))).

Definition test_encrypting_non_string_input_raises_type_error
    (self : EncryptionServiceTests) : TestM unit :=
  assertRaises cls_TypeError (call (encrypt (PyInt 12345))) ;;
  assertRaises cls_TypeError (call (encrypt (PyBytes (ascii_bytes "some bytes")))) ;;
  assertRaises cls_TypeError (call (encrypt PyNone)).

Definition test_decrypting_non_string_input_raises_type_error
    (self : EncryptionServiceTests) : TestM unit :=
  assertRaises cls_TypeError (call (decrypt (PyInt 12345))) ;;
  assertRaises cls_TypeError (call (decrypt (PyBytes (ascii_bytes "some bytes")))) ;;
  assertRaises cls_TypeError (call (decrypt PyNone)).

(** One test as [unittest] runs it: [setUp], the test method, and
    [tearDown] whether the method passed or not; the first failure is the
    result. *)
Definition run_test (test : EncryptionServiceTests -> TestM unit) : TestM unit :=
  fun w =>
    match setUp w with
    | (Returned self, w1) =>
        let (outcome, w2) := test self w1 in
        let (cleanup, w3) := tearDown self w2 in
        (match outcome with
         | Returned _ => cleanup
         | _ => outcome
         end, w3)
    | (Raised e, w1) => (Raised e, w1)
    | (RaisedKeyError key, w1) => (RaisedKeyError key, w1)
    | (AssertionFailed, w1) => (AssertionFailed, w1)
    end.

End EncryptionServiceTests.

(** ** More strings used in the examples *)

(** [example_token] as a mail program might hand it on: indented, broken
    over two lines, and followed by a stray accented letter. *)
Definition wrapped_token : pystr :=
  pystr_of_string "  gAAAAABlU_EAZGVmZ2hpamtsbW5vcHFycw93ibVFAToEYjo_N6Px2J"
  ++ [10] ++ pystr_of_string "  pgrGL_DiT0WTN_GT5sC-bjaABW_6niZYby-E3GPan6Mw== "
  ++ [0xe9].

(** The state after [encrypt("some data")] in [example_world]. *)
Definition example_world_after_encrypt : world :=
  snd (encrypt (PyStr (pystr_of_string "some data")) example_world).

(** Two bytes that are no UTF-8 text. *)
Definition binary_payload : bytes := [xff; xfe].

(** A process whose master key is set to the empty string. *)
Definition empty_key_world : world :=
  import_module {[ APP_MASTER_KEY := [] ]} example_entropy 1700000000.

(** A second process with the key of [example_world], started later
    and with other random bytes. *)
Definition second_world : world :=
  import_module {[ APP_MASTER_KEY := example_key ]}
    (fun i => byte_of_N (7 * N.of_nat i)) 1800000000.

(** [example_key] as read from a file: with the line break after it;
    and a process configured with it. *)
Definition example_key_with_newline : pystr := example_key ++ [10].

Definition newline_world : world :=
  import_module {[ APP_MASTER_KEY := example_key_with_newline ]}
    example_entropy 1700000000.

(** A credential that stores [example_token]. *)
Definition example_credential : ApiCredential.t :=
  {| ApiCredential.name := PyStr (pystr_of_string "OpenRouter main");
     ApiCredential.api_key_encrypted := PyStr example_token;
     ApiCredential.service_provider := PyStr (pystr_of_string "OpenRouter");
     ApiCredential.is_active := PyBool true;
     ApiCredential.is_free := PyBool false |}.

(** * Properties *)

(** ** Bytes *)

Lemma byte_of_to_N (b : byte) : byte_of_N (Byte.to_N b) = b.
Proof. destruct b; reflexivity. Qed.

Lemma to_of_N_byte (n : N) : Byte.to_N (byte_of_N n) = n mod 256.
Proof.
  unfold byte_of_N.
  assert (Hlt : n mod 256 < 256) by (apply N.mod_lt; discriminate).
  destruct (Byte.of_N (n mod 256)) as [b|] eqn:E.
  - now apply Byte.to_of_N.
  - apply Byte.of_N_None_iff in E. lia.
Qed.

Lemma to_N_lt_256 (b : byte) : Byte.to_N b < 256.
Proof. pose proof (Byte.to_N_bounded b). lia. Qed.

Lemma all_bytes_complete (b : byte) : In b all_bytes.
Proof.
  rewrite <- (byte_of_to_N b).
  pose proof (to_N_lt_256 b) as Hlt.
  replace (Byte.to_N b) with (N.of_nat (N.to_nat (Byte.to_N b))) by apply N2Nat.id.
  change all_bytes with (map (fun i => byte_of_N (N.of_nat i)) (seq 0 256)).
  apply (in_map (fun i => byte_of_N (N.of_nat i))), in_seq. lia.
Qed.

(** Checking a property of one byte, or of two, on all of them. *)
Lemma forall_byte (P : byte -> bool) :
  forallb P all_bytes = true -> forall b, P b = true.
Proof.
  intros H b. rewrite forallb_forall in H. apply H, all_bytes_complete.
Qed.

Lemma forall_byte2 (P : byte -> byte -> bool) :
  forallb (fun a => forallb (P a) all_bytes) all_bytes = true ->
  forall a b, P a b = true.
Proof.
  intros H a b.
  apply (forall_byte (P a)), (forall_byte (fun a => forallb (P a) all_bytes) H).
Qed.

Lemma byte_eqb_eq (a b : byte) : byte_eqb a b = true <-> a = b.
Proof.
  unfold byte_eqb. rewrite N.eqb_eq. split; [|now intros ->].
  intros H. rewrite <- (byte_of_to_N a), <- (byte_of_to_N b). now rewrite H.
Qed.

Lemma byte_eqb_refl (a : byte) : byte_eqb a a = true.
Proof. now apply byte_eqb_eq. Qed.

Lemma byte_eqb_neq (a b : byte) : byte_eqb a b = false <-> a <> b.
Proof.
  rewrite <- byte_eqb_eq. destruct (byte_eqb a b); split; congruence.
Qed.

(** ** Base64: decoding inverts encoding *)

Lemma list_ind3 {A} (P : list A -> Prop) :
  P [] -> (forall a, P [a]) -> (forall a b, P [a; b]) ->
  (forall a b c l, P l -> P (a :: b :: c :: l)) ->
  forall l, P l.
Proof.
  intros H0 H1 H2 H3.
  fix IH 1.
  intros [|a [|b [|c l]]]; [apply H0 | apply H1 | apply H2 | apply H3, IH].
Qed.

Lemma opt_N_eqb_eq (o : option N) (v : N) : opt_N_eqb o v = true -> o = Some v.
Proof. destruct o; simpl; [|discriminate]. now intros ->%N.eqb_eq. Qed.

(** The character the URL-safe decoder sees for a sextet, and whether
    the decoder takes it for the sextet. *)
Local Abbreviation sextet_char n :=
  (Base64._urlsafe_decode_translation
     (Base64._urlsafe_encode_translation (Base64.b2a n))).

Local Abbreviation lo a := (Byte.to_N a).

Local Abbreviation reads_as n :=
  (negb (byte_eqb (sextet_char n) Base64.BASE64_PAD)
   && opt_N_eqb (Base64.a2b (sextet_char n)) n).

Lemma reads_as_spec (n : N) :
  reads_as n = true ->
  byte_eqb (sextet_char n) Base64.BASE64_PAD = false /\
  Base64.a2b (sextet_char n) = Some n.
Proof.
  intros [H1 H2]%andb_true_iff. split.
  - now apply negb_true_iff.
  - now apply opt_N_eqb_eq.
Qed.

Ltac byte_check :=
  first [ apply forall_byte2 | apply forall_byte ]; vm_compute; reflexivity.

Lemma b64_char0 (a : byte) : reads_as (N.shiftr (lo a) 2) = true.
Proof. revert a. byte_check. Qed.

Lemma b64_char1 (a b : byte) :
  let v := N.lor (N.shiftl (N.land (lo a) 3) 4) (N.shiftr (lo b) 4) in
  (reads_as v
   && byte_eqb (byte_of_N (N.lor (N.shiftl (N.shiftr (lo a) 2) 2) (N.shiftr v 4))) a
   && (N.land v 15 =? N.shiftr (lo b) 4)) = true.
Proof. revert a b. byte_check. Qed.

Lemma b64_char2 (b c : byte) :
  let v := N.lor (N.shiftl (N.land (lo b) 15) 2) (N.shiftr (lo c) 6) in
  (reads_as v
   && byte_eqb (byte_of_N (N.lor (N.shiftl (N.shiftr (lo b) 4) 4) (N.shiftr v 2))) b
   && (N.land v 3 =? N.shiftr (lo c) 6)) = true.
Proof. revert b c. byte_check. Qed.

Lemma b64_char3 (c : byte) :
  let v := N.land (lo c) 63 in
  (reads_as v
   && byte_eqb (byte_of_N (N.lor (N.shiftl (N.shiftr (lo c) 6) 6) v)) c) = true.
Proof. revert c. byte_check. Qed.

Lemma b64_char1_last (a : byte) :
  let v := N.shiftl (N.land (lo a) 3) 4 in
  (reads_as v
   && byte_eqb (byte_of_N (N.lor (N.shiftl (N.shiftr (lo a) 2) 2) (N.shiftr v 4))) a)
  = true.
Proof. revert a. byte_check. Qed.

Lemma b64_char2_last (b : byte) :
  let v := N.shiftl (N.land (lo b) 15) 2 in
  (reads_as v
   && byte_eqb (byte_of_N (N.lor (N.shiftl (N.shiftr (lo b) 4) 4) (N.shiftr v 2))) b)
  = true.
Proof. revert b. byte_check. Qed.

Lemma a2b_loop_sextet (n : N) (rest : bytes) (quad_pos : nat) (leftchar : N)
    (pads : nat) :
  reads_as n = true ->
  Base64.a2b_loop (sextet_char n :: rest) quad_pos leftchar pads =
  match quad_pos with
  | O => Base64.a2b_loop rest 1 n 0
  | 1%nat =>
      Base64.emit (byte_of_N (N.lor (N.shiftl leftchar 2) (N.shiftr n 4)))
                  (Base64.a2b_loop rest 2 (N.land n 15) 0)
  | 2%nat =>
      Base64.emit (byte_of_N (N.lor (N.shiftl leftchar 4) (N.shiftr n 2)))
                  (Base64.a2b_loop rest 3 (N.land n 3) 0)
  | _ =>
      Base64.emit (byte_of_N (N.lor (N.shiftl leftchar 6) n))
                  (Base64.a2b_loop rest 0 0 0)
  end.
Proof.
  intros [Hpad Hval]%reads_as_spec.
  cbn [Base64.a2b_loop]. now rewrite Hpad, Hval.
Qed.

Lemma a2b_loop_quad (a b c : byte) (rest : bytes) :
  Base64.a2b_loop
    (sextet_char (N.shiftr (lo a) 2)
     :: sextet_char (N.lor (N.shiftl (N.land (lo a) 3) 4) (N.shiftr (lo b) 4))
     :: sextet_char (N.lor (N.shiftl (N.land (lo b) 15) 2) (N.shiftr (lo c) 6))
     :: sextet_char (N.land (lo c) 63) :: rest) 0 0 0 =
  Base64.emit a (Base64.emit b (Base64.emit c (Base64.a2b_loop rest 0 0 0))).
Proof.
  pose proof (b64_char0 a) as H0.
  pose proof (b64_char1 a b) as H1. cbv zeta in H1.
  apply andb_true_iff in H1 as [H1 H1l]. apply N.eqb_eq in H1l.
  apply andb_true_iff in H1 as [H1 H1b]. apply byte_eqb_eq in H1b.
  pose proof (b64_char2 b c) as H2. cbv zeta in H2.
  apply andb_true_iff in H2 as [H2 H2l]. apply N.eqb_eq in H2l.
  apply andb_true_iff in H2 as [H2 H2b]. apply byte_eqb_eq in H2b.
  pose proof (b64_char3 c) as H3. cbv zeta in H3.
  apply andb_true_iff in H3 as [H3 H3b]. apply byte_eqb_eq in H3b.
  rewrite (a2b_loop_sextet _ _ _ _ _ H0).
  rewrite (a2b_loop_sextet _ _ _ _ _ H1), H1b, H1l.
  rewrite (a2b_loop_sextet _ _ _ _ _ H2), H2b, H2l.
  rewrite (a2b_loop_sextet _ _ _ _ _ H3), H3b.
  reflexivity.
Qed.

Lemma a2b_loop_last1 (a : byte) (rest : bytes) :
  Base64.a2b_loop
    (sextet_char (N.shiftr (lo a) 2)
     :: sextet_char (N.shiftl (N.land (lo a) 3) 4)
     :: Base64.BASE64_PAD :: Base64.BASE64_PAD :: rest) 0 0 0 =
  Base64.Decoded [a].
Proof.
  pose proof (b64_char0 a) as H0.
  pose proof (b64_char1_last a) as H1. cbv zeta in H1.
  apply andb_true_iff in H1 as [H1 H1b]. apply byte_eqb_eq in H1b.
  rewrite (a2b_loop_sextet _ _ _ _ _ H0).
  rewrite (a2b_loop_sextet _ _ _ _ _ H1), H1b.
  reflexivity.
Qed.

Lemma a2b_loop_last2 (a b : byte) (rest : bytes) :
  Base64.a2b_loop
    (sextet_char (N.shiftr (lo a) 2)
     :: sextet_char (N.lor (N.shiftl (N.land (lo a) 3) 4) (N.shiftr (lo b) 4))
     :: sextet_char (N.shiftl (N.land (lo b) 15) 2)
     :: Base64.BASE64_PAD :: rest) 0 0 0 =
  Base64.Decoded [a; b].
Proof.
  pose proof (b64_char0 a) as H0.
  pose proof (b64_char1 a b) as H1. cbv zeta in H1.
  apply andb_true_iff in H1 as [H1 H1l]. apply N.eqb_eq in H1l.
  apply andb_true_iff in H1 as [H1 H1b]. apply byte_eqb_eq in H1b.
  pose proof (b64_char2_last b) as H2. cbv zeta in H2.
  apply andb_true_iff in H2 as [H2 H2b]. apply byte_eqb_eq in H2b.
  rewrite (a2b_loop_sextet _ _ _ _ _ H0).
  rewrite (a2b_loop_sextet _ _ _ _ _ H1), H1b, H1l.
  rewrite (a2b_loop_sextet _ _ _ _ _ H2), H2b.
  reflexivity.
Qed.

(** [urlsafe_b64decode(urlsafe_b64encode(bin) + junk) == bin] when the
    encoding ends in padding, and in general without the junk. *)
Lemma urlsafe_b64_roundtrip (bin : bytes) :
  Base64.urlsafe_b64decode (Base64.urlsafe_b64encode bin) = Base64.Decoded bin.
Proof.
  unfold Base64.urlsafe_b64decode, Base64.urlsafe_b64encode, Base64.a2b_base64.
  induction bin as [|a|a b|a b c l IH] using list_ind3.
  - reflexivity.
  - apply a2b_loop_last1.
  - apply a2b_loop_last2.
  - cbn [Base64.b2a_base64 map]. rewrite a2b_loop_quad, IH. reflexivity.
Qed.

(** ** Bit operations as arithmetic *)

Ltac dlia := zify; Z.to_euclidean_division_equations; lia.

Lemma land_small_shifted (a b k : N) : b < 2 ^ k -> N.land (N.shiftl a k) b = 0.
Proof.
  intros Hb. apply N.bits_inj_0. intros n. rewrite N.land_spec.
  destruct (N.lt_ge_cases n k) as [Hn|Hn].
  - now rewrite N.shiftl_spec_low.
  - destruct (N.eq_dec b 0) as [->|Hb0]; [now rewrite N.bits_0, andb_false_r|].
    rewrite (N.bits_above_log2 b n), andb_false_r; [reflexivity|].
    apply N.log2_lt_pow2; [lia|].
    apply N.lt_le_trans with (2 ^ k); [exact Hb|].
    apply N.pow_le_mono_r; lia.
Qed.

Lemma lor_shiftl_add (a b k : N) :
  b < 2 ^ k -> N.lor (N.shiftl a k) b = a * 2 ^ k + b.
Proof.
  intros Hb. rewrite <- N.shiftl_mul_pow2.
  rewrite N.add_nocarry_lxor by now apply land_small_shifted.
  symmetry. apply N.lxor_lor, land_small_shifted, Hb.
Qed.

Lemma land_63 (n : N) : N.land n 0x3f = n mod 64.
Proof. change 0x3f with (N.ones 6). now rewrite N.land_ones. Qed.

Lemma land_31 (n : N) : N.land n 0x1f = n mod 32.
Proof. change 0x1f with (N.ones 5). now rewrite N.land_ones. Qed.

Lemma land_15 (n : N) : N.land n 0x0f = n mod 16.
Proof. change 0x0f with (N.ones 4). now rewrite N.land_ones. Qed.

Lemma land_7 (n : N) : N.land n 0x07 = n mod 8.
Proof. change 0x07 with (N.ones 3). now rewrite N.land_ones. Qed.

(** ** UTF-8: decoding inverts encoding *)

Lemma lor_128 (r : N) : r < 64 -> N.lor 0x80 r = 128 + r.
Proof. exact (lor_shiftl_add 2 r 6). Qed.

Lemma lor_192 (q : N) : q < 32 -> N.lor 0xc0 q = 192 + q.
Proof. exact (lor_shiftl_add 6 q 5). Qed.

Lemma lor_224 (q : N) : q < 16 -> N.lor 0xe0 q = 224 + q.
Proof. exact (lor_shiftl_add 14 q 4). Qed.

Lemma lor_240 (q : N) : q < 8 -> N.lor 0xf0 q = 240 + q.
Proof. exact (lor_shiftl_add 30 q 3). Qed.

Lemma cont_to_N (n : N) : Byte.to_N (Utf8.cont n) = 128 + n mod 64.
Proof.
  unfold Utf8.cont. rewrite to_of_N_byte, land_63, lor_128 by dlia. dlia.
Qed.

Lemma lead2_to_N (q : N) :
  q < 32 -> Byte.to_N (byte_of_N (N.lor 0xc0 q)) = 192 + q.
Proof. intros Hq. rewrite to_of_N_byte, lor_192 by exact Hq. dlia. Qed.

Lemma lead3_to_N (q : N) :
  q < 16 -> Byte.to_N (byte_of_N (N.lor 0xe0 q)) = 224 + q.
Proof. intros Hq. rewrite to_of_N_byte, lor_224 by exact Hq. dlia. Qed.

Lemma lead4_to_N (q : N) :
  q < 8 -> Byte.to_N (byte_of_N (N.lor 0xf0 q)) = 240 + q.
Proof. intros Hq. rewrite to_of_N_byte, lor_240 by exact Hq. dlia. Qed.

Lemma is_cont_128 (r : N) : r < 64 -> Utf8.is_cont (128 + r) = true.
Proof.
  intros Hr. unfold Utf8.is_cont.
  apply andb_true_iff; split; apply N.leb_le; lia.
Qed.

Lemma decode2_spec (q r : N) :
  q < 32 -> r < 64 -> Utf8.decode2 (192 + q) (128 + r) = Some (q * 64 + r).
Proof.
  intros Hq Hr. unfold Utf8.decode2. rewrite is_cont_128 by exact Hr.
  rewrite land_31, land_63.
  replace ((192 + q) mod 32) with q by dlia.
  replace ((128 + r) mod 64) with r by dlia.
  now rewrite lor_shiftl_add by (change (2 ^ 6) with 64; lia).
Qed.

Lemma decode3_spec (q r1 r2 : N) :
  q < 16 -> r1 < 64 -> r2 < 64 ->
  (q = 0 -> 32 <= r1) -> (q = 13 -> r1 < 32) ->
  Utf8.decode3 (224 + q) (128 + r1) (128 + r2) = Some (q * 4096 + r1 * 64 + r2).
Proof.
  intros Hq Hr1 Hr2 Hlow Hsur. unfold Utf8.decode3.
  rewrite !is_cont_128 by assumption.
  assert (E0 : ((224 + q =? 0xe0) && (128 + r1 <? 0xa0)) = false).
  { destruct (N.eqb_spec (224 + q) 0xe0); [|reflexivity].
    apply N.ltb_ge. assert (q = 0) by lia. specialize (Hlow H). lia. }
  assert (Ed : ((224 + q =? 0xed) && (0x9f <? 128 + r1)) = false).
  { destruct (N.eqb_spec (224 + q) 0xed); [|reflexivity].
    apply N.ltb_ge. assert (q = 13) by lia. specialize (Hsur H). lia. }
  rewrite E0, Ed. cbn [andb negb].
  rewrite land_15, !land_63.
  replace ((224 + q) mod 16) with q by dlia.
  replace ((128 + r1) mod 64) with r1 by dlia.
  replace ((128 + r2) mod 64) with r2 by dlia.
  rewrite (lor_shiftl_add r1 r2 6) by (change (2 ^ 6) with 64; lia).
  rewrite lor_shiftl_add by (change (2 ^ 6) with 64; change (2 ^ 12) with 4096; lia).
  f_equal. change (2 ^ 6) with 64. change (2 ^ 12) with 4096. lia.
Qed.

Lemma decode4_spec (q r1 r2 r3 : N) :
  q < 8 -> r1 < 64 -> r2 < 64 -> r3 < 64 ->
  (q = 0 -> 16 <= r1) -> (q = 4 -> r1 < 16) ->
  Utf8.decode4 (240 + q) (128 + r1) (128 + r2) (128 + r3)
  = Some (q * 262144 + r1 * 4096 + r2 * 64 + r3).
Proof.
  intros Hq Hr1 Hr2 Hr3 Hlow Hhigh. unfold Utf8.decode4.
  rewrite !is_cont_128 by assumption.
  assert (E0 : ((240 + q =? 0xf0) && (128 + r1 <? 0x90)) = false).
  { destruct (N.eqb_spec (240 + q) 0xf0); [|reflexivity].
    apply N.ltb_ge. assert (q = 0) by lia. specialize (Hlow H). lia. }
  assert (E4 : ((240 + q =? 0xf4) && (0x8f <? 128 + r1)) = false).
  { destruct (N.eqb_spec (240 + q) 0xf4); [|reflexivity].
    apply N.ltb_ge. assert (q = 4) by lia. specialize (Hhigh H). lia. }
  rewrite E0, E4. cbn [andb negb].
  rewrite land_7, !land_63.
  replace ((240 + q) mod 8) with q by dlia.
  replace ((128 + r1) mod 64) with r1 by dlia.
  replace ((128 + r2) mod 64) with r2 by dlia.
  replace ((128 + r3) mod 64) with r3 by dlia.
  rewrite (lor_shiftl_add r2 r3 6) by (change (2 ^ 6) with 64; lia).
  rewrite (lor_shiftl_add r1 _ 12)
    by (change (2 ^ 6) with 64; change (2 ^ 12) with 4096; lia).
  rewrite lor_shiftl_add
    by (change (2 ^ 6) with 64; change (2 ^ 12) with 4096;
        change (2 ^ 18) with 262144; lia).
  f_equal. change (2 ^ 6) with 64. change (2 ^ 12) with 4096.
  change (2 ^ 18) with 262144. lia.
Qed.

(** A code point the codec accepts: in range and not a surrogate. *)
Lemma decode_encode_char (ch : N) (rest : bytes) :
  ch <= 0x10FFFF -> Utf8.is_surrogate ch = false ->
  Utf8.decode (Utf8.encode_char ch ++ rest)
  = option_map (cons ch) (Utf8.decode rest).
Proof.
  intros Hmax Hsur. unfold Utf8.encode_char.
  unfold Utf8.is_surrogate in Hsur. apply andb_false_iff in Hsur.
  rewrite N.leb_gt, N.leb_gt in Hsur.
  destruct (N.ltb_spec ch 0x80) as [H1|H1].
  { cbn [app Utf8.decode]. rewrite to_of_N_byte.
    replace (ch mod 256) with ch by dlia.
    destruct (N.ltb_spec ch 0x80); [reflexivity|lia]. }
  destruct (N.ltb_spec ch 0x800) as [H2|H2].
  { cbn [app Utf8.decode]. rewrite N.shiftr_div_pow2. change (2 ^ 6) with 64.
    rewrite lead2_to_N, cont_to_N by dlia.
    destruct (N.ltb_spec (192 + ch / 64) 0x80); [dlia|].
    destruct (N.ltb_spec (192 + ch / 64) 0xc2); [dlia|].
    destruct (N.ltb_spec (192 + ch / 64) 0xe0); [|dlia].
    rewrite decode2_spec by dlia.
    replace (ch / 64 * 64 + ch mod 64) with ch by dlia. reflexivity. }
  destruct (N.ltb_spec ch 0x10000) as [H3|H3].
  { cbn [app Utf8.decode]. rewrite !N.shiftr_div_pow2.
    change (2 ^ 6) with 64. change (2 ^ 12) with 4096.
    rewrite lead3_to_N, !cont_to_N by dlia.
    destruct (N.ltb_spec (224 + ch / 4096) 0x80); [dlia|].
    destruct (N.ltb_spec (224 + ch / 4096) 0xc2); [dlia|].
    destruct (N.ltb_spec (224 + ch / 4096) 0xe0); [dlia|].
    destruct (N.ltb_spec (224 + ch / 4096) 0xf0); [|dlia].
    rewrite decode3_spec by dlia.
    replace (ch / 4096 * 4096 + ch / 64 mod 64 * 64 + ch mod 64) with ch by dlia.
    reflexivity. }
  cbn [app Utf8.decode]. rewrite !N.shiftr_div_pow2.
  change (2 ^ 6) with 64. change (2 ^ 12) with 4096. change (2 ^ 18) with 262144.
  rewrite lead4_to_N, !cont_to_N by dlia.
  destruct (N.ltb_spec (240 + ch / 262144) 0x80); [dlia|].
  destruct (N.ltb_spec (240 + ch / 262144) 0xc2); [dlia|].
  destruct (N.ltb_spec (240 + ch / 262144) 0xe0); [dlia|].
  destruct (N.ltb_spec (240 + ch / 262144) 0xf0); [dlia|].
  destruct (N.ltb_spec (240 + ch / 262144) 0xf5); [|dlia].
  rewrite decode4_spec by dlia.
  replace (ch / 262144 * 262144 + ch / 4096 mod 64 * 4096
           + ch / 64 mod 64 * 64 + ch mod 64) with ch by dlia.
  reflexivity.
Qed.

Lemma encode_from_scalar (s : pystr) (pos : nat) :
  Utf8.encodable s = true ->
  Utf8.encode_from s pos = Utf8.Encoded (flat_map Utf8.encode_char s).
Proof.
  revert pos. induction s as [|ch s IH]; intros pos Hs; [reflexivity|].
  cbn [Utf8.encodable forallb] in Hs. apply andb_true_iff in Hs as [Hch Hs].
  unfold Utf8.is_scalar in Hch. apply andb_true_iff in Hch as [_ Hsur].
  apply negb_true_iff in Hsur.
  cbn [Utf8.encode_from flat_map]. now rewrite Hsur, IH.
Qed.

Lemma decode_encode_scalar (s : pystr) :
  Utf8.encodable s = true ->
  Utf8.decode (flat_map Utf8.encode_char s) = Some s.
Proof.
  induction s as [|ch s IH]; intros Hs; [reflexivity|].
  cbn [Utf8.encodable forallb] in Hs. apply andb_true_iff in Hs as [Hch Hs].
  unfold Utf8.is_scalar in Hch. apply andb_true_iff in Hch as [Hmax Hsur].
  apply negb_true_iff in Hsur. apply N.leb_le in Hmax.
  cbn [flat_map]. rewrite decode_encode_char, IH by assumption. reflexivity.
Qed.

(** [s.encode().decode() == s] for every [s] the encoder accepts. *)
Lemma str_encode_decode (s : pystr) :
  Utf8.encodable s = true ->
  exists b, str_encode s = Ok b /\ bytes_decode b = Ok s.
Proof.
  intros Hs. exists (flat_map Utf8.encode_char s).
  unfold str_encode, bytes_decode, Utf8.encode.
  now rewrite encode_from_scalar, decode_encode_scalar.
Qed.

(** The encoder fails exactly on surrogates. *)
Lemma encode_from_surrogate (s : pystr) (pos : nat) :
  forallb (fun ch => negb (Utf8.is_surrogate ch)) s = false ->
  exists start stop, Utf8.encode_from s pos = Utf8.SurrogatesNotAllowed start stop.
Proof.
  revert pos. induction s as [|ch s IH]; intros pos Hs; [discriminate|].
  cbn [forallb] in Hs. cbn [Utf8.encode_from].
  destruct (Utf8.is_surrogate ch); [eauto|].
  cbn [negb andb] in Hs. destruct (IH (S pos) Hs) as (start & stop & ->). eauto.
Qed.

(** ASCII text and ASCII bytes are the same sequence of numbers. *)
Lemma decode_ascii (b : bytes) :
  forallb Utf8.is_ascii b = true -> Utf8.decode b = Some (map Byte.to_N b).
Proof.
  induction b as [|c b IH]; intros Hb; [reflexivity|].
  cbn [forallb] in Hb. apply andb_true_iff in Hb as [Hc Hb].
  unfold Utf8.is_ascii in Hc. cbn [Utf8.decode map]. now rewrite Hc, IH.
Qed.

Lemma encode_ascii (b : bytes) (pos : nat) :
  forallb Utf8.is_ascii b = true ->
  Utf8.encode_from (map Byte.to_N b) pos = Utf8.Encoded b.
Proof.
  revert pos. induction b as [|c b IH]; intros pos Hb; [reflexivity|].
  cbn [forallb] in Hb. apply andb_true_iff in Hb as [Hc Hb].
  unfold Utf8.is_ascii in Hc. cbn [Utf8.encode_from map].
  assert (Hs : Utf8.is_surrogate (Byte.to_N c) = false).
  { unfold Utf8.is_surrogate. apply N.ltb_lt in Hc.
    apply andb_false_iff. left. apply N.leb_gt. lia. }
  rewrite Hs, IH by exact Hb. unfold Utf8.encode_char.
  now rewrite Hc, byte_of_to_N.
Qed.

Lemma bytes_decode_ascii (b : bytes) :
  forallb Utf8.is_ascii b = true -> bytes_decode b = Ok (map Byte.to_N b).
Proof. intros Hb. unfold bytes_decode. now rewrite decode_ascii. Qed.

Lemma str_encode_ascii (b : bytes) :
  forallb Utf8.is_ascii b = true -> str_encode (map Byte.to_N b) = Ok b.
Proof. intros Hb. unfold str_encode, Utf8.encode. now rewrite encode_ascii. Qed.

Lemma b2a_ascii (n : N) :
  Utf8.is_ascii (Base64._urlsafe_encode_translation (Base64.b2a n)) = true.
Proof.
  assert (H : forallb (fun c => Utf8.is_ascii (Base64._urlsafe_encode_translation c))
                (Base64.BASE64_PAD :: Base64.table_b2a_base64) = true)
    by (vm_compute; reflexivity).
  rewrite forallb_forall in H. apply H. unfold Base64.b2a.
  destruct (nth_in_or_default (N.to_nat n) Base64.table_b2a_base64 Base64.BASE64_PAD)
    as [Hin| ->]; [now right | now left].
Qed.

Lemma urlsafe_b64encode_ascii (bin : bytes) :
  forallb Utf8.is_ascii (Base64.urlsafe_b64encode bin) = true.
Proof.
  unfold Base64.urlsafe_b64encode.
  induction bin as [|a|a b|a b c l IH] using list_ind3;
    cbn [Base64.b2a_base64 map forallb]; rewrite ?b2a_ascii, ?IH; reflexivity.
Qed.

(** ** Exclusive or on bytes *)

Lemma to_N_inj (a b : byte) : Byte.to_N a = Byte.to_N b -> a = b.
Proof.
  intros H. rewrite <- (byte_of_to_N a), <- (byte_of_to_N b). now rewrite H.
Qed.

Lemma lxor_lt_256 (a b : N) : a < 256 -> b < 256 -> N.lxor a b < 256.
Proof.
  intros Ha Hb.
  destruct (N.eq_dec (N.lxor a b) 0) as [->|Hne]; [lia|].
  apply (N.log2_lt_pow2 _ 8); [lia|].
  eapply N.le_lt_trans; [apply N.log2_lxor|].
  apply N.max_lub_lt.
  - destruct (N.eq_dec a 0) as [->|]; [reflexivity|]. apply N.log2_lt_pow2; lia.
  - destruct (N.eq_dec b 0) as [->|]; [reflexivity|]. apply N.log2_lt_pow2; lia.
Qed.

Lemma bxor_to_N (a b : byte) :
  Byte.to_N (bxor a b) = N.lxor (Byte.to_N a) (Byte.to_N b).
Proof.
  unfold bxor. rewrite to_of_N_byte. apply N.mod_small.
  apply lxor_lt_256; apply to_N_lt_256.
Qed.

Lemma bxor_comm (a b : byte) : bxor a b = bxor b a.
Proof. apply to_N_inj. rewrite !bxor_to_N. apply N.lxor_comm. Qed.

Lemma bxor_assoc (a b c : byte) : bxor (bxor a b) c = bxor a (bxor b c).
Proof. apply to_N_inj. rewrite !bxor_to_N. apply N.lxor_assoc. Qed.

Lemma bxor_nilpotent (a : byte) : bxor a a = x00.
Proof. apply to_N_inj. rewrite bxor_to_N. apply N.lxor_nilpotent. Qed.

Lemma bxor_0_r (a : byte) : bxor a x00 = a.
Proof. apply to_N_inj. rewrite bxor_to_N. apply N.lxor_0_r. Qed.

Lemma bxor_0_l (a : byte) : bxor x00 a = a.
Proof. rewrite bxor_comm. apply bxor_0_r. Qed.

Lemma bxor_cancel_r (a b : byte) : bxor (bxor a b) b = a.
Proof. now rewrite bxor_assoc, bxor_nilpotent, bxor_0_r. Qed.

Lemma bxor_interchange (p p' q q' : byte) :
  bxor (bxor p p') (bxor q q') = bxor (bxor p q) (bxor p' q').
Proof.
  rewrite !bxor_assoc. f_equal.
  rewrite <- !bxor_assoc. f_equal. apply bxor_comm.
Qed.

Lemma xor4_interchange (p p' q q' r r' s s' : byte) :
  Aes.xor4 (bxor p p') (bxor q q') (bxor r r') (bxor s s')
  = bxor (Aes.xor4 p q r s) (Aes.xor4 p' q' r' s').
Proof.
  unfold Aes.xor4.
  rewrite (bxor_interchange p p' q q').
  rewrite (bxor_interchange (bxor p q) (bxor p' q') r r').
  apply bxor_interchange.
Qed.

(** ** AES: the inverse cipher inverts the cipher *)

Lemma inv_sub_byte_sub_byte (b : byte) : Aes.inv_sub_byte (Aes.sub_byte b) = b.
Proof.
  apply byte_eqb_eq. revert b. byte_check.
Qed.

Lemma xtime_linear (a b : byte) :
  Aes.xtime (bxor a b) = bxor (Aes.xtime a) (Aes.xtime b).
Proof.
  apply byte_eqb_eq. revert a b. byte_check.
Qed.

Lemma mul2_linear (a b : byte) : Aes.mul2 (bxor a b) = bxor (Aes.mul2 a) (Aes.mul2 b).
Proof. apply xtime_linear. Qed.

Lemma mul4_linear (a b : byte) : Aes.mul4 (bxor a b) = bxor (Aes.mul4 a) (Aes.mul4 b).
Proof. unfold Aes.mul4. now rewrite !xtime_linear. Qed.

Lemma mul8_linear (a b : byte) : Aes.mul8 (bxor a b) = bxor (Aes.mul8 a) (Aes.mul8 b).
Proof. unfold Aes.mul8. now rewrite mul4_linear, xtime_linear. Qed.

Lemma mul3_linear (a b : byte) : Aes.mul3 (bxor a b) = bxor (Aes.mul3 a) (Aes.mul3 b).
Proof. unfold Aes.mul3. rewrite xtime_linear. apply bxor_interchange. Qed.

Lemma mul9_linear (a b : byte) : Aes.mul9 (bxor a b) = bxor (Aes.mul9 a) (Aes.mul9 b).
Proof. unfold Aes.mul9. rewrite mul8_linear. apply bxor_interchange. Qed.

Lemma mul11_linear (a b : byte) :
  Aes.mul11 (bxor a b) = bxor (Aes.mul11 a) (Aes.mul11 b).
Proof.
  unfold Aes.mul11. rewrite mul8_linear, mul2_linear.
  rewrite (bxor_interchange (Aes.mul8 a) (Aes.mul8 b) (Aes.mul2 a) (Aes.mul2 b)).
  apply bxor_interchange.
Qed.

Lemma mul13_linear (a b : byte) :
  Aes.mul13 (bxor a b) = bxor (Aes.mul13 a) (Aes.mul13 b).
Proof.
  unfold Aes.mul13. rewrite mul8_linear, mul4_linear.
  rewrite (bxor_interchange (Aes.mul8 a) (Aes.mul8 b) (Aes.mul4 a) (Aes.mul4 b)).
  apply bxor_interchange.
Qed.

Lemma mul14_linear (a b : byte) :
  Aes.mul14 (bxor a b) = bxor (Aes.mul14 a) (Aes.mul14 b).
Proof.
  unfold Aes.mul14. rewrite mul8_linear, mul4_linear, mul2_linear.
  rewrite (bxor_interchange (Aes.mul8 a) (Aes.mul8 b) (Aes.mul4 a) (Aes.mul4 b)).
  apply bxor_interchange.
Qed.

Local Abbreviation cxor := Aes.xor_column.

Lemma mix_column_linear (x y : Aes.column) :
  Aes.mix_column (cxor x y) = cxor (Aes.mix_column x) (Aes.mix_column y).
Proof.
  destruct x as [[[x0 x1] x2] x3], y as [[[y0 y1] y2] y3].
  cbn [Aes.mix_column Aes.xor_column].
  rewrite !mul2_linear, !mul3_linear, !xor4_interchange. reflexivity.
Qed.

Lemma inv_mix_column_linear (x y : Aes.column) :
  Aes.inv_mix_column (cxor x y)
  = cxor (Aes.inv_mix_column x) (Aes.inv_mix_column y).
Proof.
  destruct x as [[[x0 x1] x2] x3], y as [[[y0 y1] y2] y3].
  cbn [Aes.inv_mix_column Aes.xor_column].
  rewrite !mul9_linear, !mul11_linear, !mul13_linear, !mul14_linear,
    !xor4_interchange.
  reflexivity.
Qed.

Lemma column_eqb_eq (x y : Aes.column) : Aes.column_eqb x y = true -> x = y.
Proof.
  destruct x as [[[x0 x1] x2] x3], y as [[[y0 y1] y2] y3]. cbn [Aes.column_eqb].
  rewrite !andb_true_iff, !byte_eqb_eq. intros [[[-> ->] ->] ->]. reflexivity.
Qed.

Lemma inv_mix_column_unit0 (a : byte) :
  Aes.inv_mix_column (Aes.mix_column (a, x00, x00, x00)) = (a, x00, x00, x00).
Proof. apply column_eqb_eq. revert a. byte_check. Qed.

Lemma inv_mix_column_unit1 (a : byte) :
  Aes.inv_mix_column (Aes.mix_column (x00, a, x00, x00)) = (x00, a, x00, x00).
Proof. apply column_eqb_eq. revert a. byte_check. Qed.

Lemma inv_mix_column_unit2 (a : byte) :
  Aes.inv_mix_column (Aes.mix_column (x00, x00, a, x00)) = (x00, x00, a, x00).
Proof. apply column_eqb_eq. revert a. byte_check. Qed.

Lemma inv_mix_column_unit3 (a : byte) :
  Aes.inv_mix_column (Aes.mix_column (x00, x00, x00, a)) = (x00, x00, x00, a).
Proof. apply column_eqb_eq. revert a. byte_check. Qed.

Lemma column_basis (a0 a1 a2 a3 : byte) :
  (a0, a1, a2, a3)
  = cxor (cxor (cxor (a0, x00, x00, x00) (x00, a1, x00, x00))
                (x00, x00, a2, x00)) (x00, x00, x00, a3).
Proof. cbn [Aes.xor_column]. now rewrite !bxor_0_r, !bxor_0_l. Qed.

Lemma inv_mix_column_mix_column (c : Aes.column) :
  Aes.inv_mix_column (Aes.mix_column c) = c.
Proof.
  destruct c as [[[a0 a1] a2] a3].
  rewrite (column_basis a0 a1 a2 a3) at 1.
  rewrite !mix_column_linear, !inv_mix_column_linear.
  rewrite inv_mix_column_unit0, inv_mix_column_unit1, inv_mix_column_unit2,
    inv_mix_column_unit3.
  symmetry. apply column_basis.
Qed.

Lemma inv_mix_columns_mix_columns (s : Aes.block) :
  Aes.inv_mix_columns (Aes.mix_columns s) = s.
Proof.
  destruct s as [b0 b1 b2 b3 b4 b5 b6 b7 b8 b9 b10 b11 b12 b13 b14 b15].
  unfold Aes.inv_mix_columns, Aes.mix_columns. cbn [Aes.map_columns].
  pose proof (inv_mix_column_mix_column (b0, b1, b2, b3)) as H0.
  pose proof (inv_mix_column_mix_column (b4, b5, b6, b7)) as H1.
  pose proof (inv_mix_column_mix_column (b8, b9, b10, b11)) as H2.
  pose proof (inv_mix_column_mix_column (b12, b13, b14, b15)) as H3.
  destruct (Aes.mix_column (b0, b1, b2, b3)) as [[[c0 c1] c2] c3].
  destruct (Aes.mix_column (b4, b5, b6, b7)) as [[[c4 c5] c6] c7].
  destruct (Aes.mix_column (b8, b9, b10, b11)) as [[[c8 c9] c10] c11].
  destruct (Aes.mix_column (b12, b13, b14, b15)) as [[[c12 c13] c14] c15].
  cbn [Aes.map_columns]. now rewrite H0, H1, H2, H3.
Qed.

Lemma inv_shift_rows_shift_rows (s : Aes.block) :
  Aes.inv_shift_rows (Aes.shift_rows s) = s.
Proof. now destruct s. Qed.

Lemma inv_sub_bytes_sub_bytes (s : Aes.block) :
  Aes.inv_sub_bytes (Aes.sub_bytes s) = s.
Proof.
  destruct s. unfold Aes.inv_sub_bytes, Aes.sub_bytes. cbn [Aes.map_block].
  now rewrite !inv_sub_byte_sub_byte.
Qed.

Lemma xor_block_cancel (s k : Aes.block) :
  Aes.xor_block (Aes.xor_block s k) k = s.
Proof.
  destruct s, k. cbn [Aes.xor_block]. now rewrite !bxor_cancel_r.
Qed.

Lemma inv_round_round (k s : Aes.block) : Aes.inv_round k (Aes.round k s) = s.
Proof.
  unfold Aes.inv_round, Aes.round, Aes.add_round_key.
  now rewrite xor_block_cancel, inv_mix_columns_mix_columns,
    inv_shift_rows_shift_rows, inv_sub_bytes_sub_bytes.
Qed.

Lemma inv_final_round_final_round (k s : Aes.block) :
  Aes.inv_final_round k (Aes.final_round k s) = s.
Proof.
  unfold Aes.inv_final_round, Aes.final_round, Aes.add_round_key.
  now rewrite xor_block_cancel, inv_shift_rows_shift_rows, inv_sub_bytes_sub_bytes.
Qed.

Lemma inv_cipher_rounds_cipher_rounds (ks : list Aes.block) (s : Aes.block) :
  Aes.inv_cipher_rounds ks (Aes.cipher_rounds ks s) = s.
Proof.
  revert s. induction ks as [|k ks IH]; intros s; [reflexivity|].
  destruct ks as [|k' ks].
  - apply inv_final_round_final_round.
  - change (Aes.inv_round k
              (Aes.inv_cipher_rounds (k' :: ks)
                 (Aes.cipher_rounds (k' :: ks) (Aes.round k s))) = s).
    now rewrite IH, inv_round_round.
Qed.

(** InvCipher inverts Cipher, for every key schedule. *)
Lemma inv_cipher_cipher (ks : list Aes.block) (s : Aes.block) :
  Aes.inv_cipher ks (Aes.cipher ks s) = s.
Proof.
  destruct ks as [|k0 ks]; [reflexivity|].
  unfold Aes.inv_cipher, Aes.cipher, Aes.add_round_key.
  now rewrite inv_cipher_rounds_cipher_rounds, xor_block_cancel.
Qed.

Lemma cbc_decrypt_encrypt (ks : list Aes.block) (iv : Aes.block)
    (pt : list Aes.block) :
  Aes.cbc_decrypt ks iv (Aes.cbc_encrypt ks iv pt) = pt.
Proof.
  revert iv. induction pt as [|p pt IH]; intros iv; [reflexivity|].
  cbn [Aes.cbc_encrypt Aes.cbc_decrypt].
  now rewrite inv_cipher_cipher, xor_block_cancel, IH.
Qed.

Lemma length_bytes_of_block (s : Aes.block) : length (Aes.bytes_of_block s) = 16%nat.
Proof. now destruct s. Qed.

Lemma block_of_bytes_of_block (s : Aes.block) :
  Aes.block_of_bytes (Aes.bytes_of_block s) = Some s.
Proof. now destruct s. Qed.

Lemma blocks_of_bytes_app (s : Aes.block) (rest : bytes) :
  Aes.blocks_of_bytes (Aes.bytes_of_block s ++ rest)
  = option_map (cons s) (Aes.blocks_of_bytes rest).
Proof. now destruct s. Qed.

Lemma blocks_of_bytes_of_blocks (l : list Aes.block) :
  Aes.blocks_of_bytes (Aes.bytes_of_blocks l) = Some l.
Proof.
  induction l as [|s l IH]; [reflexivity|].
  unfold Aes.bytes_of_blocks in *. cbn [flat_map].
  now rewrite blocks_of_bytes_app, IH.
Qed.

Lemma length_bytes_of_blocks (l : list Aes.block) :
  length (Aes.bytes_of_blocks l) = (16 * length l)%nat.
Proof.
  induction l as [|s l IH]; [reflexivity|].
  unfold Aes.bytes_of_blocks in *. cbn [flat_map].
  rewrite length_app, length_bytes_of_block, IH. cbn [length]. lia.
Qed.

(** Sixteen bytes and the rest, for an input of at least sixteen. *)
Lemma split16 (l : bytes) :
  (16 <= length l)%nat ->
  exists s rest, l = Aes.bytes_of_block s ++ rest /\ length rest = (length l - 16)%nat.
Proof.
  intros H.
  do 16 (destruct l as [|? l]; [cbn [length] in H; lia|]).
  eexists (Aes.Block _ _ _ _ _ _ _ _ _ _ _ _ _ _ _ _), l. split; [reflexivity|].
  cbn [length]. lia.
Qed.

Lemma block_of_bytes_length (l : bytes) :
  length l = 16%nat -> exists s, l = Aes.bytes_of_block s.
Proof.
  intros H. destruct (split16 l) as (s & rest & -> & Hr); [lia|].
  rewrite H in Hr. destruct rest; [|discriminate].
  exists s. now rewrite app_nil_r.
Qed.

Lemma blocks_of_bytes_multiple (n : nat) (l : bytes) :
  length l = (16 * n)%nat -> exists bs, l = Aes.bytes_of_blocks bs.
Proof.
  revert l. induction n as [|n IH]; intros l H.
  - destruct l; [|discriminate]. now exists [].
  - destruct (split16 l) as (s & rest & -> & Hr); [lia|].
    destruct (IH rest) as (bs & ->); [lia|]. now exists (s :: bs).
Qed.

(** ** PKCS7: unpadding inverts padding *)

Lemma rev_repeat {A} (x : A) (n : nat) : rev (repeat x n) = repeat x n.
Proof.
  induction n as [|n IH]; [reflexivity|].
  cbn [repeat rev]. rewrite IH. symmetry. apply repeat_cons.
Qed.

Lemma forallb_repeat {A} (f : A -> bool) (x : A) (n : nat) :
  f x = true -> forallb f (repeat x n) = true.
Proof. intros H. induction n; cbn [repeat forallb]; [reflexivity|now rewrite H]. Qed.

Lemma pad_length (data : bytes) :
  exists n, length (Pkcs7.pad data) = (16 * n)%nat.
Proof.
  unfold Pkcs7.pad. rewrite length_app, repeat_length.
  exists (S (length data / 16))%nat.
  pose proof (Nat.div_mod_eq (length data) 16).
  pose proof (Nat.mod_upper_bound (length data) 16). lia.
Qed.

Lemma unpad_pad (data : bytes) : Pkcs7.unpad (Pkcs7.pad data) = Some data.
Proof.
  destruct (pad_length data) as [k Hk].
  unfold Pkcs7.unpad. rewrite Hk.
  unfold Pkcs7.pad in *.
  pose proof (Nat.mod_upper_bound (length data) 16 ltac:(lia)) as Hm.
  set (n := (16 - length data mod 16)%nat) in *.
  assert (Hn : (1 <= n <= 16)%nat) by (subst n; lia).
  rewrite rev_app_distr, rev_repeat.
  destruct n as [|n'] eqn:En; [lia|]. cbn [repeat app].
  assert (Hsz : N.to_nat (Byte.to_N (byte_of_N (N.of_nat (S n')))) = S n').
  { rewrite to_of_N_byte, N.mod_small by lia. apply Nat2N.id. }
  rewrite Hsz.
  replace (16 * k mod 16)%nat with 0%nat
    by (symmetry; rewrite Nat.mul_comm; apply Nat.Div0.mod_mul).
  rewrite length_app, repeat_length in Hk.
  replace (16 * k - S n')%nat with (length data) by (cbn [length] in Hk; lia).
  rewrite skipn_app, skipn_all, Nat.sub_diag, firstn_app, firstn_all, Nat.sub_diag.
  cbn [skipn firstn app]. rewrite app_nil_r.
  change (byte_of_N (N.of_nat (S n')) :: repeat (byte_of_N (N.of_nat (S n'))) n')
    with (repeat (byte_of_N (N.of_nat (S n'))) (S n')).
  rewrite forallb_repeat by apply byte_eqb_refl.
  destruct (Nat.leb_spec 1 (S n')); [|lia].
  destruct (Nat.leb_spec (S n') 16); [|lia].
  reflexivity.
Qed.

(** ** HMAC-SHA256 tags have 32 bytes *)

Lemma length_bytes_of_word (w : N) : length (Sha256.bytes_of_word w) = 4%nat.
Proof. reflexivity. Qed.

Lemma length_sha256 (msg : bytes) : length (Sha256.sha256 msg) = 32%nat.
Proof.
  unfold Sha256.sha256, Sha256.digest.
  rewrite !length_app, !length_bytes_of_word. reflexivity.
Qed.

Lemma length_hmac_sha256 (key msg : bytes) : length (hmac_sha256 key msg) = 32%nat.
Proof. apply length_sha256. Qed.

(** ** Fernet: a token decrypts to what was encrypted *)

Lemma firstn_exact {A} (a b : list A) (n : nat) :
  n = length a -> firstn n (a ++ b) = a.
Proof.
  intros ->. rewrite firstn_app, firstn_all, Nat.sub_diag. cbn [firstn].
  apply app_nil_r.
Qed.

Lemma skipn_exact {A} (a b : list A) (n : nat) :
  n = length a -> skipn n (a ++ b) = b.
Proof.
  intros ->. rewrite skipn_app, skipn_all, Nat.sub_diag. reflexivity.
Qed.

Lemma bytes_eqb_refl (a : bytes) : bytes_eqb a a = true.
Proof.
  unfold bytes_eqb. rewrite Nat.eqb_refl. cbn [andb].
  induction a as [|x a IH]; [reflexivity|].
  cbn [combine forallb fst snd]. now rewrite byte_eqb_refl.
Qed.


Lemma length_to_bytes8 (n : N) : length (to_bytes8 n) = 8%nat.
Proof. reflexivity. Qed.

(** The bytes under the base64 layer of a token: header, IV, ciphertext
    and tag. *)
Lemma encrypt_from_parts_spec (f : Fernet) (data : bytes) (current_time : N)
    (iv : bytes) :
  length iv = 16%nat ->
  exists ct : list Aes.block,
    let basic_parts :=
      x80 :: to_bytes8 current_time ++ iv ++ Aes.bytes_of_blocks ct in
    _encrypt_from_parts f data current_time iv
    = Ok (Base64.urlsafe_b64encode
            (basic_parts ++ hmac_sha256 (_signing_key f) basic_parts))
    /\ aes_cbc_decrypt (_encryption_key f) iv (Aes.bytes_of_blocks ct)
       = Ok (Pkcs7.pad data).
Proof.
  intros Hiv.
  destruct (block_of_bytes_length iv Hiv) as [iv0 ->].
  destruct (pad_length data) as [n Hn].
  destruct (blocks_of_bytes_multiple n _ Hn) as [pt Hpt].
  exists (Aes.cbc_encrypt (Aes.key_expansion (_encryption_key f)) iv0 pt).
  cbv zeta. unfold _encrypt_from_parts, aes_cbc_encrypt, aes_cbc_decrypt.
  rewrite block_of_bytes_of_block, Hpt, !blocks_of_bytes_of_blocks.
  cbn [rbind]. split; [reflexivity|].
  now rewrite cbc_decrypt_encrypt.
Qed.

Lemma decrypt_data_spec (f : Fernet) (current_time : N) (iv padded : bytes)
    (ct : list Aes.block) (plain : bytes) :
  length iv = 16%nat ->
  aes_cbc_decrypt (_encryption_key f) iv (Aes.bytes_of_blocks ct) = Ok padded ->
  Pkcs7.unpad padded = Some plain ->
  let basic_parts :=
    x80 :: to_bytes8 current_time ++ iv ++ Aes.bytes_of_blocks ct in
  Fernet_decrypt_pure f
    (Base64.urlsafe_b64encode
       (basic_parts ++ hmac_sha256 (_signing_key f) basic_parts))
  = Ok plain.
Proof.
  intros Hiv Hdec Hunpad basic_parts.
  unfold Fernet_decrypt_pure, _get_unverified_token_data.
  rewrite urlsafe_b64_roundtrip.
  set (tag := hmac_sha256 (_signing_key f) basic_parts).
  assert (Htag : length tag = 32%nat) by apply length_hmac_sha256.
  assert (Hlen : length (basic_parts ++ tag)
                 = (25 + length (Aes.bytes_of_blocks ct) + 32)%nat).
  { subst basic_parts. cbn [length app].
    rewrite !length_app, length_to_bytes8, Hiv, Htag. lia. }
  assert (Hsplit : (length (basic_parts ++ tag) - 32)%nat = length basic_parts).
  { rewrite length_app, Htag. lia. }
  change (basic_parts ++ tag) with (x80 :: (to_bytes8 current_time ++ iv
            ++ Aes.bytes_of_blocks ct) ++ tag) at 1.
  cbn [byte_eqb negb]. rewrite byte_eqb_refl. cbn [negb].
  destruct (Nat.ltb_spec (length (basic_parts ++ tag)) 9) as [Hlt|_]; [lia|].
  cbn [rbind]. unfold _decrypt_data, _verify_signature, signature_ok.
  rewrite Hsplit, firstn_exact, skipn_exact by reflexivity.
  fold tag. rewrite bytes_eqb_refl. cbn [rbind].
  assert (Hskip9 : skipn 9 (basic_parts ++ tag)
                   = iv ++ Aes.bytes_of_blocks ct ++ tag).
  { subst basic_parts.
    change (x80 :: to_bytes8 current_time ++ iv ++ Aes.bytes_of_blocks ct)
      with ((x80 :: to_bytes8 current_time) ++ iv ++ Aes.bytes_of_blocks ct).
    rewrite <- !app_assoc. now apply skipn_exact. }
  assert (Hskip25 : skipn 25 (basic_parts ++ tag) = Aes.bytes_of_blocks ct ++ tag).
  { subst basic_parts.
    change (x80 :: to_bytes8 current_time ++ iv ++ Aes.bytes_of_blocks ct)
      with ((x80 :: to_bytes8 current_time) ++ iv ++ Aes.bytes_of_blocks ct).
    rewrite !app_assoc, <- (app_assoc _ (Aes.bytes_of_blocks ct) tag).
    apply skipn_exact. rewrite length_app, Hiv. reflexivity. }
  rewrite Hskip9, Hskip25, firstn_exact by (symmetry; exact Hiv).
  rewrite firstn_exact by lia.
  destruct (block_of_bytes_length iv Hiv) as [iv0 Heq].
  rewrite Heq at 1. rewrite block_of_bytes_of_block.
  now rewrite Hdec, Hunpad.
Qed.

Lemma fernet_roundtrip (f : Fernet) (data : bytes) (current_time : N)
    (iv : bytes) :
  length iv = 16%nat ->
  exists token,
    _encrypt_from_parts f data current_time iv = Ok token
    /\ Fernet_decrypt_pure f token = Ok data.
Proof.
  intros Hiv.
  destruct (encrypt_from_parts_spec f data current_time iv Hiv) as (ct & Henc & Hdec).
  cbv zeta in Henc. eexists. split; [exact Henc|].
  apply (decrypt_data_spec f current_time iv (Pkcs7.pad data) ct data Hiv Hdec).
  apply unpad_pad.
Qed.

(** ** [_get_fernet] *)

Lemma get_fernet_cached (w : world) (f : Fernet) :
  _fernet_instance w = Some f -> _get_fernet w = (Ok (Some f), w).
Proof.
  intros H. unfold _get_fernet, bind, read_fernet_instance, ret.
  rewrite H. now rewrite H.
Qed.

Lemma get_fernet_missing (w : world) :
  _fernet_instance w = None ->
  environ w !! APP_MASTER_KEY = None \/ environ w !! APP_MASTER_KEY = Some [] ->
  _get_fernet w
  = (Raise missing_master_key, set_trace (Getenv APP_MASTER_KEY :: trace w) w).
Proof.
  intros Hi Hk.
  unfold _get_fernet, bind, read_fernet_instance, os_getenv, bind, log, raise.
  rewrite Hi. cbn [environ set_trace].
  change "APP_MASTER_KEY"%string with APP_MASTER_KEY.
  now destruct Hk as [-> | ->].
Qed.

Lemma get_fernet_unencodable (w : world) (key : pystr) (e : exn) :
  _fernet_instance w = None ->
  environ w !! APP_MASTER_KEY = Some key -> key <> [] ->
  str_encode key = Raise e ->
  _get_fernet w
  = (Raise (invalid_master_key e), set_trace (Getenv APP_MASTER_KEY :: trace w) w).
Proof.
  intros Hi Hk Hne He.
  unfold _get_fernet, bind, read_fernet_instance, os_getenv, bind, log.
  rewrite Hi. cbn [environ set_trace].
  change "APP_MASTER_KEY"%string with APP_MASTER_KEY. rewrite Hk.
  destruct key as [|c key]; [congruence|].
  unfold try_except, bind, lift. rewrite He.
  unfold str_encode in He. destruct (Utf8.encode (c :: key)); [discriminate|].
  injection He as <-. reflexivity.
Qed.

Lemma get_fernet_rejected (w : world) (key : pystr) (b : bytes) (e : exn) :
  _fernet_instance w = None ->
  environ w !! APP_MASTER_KEY = Some key -> key <> [] ->
  str_encode key = Ok b -> Fernet_init b = Raise e ->
  _get_fernet w
  = (Raise (invalid_master_key e),
     set_trace (FernetNew :: Getenv APP_MASTER_KEY :: trace w) w).
Proof.
  intros Hi Hk Hne He Hf.
  unfold _get_fernet, bind, read_fernet_instance, os_getenv, bind, log.
  rewrite Hi. cbn [environ set_trace].
  change "APP_MASTER_KEY"%string with APP_MASTER_KEY. rewrite Hk.
  destruct key as [|c key]; [congruence|].
  unfold try_except, bind, lift, Fernet_new, bind, log, lift. rewrite He, Hf.
  cbn [set_trace trace].
  unfold Fernet_init in Hf.
  destruct (Base64.urlsafe_b64decode b) as [raw|];
    [destruct (negb _); [|destruct (Aes.block_of_bytes _)]|];
    try discriminate; injection Hf as <-; reflexivity.
Qed.

Lemma get_fernet_init (w : world) (key : pystr) (b : bytes) (f : Fernet) :
  _fernet_instance w = None ->
  environ w !! APP_MASTER_KEY = Some key -> key <> [] ->
  str_encode key = Ok b -> Fernet_init b = Ok f ->
  _get_fernet w
  = (Ok (Some f),
     set_fernet_instance (Some f)
       (set_trace (FernetNew :: Getenv APP_MASTER_KEY :: trace w) w)).
Proof.
  intros Hi Hk Hne He Hf.
  unfold _get_fernet, bind, read_fernet_instance, os_getenv, bind, log.
  rewrite Hi. cbn [environ set_trace].
  change "APP_MASTER_KEY"%string with APP_MASTER_KEY. rewrite Hk.
  destruct key as [|c key]; [congruence|].
  unfold try_except, bind, lift, Fernet_new, bind, log, lift. rewrite He, Hf.
  reflexivity.
Qed.

(** ** What the cipher library can raise *)

Lemma block_of_bytes_Some (l : bytes) :
  length l = 16%nat -> exists s, Aes.block_of_bytes l = Some s.
Proof.
  intros H. destruct (block_of_bytes_length l H) as [s ->].
  exists s. apply block_of_bytes_of_block.
Qed.

Lemma signature_ok_length (f : Fernet) (data : bytes) :
  signature_ok f data = true -> (32 <= length data)%nat.
Proof.
  unfold signature_ok, bytes_eqb. intros [Hlen _]%andb_true_iff.
  apply Nat.eqb_eq in Hlen. rewrite length_hmac_sha256, length_skipn in Hlen. lia.
Qed.

(** [Fernet.decrypt] returns the plaintext or raises [InvalidToken]: the
    IV of a token whose tag verifies has sixteen bytes. *)
Lemma Fernet_decrypt_raises (f : Fernet) (token : bytes) (e : exn) :
  Fernet_decrypt_pure f token = Raise e -> e = InvalidToken.
Proof.
  unfold Fernet_decrypt_pure, _get_unverified_token_data.
  destruct (Base64.urlsafe_b64decode token) as [data|]; cbn [rbind];
    [|congruence].
  destruct data as [|b0 data]; cbn [rbind]; [congruence|].
  destruct (negb (byte_eqb b0 x80)); cbn [rbind]; [congruence|].
  destruct (length (b0 :: data) <? 9)%nat; cbn [rbind]; [congruence|].
  unfold _decrypt_data, _verify_signature.
  destruct (signature_ok f (b0 :: data)) eqn:Hsig; cbn [rbind]; [|congruence].
  apply signature_ok_length in Hsig.
  destruct (block_of_bytes_Some (firstn 16 (skipn 9 (b0 :: data)))) as [iv0 ->].
  { rewrite length_firstn, length_skipn. lia. }
  destruct (aes_cbc_decrypt _ _ _); [|congruence].
  destruct (Pkcs7.unpad _); congruence.
Qed.

(** A token whose tag does not verify, or that does not decode, is
    rejected. *)
Lemma Fernet_decrypt_unauthentic (f : Fernet) (token : bytes) :
  match Base64.urlsafe_b64decode token with
  | Base64.Decoded data => signature_ok f data = false
  | Base64.Error _ => True
  end ->
  Fernet_decrypt_pure f token = Raise InvalidToken.
Proof.
  unfold Fernet_decrypt_pure, _get_unverified_token_data.
  destruct (Base64.urlsafe_b64decode token) as [data|]; cbn [rbind];
    [|reflexivity].
  intros Hsig.
  destruct data as [|b0 data]; cbn [rbind]; [reflexivity|].
  destruct (negb (byte_eqb b0 x80)); cbn [rbind]; [reflexivity|].
  destruct (length (b0 :: data) <? 9)%nat; cbn [rbind]; [reflexivity|].
  unfold _decrypt_data, _verify_signature. now rewrite Hsig.
Qed.

(** A plaintext comes only from a token whose tag verifies. *)
Lemma Fernet_decrypt_authentic (f : Fernet) (token plain : bytes) :
  Fernet_decrypt_pure f token = Ok plain ->
  exists data,
    Base64.urlsafe_b64decode token = Base64.Decoded data
    /\ signature_ok f data = true.
Proof.
  intros H.
  destruct (Base64.urlsafe_b64decode token) as [data|err] eqn:Hd.
  - exists data. split; [reflexivity|].
    destruct (signature_ok f data) eqn:Hsig; [reflexivity|].
    rewrite Fernet_decrypt_unauthentic in H; [discriminate|].
    now rewrite Hd.
  - rewrite Fernet_decrypt_unauthentic in H; [discriminate|]. now rewrite Hd.
Qed.

(** Tokens with the same bytes under the base64 layer decrypt alike. *)
Lemma Fernet_decrypt_same_data (f : Fernet) (token token' : bytes) :
  Base64.urlsafe_b64decode token' = Base64.urlsafe_b64decode token ->
  Fernet_decrypt_pure f token' = Fernet_decrypt_pure f token.
Proof.
  intros H. unfold Fernet_decrypt_pure, _get_unverified_token_data. now rewrite H.
Qed.

(** ** [encrypt] and [decrypt] once the instance is at hand *)

Lemma length_next_iv (w : world) : length (next_iv w) = 16%nat.
Proof. unfold next_iv. now rewrite length_map, length_seq. Qed.

Lemma encrypt_unfold (w w1 : world) (f : Fernet) (s : pystr) :
  _get_fernet w = (Ok (Some f), w1) ->
  encrypt (PyStr s) w =
  match str_encode s with
  | Raise e => (Raise e, w1)
  | Ok plain =>
      match _encrypt_from_parts f plain (now w1) (next_iv w1) with
      | Ok token => (bytes_decode token, after_encrypt w1)
      | Raise e => (Raise e, after_encrypt w1)
      end
  end.
Proof.
  intros Hg. unfold encrypt, bind. rewrite Hg. cbn [getattr ret].
  unfold lift. destruct (str_encode s) as [plain|e]; [|reflexivity].
  unfold Fernet_encrypt, bind, log, time_time, os_urandom, bind, log, lift.
  cbn [set_trace set_entropy_pos trace entropy entropy_pos clock].
  fold (now w1). fold (next_iv w1).
  destruct (_encrypt_from_parts f plain (now w1) (next_iv w1)); reflexivity.
Qed.

Lemma decrypt_unfold (w w1 : world) (f : Fernet) (t : pystr) :
  _get_fernet w = (Ok (Some f), w1) ->
  decrypt (PyStr t) w =
  match str_encode t with
  | Raise e => (Raise e, w1)
  | Ok token =>
      match Fernet_decrypt_pure f token with
      | Ok plain => (bytes_decode plain, after_decrypt w1)
      | Raise _ => (Raise tampered_or_invalid_token, after_decrypt w1)
      end
  end.
Proof.
  intros Hg. unfold decrypt, bind. rewrite Hg.
  unfold try_except, bind. cbn [getattr ret]. unfold lift.
  destruct (str_encode t) as [token|e] eqn:He.
  - unfold Fernet_decrypt, bind, log, lift.
    destruct (Fernet_decrypt_pure f token) as [plain|e] eqn:Hd.
    + unfold bytes_decode. now destruct (Utf8.decode plain).
    + apply Fernet_decrypt_raises in Hd. subst e. reflexivity.
  - unfold str_encode in He. destruct (Utf8.encode t); [discriminate|].
    injection He as <-. reflexivity.
Qed.

Lemma fernet_token (f : Fernet) (data : bytes) (current_time : N) (iv : bytes) :
  length iv = 16%nat ->
  exists token,
    _encrypt_from_parts f data current_time iv = Ok token
    /\ forallb Utf8.is_ascii token = true
    /\ Fernet_decrypt_pure f token = Ok data
    /\ exists rest, Base64.urlsafe_b64decode token
                    = Base64.Decoded (x80 :: to_bytes8 current_time ++ iv ++ rest).
Proof.
  intros Hiv.
  destruct (encrypt_from_parts_spec f data current_time iv Hiv) as (ct & Henc & Hdec).
  cbv zeta in Henc. eexists. split; [exact Henc|]. split; [|split].
  - apply urlsafe_b64encode_ascii.
  - apply (decrypt_data_spec f current_time iv (Pkcs7.pad data) ct data Hiv Hdec).
    apply unpad_pad.
  - rewrite urlsafe_b64_roundtrip. eexists.
    cbn [app]. rewrite <- !app_assoc. reflexivity.
Qed.

(** ** Master keys *)

Lemma valid_master_key_accepted (key : pystr) :
  is_valid_master_key key = true ->
  key <> [] /\ exists b f, str_encode key = Ok b /\ Fernet_init b = Ok f.
Proof.
  unfold is_valid_master_key. intros H. split.
  - intros ->. cbn in H. discriminate.
  - destruct (str_encode key) as [b|]; [|discriminate].
    exists b. unfold Fernet_init.
    destruct (Base64.urlsafe_b64decode b) as [raw|]; [|discriminate].
    apply andb_true_iff in H as [Hlen _]. rewrite Hlen. cbn [negb].
    apply Nat.eqb_eq in Hlen.
    destruct (block_of_bytes_Some (skipn 16 raw)) as [ek ->].
    { rewrite length_skipn. lia. }
    eauto.
Qed.

Lemma valid_master_key_fernet_accepts (key : pystr) :
  is_valid_master_key key = true -> fernet_accepts key = true.
Proof.
  intros (_ & b & f & Hb & Hf)%valid_master_key_accepted.
  unfold fernet_accepts. now rewrite Hb, Hf.
Qed.

(** The encodings of 32 bytes are valid master keys. *)
Lemma generated_key_valid (raw : bytes) :
  length raw = 32%nat ->
  is_valid_master_key (text (Base64.urlsafe_b64encode raw)) = true.
Proof.
  intros Hlen. unfold is_valid_master_key, text.
  rewrite str_encode_ascii by apply urlsafe_b64encode_ascii.
  rewrite urlsafe_b64_roundtrip, Hlen, bytes_eqb_refl. reflexivity.
Qed.

Lemma get_fernet_valid (w : world) (key : pystr) :
  environ w !! APP_MASTER_KEY = Some key ->
  is_valid_master_key key = true ->
  exists f w1,
    _get_fernet w = (Ok (Some f), w1) /\ _fernet_instance w1 = Some f.
Proof.
  intros Hk (Hne & b & f & Hb & Hf)%valid_master_key_accepted.
  destruct (_fernet_instance w) as [f0|] eqn:Hi.
  - exists f0, w. split; [now apply get_fernet_cached|exact Hi].
  - eexists f, _. split; [now apply (get_fernet_init w key b f)|reflexivity].
Qed.

(** ** The round trip through [encrypt] and [decrypt] *)

Lemma encrypt_returns (w w1 : world) (f : Fernet) (s : pystr) :
  _get_fernet w = (Ok (Some f), w1) ->
  Utf8.encodable s = true ->
  exists plain token,
    str_encode s = Ok plain /\ bytes_decode plain = Ok s
    /\ _encrypt_from_parts f plain (now w1) (next_iv w1) = Ok token
    /\ forallb Utf8.is_ascii token = true
    /\ Fernet_decrypt_pure f token = Ok plain
    /\ encrypt (PyStr s) w = (Ok (text token), after_encrypt w1).
Proof.
  intros Hg Hs.
  destruct (str_encode_decode s Hs) as (plain & Hplain & Hback).
  destruct (fernet_token f plain (now w1) (next_iv w1) (length_next_iv w1))
    as (token & Henc & Hascii & Hdec & _).
  exists plain, token. repeat split; try assumption.
  rewrite (encrypt_unfold w w1 f s Hg), Hplain, Henc.
  now rewrite bytes_decode_ascii.
Qed.

Lemma decrypt_returns (w : world) (f : Fernet) (token plain : bytes) (s : pystr) :
  _fernet_instance w = Some f ->
  forallb Utf8.is_ascii token = true ->
  Fernet_decrypt_pure f token = Ok plain ->
  bytes_decode plain = Ok s ->
  decrypt (PyStr (text token)) w = (Ok s, after_decrypt w).
Proof.
  intros Hi Hascii Hdec Hback.
  rewrite (decrypt_unfold w w f) by now apply get_fernet_cached.
  unfold text. now rewrite str_encode_ascii, Hdec, Hback.
Qed.

Lemma roundtrip_from_instance (w w1 : world) (f : Fernet) (s : pystr) :
  _get_fernet w = (Ok (Some f), w1) -> _fernet_instance w1 = Some f ->
  Utf8.encodable s = true -> roundtrip_law w s.
Proof.
  intros Hg Hi Hs.
  destruct (encrypt_returns w w1 f s Hg Hs)
    as (plain & token & _ & Hback & _ & Hascii & Hdec & Henc).
  exists (text token), (after_encrypt w1). split; [exact Henc|].
  intros w2 Hw2. cbn [after_encrypt set_entropy_pos set_trace _fernet_instance] in Hw2.
  rewrite Hi in Hw2.
  now rewrite (decrypt_returns w2 f token plain s Hw2 Hascii Hdec Hback).
Qed.

(** ** The outcomes of [_get_fernet] *)

Lemma Fernet_init_raises (b : bytes) (e : exn) :
  Fernet_init b = Raise e -> e = fernet_key_error.
Proof.
  unfold Fernet_init.
  destruct (Base64.urlsafe_b64decode b) as [raw|];
    [destruct (negb _); [|destruct (Aes.block_of_bytes _)]|]; congruence.
Qed.

Lemma get_fernet_cases (w : world) : get_fernet_outcome w (_get_fernet w).
Proof.
  destruct (_fernet_instance w) as [f|] eqn:Hi.
  { rewrite (get_fernet_cached w f Hi). now constructor. }
  destruct (environ w !! APP_MASTER_KEY) as [key|] eqn:Hk.
  2:{ rewrite get_fernet_missing by auto. constructor; [exact Hi|now rewrite Hk]. }
  destruct key as [|c key].
  { rewrite get_fernet_missing by auto. constructor; [exact Hi|now rewrite Hk]. }
  destruct (str_encode (c :: key)) as [b|e] eqn:He.
  2:{ rewrite (get_fernet_unencodable w (c :: key) e) by (assumption || congruence).
      now apply (Unencodable w (c :: key) e). }
  destruct (Fernet_init b) as [f|e] eqn:Hf.
  - rewrite (get_fernet_init w (c :: key) b f) by (assumption || congruence).
    now apply (Built w (c :: key) b f).
  - pose proof (Fernet_init_raises b e Hf) as ->.
    rewrite (get_fernet_rejected w (c :: key) b fernet_key_error)
      by (assumption || congruence).
    now apply (Rejected w (c :: key) b).
Qed.

Lemma encrypt_get_fernet_fails (w w1 : world) (e : exn) (s : pystr) :
  _get_fernet w = (Raise e, w1) -> encrypt (PyStr s) w = (Raise e, w1).
Proof. intros Hg. unfold encrypt, bind. now rewrite Hg. Qed.

Lemma decrypt_get_fernet_fails (w w1 : world) (e : exn) (s : pystr) :
  _get_fernet w = (Raise e, w1) -> decrypt (PyStr s) w = (Raise e, w1).
Proof. intros Hg. unfold decrypt, bind. now rewrite Hg. Qed.

Lemma get_fernet_raises (w w1 : world) (e : exn) :
  _get_fernet w = (Raise e, w1) ->
  (e = missing_master_key \/ exists d, e = invalid_master_key d)
  /\ _fernet_instance w = None /\ _fernet_instance w1 = None
  /\ exists new, trace w1 = new ++ trace w /\ In (Getenv APP_MASTER_KEY) new.
Proof.
  intros Hg. pose proof (get_fernet_cases w) as Hc. rewrite Hg in Hc.
  inversion Hc; subst; cbn [set_trace _fernet_instance trace].
  - repeat split; eauto. exists [Getenv APP_MASTER_KEY]. split; [reflexivity|now left].
  - repeat split; eauto. exists [Getenv APP_MASTER_KEY]. split; [reflexivity|now left].
  - repeat split; eauto. exists [FernetNew; Getenv APP_MASTER_KEY].
    split; [reflexivity|right; now left].
Qed.

Lemma get_fernet_returns (w w1 : world) (r : option Fernet) :
  _get_fernet w = (Ok r, w1) ->
  exists f, r = Some f /\ _fernet_instance w1 = Some f
            /\ next_iv w1 = next_iv w /\ now w1 = now w
            /\ exists new, trace w1 = new ++ trace w.
Proof.
  intros Hg. pose proof (get_fernet_cases w) as Hc. rewrite Hg in Hc.
  inversion Hc; subst.
  - exists f. repeat split; auto. now exists [].
  - exists f. repeat split; auto.
    now exists [FernetNew; Getenv APP_MASTER_KEY].
Qed.

(** * The claims *)

(** ** Input kinds *)

Lemma non_text_rejected (v : value) (w : world) :
  isinstance_str v = false ->
  encrypt v w = (Raise invalid_input_kind_encrypt, w)
  /\ decrypt v w = (Raise invalid_input_kind_decrypt, w).
Proof. destruct v; (discriminate || (intros _; split; reflexivity)). Qed.

Lemma events_since_refl (w : world) : events_since w w = [].
Proof. unfold events_since. now rewrite Nat.sub_diag. Qed.

Lemma events_since_app (w w' : world) (new : list event) :
  trace w' = new ++ trace w -> events_since w w' = new.
Proof.
  intros H. unfold events_since. rewrite H, length_app.
  replace (length new + length (trace w) - length (trace w))%nat
    with (length new) by lia.
  now apply firstn_exact.
Qed.

(** C7: for every value that is not a text string (a number, raw bytes,
    [None], an empty list or empty bytes, ...), [encrypt] and [decrypt]
    raise the input-kind error and leave the process exactly as it was:
    nothing is logged, no randomness or time is read, no instance is
    built, so no cryptographic work has occurred. *)
Theorem C7_non_text_input_is_rejected (v : value) (w : world) :
  isinstance_str v = false ->
  encrypt v w = (Raise invalid_input_kind_encrypt, w)
  /\ decrypt v w = (Raise invalid_input_kind_decrypt, w).
Proof. apply non_text_rejected. Qed.

Lemma C7_non_text_input_is_rejected_witness :
  (encrypt (PyInt 12345) example_world
   = (Raise invalid_input_kind_encrypt, example_world)
   /\ decrypt (PyInt 12345) example_world
      = (Raise invalid_input_kind_decrypt, example_world))
  /\ (encrypt (PyBytes []) example_world
      = (Raise invalid_input_kind_encrypt, example_world)
      /\ decrypt (PyBytes []) example_world
         = (Raise invalid_input_kind_decrypt, example_world))
  /\ (encrypt PyNone example_world
      = (Raise invalid_input_kind_encrypt, example_world)
      /\ decrypt PyNone example_world
         = (Raise invalid_input_kind_decrypt, example_world)).
Proof.
  exact (conj (C7_non_text_input_is_rejected (PyInt 12345) example_world eq_refl)
           (conj (C7_non_text_input_is_rejected (PyBytes []) example_world eq_refl)
              (C7_non_text_input_is_rejected PyNone example_world eq_refl))).
Defined.

(** The empty string is text: with a key configured, [encrypt("")]
    returns a token. *)
Example empty_string_is_text :
  isinstance_str (PyStr []) = true
  /\ exists token, fst (encrypt (PyStr []) example_world) = Ok token.
Proof. split; [reflexivity|]. eexists. vm_compute. reflexivity. Qed.

(** C9: the type check comes before key initialization.  In a state
    where [_get_fernet] would raise a configuration error (the master key
    is missing or malformed), a call with a value that is not a string
    raises [TypeError], not that error, and the configuration is not
    read: the log of the process is unchanged. *)
Theorem C9_input_kind_precedes_configuration (v : value) (w w1 : world) (e : exn) :
  isinstance_str v = false ->
  _get_fernet w = (Raise e, w1) ->
  (fst (encrypt v w) = Raise invalid_input_kind_encrypt
   /\ fst (encrypt v w) <> Raise e
   /\ events_since w (snd (encrypt v w)) = [])
  /\ (fst (decrypt v w) = Raise invalid_input_kind_decrypt
      /\ fst (decrypt v w) <> Raise e
      /\ events_since w (snd (decrypt v w)) = []).
Proof.
  intros Hv Hg.
  destruct (non_text_rejected v w Hv) as [He Hd].
  rewrite He, Hd. cbn [fst snd]. rewrite events_since_refl.
  apply get_fernet_raises in Hg as ([-> | [d ->]] & _);
    repeat split; discriminate.
Qed.

Lemma C9_input_kind_precedes_configuration_witness :
  (fst (encrypt (PyInt 12345) unconfigured_world) = Raise invalid_input_kind_encrypt
   /\ fst (encrypt (PyInt 12345) unconfigured_world) <> Raise missing_master_key
   /\ events_since unconfigured_world (snd (encrypt (PyInt 12345) unconfigured_world))
      = [])
  /\ (fst (decrypt (PyInt 12345) unconfigured_world) = Raise invalid_input_kind_decrypt
      /\ fst (decrypt (PyInt 12345) unconfigured_world) <> Raise missing_master_key
      /\ events_since unconfigured_world
           (snd (decrypt (PyInt 12345) unconfigured_world)) = []).
Proof.
  apply (C9_input_kind_precedes_configuration (PyInt 12345) unconfigured_world
           (set_trace [Getenv APP_MASTER_KEY] unconfigured_world)
           missing_master_key);
    reflexivity.
Defined.

(** ** Calls from a state with a cached instance *)

Lemma bytes_decode_raises (b : bytes) (e : exn) :
  bytes_decode b = Raise e -> e = UnicodeDecodeError "utf-8" b.
Proof. unfold bytes_decode. destruct (Utf8.decode b); congruence. Qed.

Lemma str_encode_raises (s : pystr) (e : exn) :
  str_encode s = Raise e ->
  exists start stop,
    e = UnicodeEncodeError "utf-8" s start stop "surrogates not allowed".
Proof.
  unfold str_encode. destruct (Utf8.encode s); [discriminate|].
  intros [= <-]. eauto.
Qed.

Lemma encrypt_from_parts_raises (f : Fernet) (plain : bytes) (t : N) (iv : bytes)
    (e : exn) :
  length iv = 16%nat -> _encrypt_from_parts f plain t iv <> Raise e.
Proof.
  intros Hiv. destruct (fernet_token f plain t iv Hiv) as (token & -> & _).
  discriminate.
Qed.

(** Every way a call on a string ends once [_get_fernet] has returned
    the instance. *)
Lemma encrypt_cached_cases (w w1 : world) (f : Fernet) (s : pystr) :
  _get_fernet w = (Ok (Some f), w1) ->
  (exists token, encrypt (PyStr s) w = (Ok (text token), after_encrypt w1)
                 /\ exists plain, str_encode s = Ok plain
                    /\ _encrypt_from_parts f plain (now w1) (next_iv w1) = Ok token)
  \/ (exists start stop,
        encrypt (PyStr s) w
        = (Raise (UnicodeEncodeError "utf-8" s start stop "surrogates not allowed"),
           w1)).
Proof.
  intros Hg. rewrite (encrypt_unfold w w1 f s Hg).
  destruct (str_encode s) as [plain|e] eqn:He.
  - left.
    destruct (fernet_token f plain (now w1) (next_iv w1) (length_next_iv w1))
      as (token & Henc & Hascii & _).
    exists token. rewrite Henc, bytes_decode_ascii by exact Hascii. eauto.
  - right. apply str_encode_raises in He as (start & stop & ->). eauto.
Qed.

Lemma decrypt_cached_cases (w w1 : world) (f : Fernet) (t : pystr) :
  _get_fernet w = (Ok (Some f), w1) ->
  (exists s, decrypt (PyStr t) w = (Ok s, after_decrypt w1))
  \/ decrypt (PyStr t) w = (Raise tampered_or_invalid_token, after_decrypt w1)
  \/ (exists plain,
        decrypt (PyStr t) w = (Raise (UnicodeDecodeError "utf-8" plain),
                               after_decrypt w1))
  \/ (exists start stop,
        decrypt (PyStr t) w
        = (Raise (UnicodeEncodeError "utf-8" t start stop "surrogates not allowed"),
           w1)).
Proof.
  intros Hg. rewrite (decrypt_unfold w w1 f t Hg).
  destruct (str_encode t) as [token|e] eqn:He.
  - destruct (Fernet_decrypt_pure f token) as [plain|e]; [|now right; left].
    destruct (bytes_decode plain) as [s|e] eqn:Hd; [left; eauto|].
    apply bytes_decode_raises in Hd as ->. right; right; left. eauto.
  - apply str_encode_raises in He as (start & stop & ->).
    right; right; right. eauto.
Qed.

(** What a call does to the process: the cache is only ever filled, the
    environment and the clock are left alone, and the log only grows. *)
Lemma step_cached (w : world) (f : Fernet) (a : action) :
  _fernet_instance w = Some f ->
  _fernet_instance (step w a) = Some f
  /\ exists new, trace (step w a) = new ++ trace w
                 /\ existsb reads_configuration new = false.
Proof.
  intros Hi. pose proof (get_fernet_cached w f Hi) as Hg.
  destruct a as [v|v|name val|name|seconds]; cbn [step].
  - destruct (isinstance_str v) eqn:Hv.
    + destruct v; try discriminate.
      destruct (encrypt_cached_cases w w f s Hg) as [(token & -> & _)|(? & ? & ->)];
        cbn [snd after_encrypt set_entropy_pos set_trace _fernet_instance trace].
      * split; [exact Hi|]. now exists [Urandom 16; Time; FernetEncrypt].
      * split; [exact Hi|]. now exists [].
    + destruct (non_text_rejected v w Hv) as [-> _]. cbn [snd].
      split; [exact Hi|]. now exists [].
  - destruct (isinstance_str v) eqn:Hv.
    + destruct v; try discriminate.
      destruct (decrypt_cached_cases w w f s Hg)
        as [(? & ->)|[->|[(? & ->)|(? & ? & ->)]]];
        cbn [snd after_decrypt set_trace _fernet_instance trace];
        (split; [exact Hi|]); (now exists [FernetDecrypt]) || (now exists []).
    + destruct (non_text_rejected v w Hv) as [_ ->]. cbn [snd].
      split; [exact Hi|]. now exists [].
  - split; [exact Hi|]. now exists [].
  - split; [exact Hi|]. now exists [].
  - split; [exact Hi|]. now exists [].
Qed.

Lemma run_cached (acts : list action) (w : world) (f : Fernet) :
  _fernet_instance w = Some f ->
  _fernet_instance (run acts w) = Some f
  /\ exists new, trace (run acts w) = new ++ trace w
                 /\ existsb reads_configuration new = false.
Proof.
  revert w. induction acts as [|a acts IH]; intros w Hi.
  - split; [exact Hi|]. now exists [].
  - destruct (step_cached w f a Hi) as (Hi' & new & Ht & Hn).
    destruct (IH (step w a) Hi') as (Hi'' & new' & Ht' & Hn').
    cbn [run fold_left]. split; [exact Hi''|].
    exists (new' ++ new). unfold run in Ht'. rewrite Ht', Ht, app_assoc.
    split; [reflexivity|]. now rewrite existsb_app, Hn', Hn.
Qed.

(** ** The cached instance *)

(** C8: once a cipher instance is cached, it stays: after any sequence
    of calls to [encrypt] and [decrypt] (with any arguments), changes of
    the environment and passing of time, the cache holds that same
    instance, [_get_fernet] returns it without touching the process, and
    nothing that happened since has read the environment or built an
    instance.  So a process holds at most one instance over its life. *)
Theorem C8_single_cached_instance (w : world) (f : Fernet) (acts : list action) :
  _fernet_instance w = Some f ->
  _fernet_instance (run acts w) = Some f
  /\ _get_fernet (run acts w) = (Ok (Some f), run acts w)
  /\ existsb reads_configuration (events_since w (run acts w)) = false.
Proof.
  intros Hi. destruct (run_cached acts w f Hi) as (Hi' & new & Ht & Hn).
  split; [exact Hi'|]. split; [now apply get_fernet_cached|].
  now rewrite (events_since_app w (run acts w) new Ht).
Qed.

Lemma C8_single_cached_instance_witness :
  let w := step example_world (Call_encrypt (PyStr (pystr_of_string "some data"))) in
  let acts := [Unsetenv APP_MASTER_KEY;
               Call_encrypt (PyStr (pystr_of_string "other data"));
               Putenv APP_MASTER_KEY (pystr_of_string "this-is-not-a-base64-key");
               Call_decrypt (PyStr (pystr_of_string "gAAAAABm_..."))] in
  _fernet_instance w = Some example_fernet
  /\ _fernet_instance (run acts w) = Some example_fernet
  /\ _get_fernet (run acts w) = (Ok (Some example_fernet), run acts w)
  /\ existsb reads_configuration (events_since w (run acts w)) = false.
Proof.
  intros w acts.
  assert (Hi : _fernet_instance w = Some example_fernet) by (vm_compute; reflexivity).
  split; [exact Hi|].
  exact (C8_single_cached_instance w example_fernet acts Hi).
Defined.

(** ** Missing configuration *)

Lemma step_unconfigured (w : world) (a : action) :
  _fernet_instance w = None -> environ w !! APP_MASTER_KEY = None ->
  sets_master_key a = false ->
  _fernet_instance (step w a) = None /\ environ (step w a) !! APP_MASTER_KEY = None.
Proof.
  intros Hi Hk Ha.
  pose proof (get_fernet_missing w Hi (or_introl Hk)) as Hg.
  destruct a as [v|v|name val|name|seconds]; cbn [step].
  - destruct (isinstance_str v) eqn:Hv.
    + destruct v; try discriminate.
      rewrite (encrypt_get_fernet_fails w _ _ s Hg). now cbn.
    + destruct (non_text_rejected v w Hv) as [-> _]. now cbn.
  - destruct (isinstance_str v) eqn:Hv.
    + destruct v; try discriminate.
      rewrite (decrypt_get_fernet_fails w _ _ s Hg). now cbn.
    + destruct (non_text_rejected v w Hv) as [_ ->]. now cbn.
  - cbn [sets_master_key] in Ha. apply String.eqb_neq in Ha.
    cbn [set_environ _fernet_instance environ]. split; [exact Hi|].
    now rewrite lookup_insert_ne.
  - cbn [set_environ _fernet_instance environ]. split; [exact Hi|].
    destruct (decide (name = APP_MASTER_KEY)) as [->|Hne].
    + apply lookup_delete_eq.
    + now rewrite lookup_delete_ne.
  - now cbn.
Qed.

Lemma run_unconfigured (acts : list action) (w : world) :
  _fernet_instance w = None -> environ w !! APP_MASTER_KEY = None ->
  existsb sets_master_key acts = false ->
  _fernet_instance (run acts w) = None
  /\ environ (run acts w) !! APP_MASTER_KEY = None.
Proof.
  revert w. induction acts as [|a acts IH]; intros w Hi Hk Ha; [now split|].
  cbn [existsb] in Ha. apply orb_false_iff in Ha as [Ha Hacts].
  destruct (step_unconfigured w a Hi Hk Ha) as [Hi' Hk'].
  exact (IH (step w a) Hi' Hk' Hacts).
Qed.

(** C3 (as amended): in a state where no master key is in the
    environment and no instance is cached, every call of [encrypt] and of
    [decrypt] on a string raises the missing-master-key error; all the
    call has done by then is read the environment: the state differs from
    the one before the call by that one log entry, so no library call was
    made and no random byte or clock was read.  (Such are all the states
    of a process started without the key and never given one:
    [run_unconfigured].) *)
Theorem C3_missing_master_key (w : world) (s : pystr) :
  _fernet_instance w = None ->
  environ w !! APP_MASTER_KEY = None ->
  encrypt (PyStr s) w
  = (Raise missing_master_key, set_trace (Getenv APP_MASTER_KEY :: trace w) w)
  /\ decrypt (PyStr s) w
     = (Raise missing_master_key, set_trace (Getenv APP_MASTER_KEY :: trace w) w).
Proof.
  intros Hi Hk.
  pose proof (get_fernet_missing w Hi (or_introl Hk)) as Hg.
  split.
  - exact (encrypt_get_fernet_fails w _ _ s Hg).
  - exact (decrypt_get_fernet_fails w _ _ s Hg).
Qed.

Lemma C3_missing_master_key_witness :
  let w := run [Call_encrypt (PyStr (pystr_of_string "this will fail"));
                Sleep 5; Putenv "HOME" (pystr_of_string "/root")]
             unconfigured_world in
  encrypt (PyStr (pystr_of_string "this will fail")) w
  = (Raise missing_master_key, set_trace (Getenv APP_MASTER_KEY :: trace w) w)
  /\ decrypt (PyStr (pystr_of_string "this will fail")) w
     = (Raise missing_master_key, set_trace (Getenv APP_MASTER_KEY :: trace w) w).
Proof.
  intros w.
  apply (C3_missing_master_key w (pystr_of_string "this will fail"));
    vm_compute; reflexivity.
Defined.

(** C3 as stated fails in a process that has cached an instance: after
    a successful [encrypt], the master key is removed from the
    environment; no master key is present, and [encrypt] and [decrypt]
    still return a token and a plaintext. *)
Lemma C3_counterexample :
  environ key_removed_world !! APP_MASTER_KEY = None
  /\ environ key_removed_world = empty
  /\ (exists token,
        fst (encrypt (PyStr (pystr_of_string "other data")) key_removed_world)
        = Ok token)
  /\ fst (decrypt (PyStr example_token) key_removed_world)
     = Ok (pystr_of_string "some data").
Proof.
  split; [vm_compute; reflexivity|]. split; [vm_compute; reflexivity|].
  split; [eexists|]; vm_compute; reflexivity.
Qed.

(** ** Failed initialization and recovery *)

Lemma call_raises_configuration_error (w w' : world) (v : value) (e : exn) :
  encrypt v w = (Raise e, w') \/ decrypt v w = (Raise e, w') ->
  e = missing_master_key \/ (exists d, e = invalid_master_key d) ->
  _get_fernet w = (Raise e, w').
Proof.
  intros Hcall He.
  destruct (isinstance_str v) eqn:Hv.
  2:{ destruct (non_text_rejected v w Hv) as [H1 H2]. rewrite H1, H2 in Hcall.
      destruct Hcall as [[= <- <-]|[= <- <-]], He as [?|[? ?]]; discriminate. }
  destruct v; try discriminate. clear Hv.
  destruct (_get_fernet w) as [[r|e0] w1] eqn:Hg.
  - exfalso. destruct (get_fernet_returns w w1 r Hg) as (f & -> & _).
    destruct Hcall as [Henc|Hdec].
    + destruct (encrypt_cached_cases w w1 f s Hg) as [(? & H & _)|(? & ? & H)];
        rewrite H in Henc; try discriminate; injection Henc as <- <-;
        destruct He as [?|[? ?]]; discriminate.
    + destruct (decrypt_cached_cases w w1 f s Hg)
        as [(? & H)|[H|[(? & H)|(? & ? & H)]]];
        rewrite H in Hdec; try discriminate; injection Hdec as <- <-;
        destruct He as [?|[? ?]]; discriminate.
  - destruct Hcall as [Henc|Hdec].
    + rewrite (encrypt_get_fernet_fails w w1 e0 s Hg) in Henc.
      now injection Henc as <- <-.
    + rewrite (decrypt_get_fernet_fails w w1 e0 s Hg) in Hdec.
      now injection Hdec as <- <-.
Qed.

Lemma lookup_putenv (w : world) (name : string) (val : pystr) :
  environ (step w (Putenv name val)) !! name = Some val.
Proof. cbn [step set_environ environ]. apply lookup_insert_eq. Qed.

(** C10: a call that fails with the missing- or invalid-master-key
    error leaves the cache empty.  Once a valid master key is then put
    into the environment, the next [encrypt] reads the environment again
    and returns a token, the next [decrypt] of a token made under that key
    reads the environment again and returns its plaintext, and [decrypt]
    returns what [encrypt] was given: the process recovers without a
    restart. *)
Theorem C10_failed_initialization_is_not_cached (w w' : world) (v : value)
    (e : exn) (key s : pystr) :
  encrypt v w = (Raise e, w') \/ decrypt v w = (Raise e, w') ->
  e = missing_master_key \/ (exists d, e = invalid_master_key d) ->
  is_valid_master_key key = true ->
  Utf8.encodable s = true ->
  let w2 := step w' (Putenv APP_MASTER_KEY key) in
  _fernet_instance w' = None
  /\ exists token w3,
       encrypt (PyStr s) w2 = (Ok token, w3)
       /\ In (Getenv APP_MASTER_KEY) (events_since w2 w3)
       /\ (exists w4,
             decrypt (PyStr token) w2 = (Ok s, w4)
             /\ In (Getenv APP_MASTER_KEY) (events_since w2 w4))
       /\ fst (decrypt (PyStr token) w3) = Ok s.
Proof.
  intros Hcall He Hkey Hs w2.
  pose proof (call_raises_configuration_error w w' v e Hcall He) as Hg.
  apply get_fernet_raises in Hg as (_ & _ & Hi' & _).
  split; [exact Hi'|].
  destruct (valid_master_key_accepted key Hkey) as (Hne & b & f & Hb & Hf).
  assert (Hi2 : _fernet_instance w2 = None) by exact Hi'.
  pose proof (get_fernet_init w2 key b f Hi2 (lookup_putenv w' _ key) Hne Hb Hf)
    as Hg2.
  set (w2' := set_fernet_instance (Some f)
                (set_trace (FernetNew :: Getenv APP_MASTER_KEY :: trace w2) w2))
    in Hg2.
  destruct (encrypt_returns w2 w2' f s Hg2 Hs)
    as (plain & token & _ & Hback & _ & Hascii & Hdec & Henc).
  exists (text token), (after_encrypt w2'). split; [exact Henc|]. split; [|split].
  - rewrite (events_since_app w2 (after_encrypt w2')
               [Urandom 16; Time; FernetEncrypt; FernetNew; Getenv APP_MASTER_KEY])
      by reflexivity.
    cbn [In]. tauto.
  - exists (after_decrypt w2'). split.
    + rewrite (decrypt_unfold w2 w2' f (text token) Hg2). unfold text.
      now rewrite str_encode_ascii, Hdec, Hback.
    + rewrite (events_since_app w2 (after_decrypt w2')
                 [FernetDecrypt; FernetNew; Getenv APP_MASTER_KEY])
        by reflexivity.
      cbn [In]. tauto.
  - now rewrite (decrypt_returns (after_encrypt w2') f token plain s eq_refl
                   Hascii Hdec Hback).
Qed.

Lemma C10_failed_initialization_is_not_cached_witness :
  let w := step unconfigured_world
             (Putenv APP_MASTER_KEY (pystr_of_string "this-is-not-a-base64-key")) in
  let w' := set_trace [FernetNew; Getenv APP_MASTER_KEY] w in
  let s := pystr_of_string "my-secret-api-key-12345" in
  let w2 := step w' (Putenv APP_MASTER_KEY example_key) in
  _fernet_instance w' = None
  /\ exists token w3,
       encrypt (PyStr s) w2 = (Ok token, w3)
       /\ In (Getenv APP_MASTER_KEY) (events_since w2 w3)
       /\ (exists w4,
             decrypt (PyStr token) w2 = (Ok s, w4)
             /\ In (Getenv APP_MASTER_KEY) (events_since w2 w4))
       /\ fst (decrypt (PyStr token) w3) = Ok s.
Proof.
  intros w w' s.
  apply (C10_failed_initialization_is_not_cached w w' (PyStr s)
           (invalid_master_key fernet_key_error) example_key s).
  - left. vm_compute. reflexivity.
  - right. exists fernet_key_error. reflexivity.
  - vm_compute. reflexivity.
  - vm_compute. reflexivity.
Defined.

(** ** The round-trip law *)

(** C1 (as amended): with a valid master key configured, for every text
    string [s] that UTF-8 can encode (a string of Unicode scalar values,
    that is, without lone surrogates), [encrypt(s)] returns a token and
    [decrypt] of that token returns exactly [s], in the state [encrypt]
    left and in every later state that holds the same cached instance. *)
Theorem C1_roundtrip (w : world) (key s : pystr) :
  environ w !! APP_MASTER_KEY = Some key ->
  is_valid_master_key key = true ->
  Utf8.encodable s = true ->
  roundtrip_law w s.
Proof.
  intros Hk Hkey Hs.
  destruct (get_fernet_valid w key Hk Hkey) as (f & w1 & Hg & Hi).
  exact (roundtrip_from_instance w w1 f s Hg Hi Hs).
Qed.

Lemma C1_roundtrip_witness :
  roundtrip_law example_world (pystr_of_string "my-secret-api-key-12345").
Proof.
  apply (C1_roundtrip example_world example_key
           (pystr_of_string "my-secret-api-key-12345"));
    vm_compute; reflexivity.
Defined.

(** C1 as stated fails on a text string that holds a lone surrogate:
    the master key is valid, and [encrypt] raises [UnicodeEncodeError]. *)
Lemma C1_counterexample :
  environ example_world !! APP_MASTER_KEY = Some example_key
  /\ is_valid_master_key example_key = true
  /\ fst (encrypt (PyStr [0xD800]) example_world)
     = Raise (UnicodeEncodeError "utf-8" [0xD800] 0 1 "surrogates not allowed")
  /\ ~ roundtrip_law example_world [0xD800].
Proof.
  split; [reflexivity|]. split; [vm_compute; reflexivity|].
  split; [vm_compute; reflexivity|].
  intros (token & w1 & Henc & _).
  apply (f_equal fst) in Henc. vm_compute in Henc. discriminate.
Qed.

(** ** Fresh tokens *)

Lemma text_inj (a b : bytes) : text a = text b -> a = b.
Proof.
  unfold text. revert b. induction a as [|x a IH]; intros [|y b] H;
    try discriminate; [reflexivity|].
  cbn [map] in H. injection H as Hxy H. apply to_N_inj in Hxy.
  subst y. f_equal. now apply IH.
Qed.

Lemma app_inv_length {A} (a a' b b' : list A) :
  length a = length a' -> a ++ b = a' ++ b' -> a = a'.
Proof.
  revert a'. induction a as [|x a IH]; intros [|y a'] Hlen H;
    try discriminate; [reflexivity|].
  cbn [app] in H. injection H as -> H. f_equal. apply IH; [|exact H].
  now injection Hlen.
Qed.

(** The token shows the IV it was made with. *)
Lemma token_determines_iv (f f' : Fernet) (plain plain' : bytes) (t t' : N)
    (iv iv' token : bytes) :
  length iv = 16%nat -> length iv' = 16%nat ->
  _encrypt_from_parts f plain t iv = Ok token ->
  _encrypt_from_parts f' plain' t' iv' = Ok token ->
  iv = iv'.
Proof.
  intros Hiv Hiv' H H'.
  destruct (fernet_token f plain t iv Hiv) as (tok & Henc & _ & _ & rest & Hd).
  destruct (fernet_token f' plain' t' iv' Hiv') as (tok' & Henc' & _ & _ & rest' & Hd').
  rewrite H in Henc. rewrite H' in Henc'.
  injection Henc as <-. injection Henc' as <-.
  assert (Heq : to_bytes8 t ++ iv ++ rest = to_bytes8 t' ++ iv' ++ rest')
    by congruence.
  apply app_inv_length in Heq as Hts; [|reflexivity].
  rewrite Hts in Heq. apply app_inv_head in Heq.
  apply (app_inv_length iv iv' rest rest'); [congruence|exact Heq].
Qed.

(** A token [encrypt] returned was made by the library from the IV and
    the time the call read. *)
Lemma encrypt_Ok_inv (w w1 : world) (s t : pystr) :
  encrypt (PyStr s) w = (Ok t, w1) ->
  exists f w0 plain token,
    _get_fernet w = (Ok (Some f), w0) /\ _fernet_instance w0 = Some f
    /\ next_iv w0 = next_iv w /\ entropy_pos w0 = entropy_pos w
    /\ entropy w0 = entropy w
    /\ w1 = after_encrypt w0
    /\ str_encode s = Ok plain
    /\ _encrypt_from_parts f plain (now w0) (next_iv w0) = Ok token
    /\ t = text token.
Proof.
  intros Henc.
  pose proof (get_fernet_cases w) as Hc.
  destruct (_get_fernet w) as [[r|e0] w0] eqn:Hg.
  2:{ rewrite (encrypt_get_fernet_fails w w0 e0 s Hg) in Henc. discriminate. }
  assert (exists f, r = Some f /\ _fernet_instance w0 = Some f
                    /\ next_iv w0 = next_iv w /\ entropy_pos w0 = entropy_pos w
                    /\ entropy w0 = entropy w) as (f & -> & Hi & Hiv & Hpos & Hent).
  { inversion Hc; subst; eauto 10. }
  rewrite (encrypt_unfold w w0 f s Hg) in Henc.
  destruct (str_encode s) as [plain|] eqn:Hplain; [|discriminate].
  destruct (fernet_token f plain (now w0) (next_iv w0) (length_next_iv w0))
    as (token & Hparts & Hascii & _).
  rewrite Hparts, bytes_decode_ascii in Henc by exact Hascii.
  injection Henc as <- <-.
  exists f, w0, plain, token. repeat split; assumption || reflexivity.
Qed.

(** C5: for a fixed string [s] under a valid master key, two calls of
    [encrypt(s)], one after the other, never return the same token,
    provided the randomness is fresh: the sixteen bytes the second call
    draws from the random source differ from those the first call drew.
    Both calls do return a token when UTF-8 can encode [s]. *)
Theorem C5_fresh_tokens (w : world) (key s : pystr) :
  environ w !! APP_MASTER_KEY = Some key ->
  is_valid_master_key key = true ->
  next_iv w <> next_iv (set_entropy_pos (entropy_pos w + 16) w) ->
  (forall token1 w1 token2 w2,
      encrypt (PyStr s) w = (Ok token1, w1) ->
      encrypt (PyStr s) w1 = (Ok token2, w2) ->
      token1 <> token2)
  /\ (Utf8.encodable s = true ->
      exists token1 w1 token2 w2,
        encrypt (PyStr s) w = (Ok token1, w1)
        /\ encrypt (PyStr s) w1 = (Ok token2, w2)).
Proof.
  intros Hk Hkey Hfresh. split.
  - intros token1 w1 token2 w2 H1 H2 Heq.
    destruct (encrypt_Ok_inv w w1 s token1 H1)
      as (f & w0 & plain & tok1 & _ & _ & Hiv & Hpos & Hent & -> & _ & Hp1 & ->).
    destruct (encrypt_Ok_inv _ w2 s token2 H2)
      as (f' & w0' & plain' & tok2 & _ & _ & Hiv' & _ & _ & _ & _ & Hp2 & ->).
    apply text_inj in Heq. subst tok2. apply Hfresh.
    rewrite <- Hiv.
    replace (next_iv (set_entropy_pos (entropy_pos w + 16) w))
      with (next_iv (after_encrypt w0)).
    + rewrite <- Hiv'.
      exact (token_determines_iv f f' plain plain' _ _ _ _ tok1
               (length_next_iv _) (length_next_iv _) Hp1 Hp2).
    + unfold next_iv.
      cbn [after_encrypt set_entropy_pos set_trace entropy entropy_pos].
      now rewrite Hpos, Hent.
  - intros Hs.
    destruct (get_fernet_valid w key Hk Hkey) as (f & w0 & Hg & Hi).
    destruct (encrypt_returns w w0 f s Hg Hs)
      as (plain & token1 & _ & _ & _ & _ & _ & Hcall1).
    assert (Hi1 : _fernet_instance (after_encrypt w0) = Some f) by exact Hi.
    pose proof (get_fernet_cached (after_encrypt w0) f Hi1) as Hg1.
    destruct (encrypt_returns (after_encrypt w0) (after_encrypt w0) f s Hg1 Hs)
      as (plain' & token2 & _ & _ & _ & _ & _ & Hcall2).
    exists (text token1), (after_encrypt w0), (text token2),
      (after_encrypt (after_encrypt w0)).
    split; [exact Hcall1|exact Hcall2].
Qed.

Lemma C5_fresh_tokens_witness :
  let s := pystr_of_string "some data" in
  (forall token1 w1 token2 w2,
      encrypt (PyStr s) example_world = (Ok token1, w1) ->
      encrypt (PyStr s) w1 = (Ok token2, w2) ->
      token1 <> token2)
  /\ (Utf8.encodable s = true ->
      exists token1 w1 token2 w2,
        encrypt (PyStr s) example_world = (Ok token1, w1)
        /\ encrypt (PyStr s) w1 = (Ok token2, w2)).
Proof.
  apply (C5_fresh_tokens example_world example_key (pystr_of_string "some data")).
  - reflexivity.
  - vm_compute. reflexivity.
  - vm_compute. discriminate.
Defined.

(** ** Malformed configuration *)

(** C6 (as amended): if the master key is set, not empty, and not
    accepted by the cipher library (it cannot be encoded, or the lenient
    URL-safe base64 decoder fails on it or does not give 32 bytes), the
    first call of [encrypt] or [decrypt] raises the invalid-master-key
    error and caches nothing.  Its message is the fixed text that names the
    expected format, followed by the detail of the cause; for a key that
    UTF-8 can encode the detail is the library's fixed sentence, so the
    whole message is the same for every such key and shows nothing of
    it. *)
Theorem C6_invalid_master_key (w : world) (key s : pystr) :
  _fernet_instance w = None ->
  environ w !! APP_MASTER_KEY = Some key -> key <> [] ->
  fernet_accepts key = false ->
  exists d w',
    encrypt (PyStr s) w = (Raise (invalid_master_key d), w')
    /\ decrypt (PyStr s) w = (Raise (invalid_master_key d), w')
    /\ _fernet_instance w' = None
    /\ (Utf8.encodable key = true -> d = fernet_key_error).
Proof.
  intros Hi Hk Hne Hacc. unfold fernet_accepts in Hacc.
  destruct (str_encode key) as [b|e] eqn:He.
  - destruct (Fernet_init b) as [f|e] eqn:Hf; [discriminate|].
    pose proof (Fernet_init_raises b e Hf) as ->.
    pose proof (get_fernet_rejected w key b _ Hi Hk Hne He Hf) as Hg.
    eexists fernet_key_error, _.
    split; [exact (encrypt_get_fernet_fails w _ _ s Hg)|].
    split; [exact (decrypt_get_fernet_fails w _ _ s Hg)|].
    split; [exact Hi|reflexivity].
  - pose proof (get_fernet_unencodable w key e Hi Hk Hne He) as Hg.
    eexists e, _.
    split; [exact (encrypt_get_fernet_fails w _ _ s Hg)|].
    split; [exact (decrypt_get_fernet_fails w _ _ s Hg)|].
    split; [exact Hi|].
    intros Hkey. destruct (str_encode_decode key Hkey) as (b & Hb & _). congruence.
Qed.

Lemma C6_invalid_master_key_witness :
  exists d w',
    encrypt (PyStr (pystr_of_string "this will also fail")) malformed_world
    = (Raise (invalid_master_key d), w')
    /\ decrypt (PyStr (pystr_of_string "this will also fail")) malformed_world
       = (Raise (invalid_master_key d), w')
    /\ _fernet_instance w' = None
    /\ (Utf8.encodable malformed_key = true -> d = fernet_key_error).
Proof.
  apply (C6_invalid_master_key malformed_world malformed_key
           (pystr_of_string "this will also fail")).
  - reflexivity.
  - reflexivity.
  - discriminate.
  - vm_compute. reflexivity.
Defined.

(** C6 as stated fails on a key that is not a correct URL-safe base64
    encoding of 32 bytes, yet decodes to 32 bytes under the library's
    lenient decoder: the first [encrypt] returns a token. *)
Lemma C6_counterexample :
  environ noncanonical_world !! APP_MASTER_KEY = Some noncanonical_key
  /\ is_valid_master_key noncanonical_key = false
  /\ (forall raw, length raw = 32%nat ->
                  noncanonical_key <> text (Base64.urlsafe_b64encode raw))
  /\ exists token,
       fst (encrypt (PyStr (pystr_of_string "some data")) noncanonical_world)
       = Ok token.
Proof.
  assert (Hinv : is_valid_master_key noncanonical_key = false)
    by (vm_compute; reflexivity).
  split; [reflexivity|]. split; [exact Hinv|]. split.
  - intros raw Hlen Heq. rewrite Heq, generated_key_valid in Hinv by exact Hlen.
    discriminate.
  - eexists. vm_compute. reflexivity.
Qed.

(** ** Error kinds *)

(** C4 (as amended): the error of a failed authentication and the two
    configuration errors are not of distinct kinds: all three are
    instances of exactly the class [ValueError], so that no [except]
    clause and no [isinstance] test tells one from another; their texts
    [str(e)] are pairwise different.  Every instance of [ValueError] that
    [encrypt] or [decrypt] raises is one of the three (the
    tampered-or-invalid-token error, raised by [decrypt] with the instance
    at hand when the library rejects the token; a configuration error,
    raised with no instance cached) or a codec error on the argument or on
    the payload, whose class is a proper subclass of [ValueError]. *)
Theorem C4_errors_are_one_kind (codec_error_text : exn -> string) (w w' : world)
    (v : value) (e : exn) :
  encrypt v w = (Raise e, w') \/ decrypt v w = (Raise e, w') ->
  isinstance_exn e [cls_ValueError] = true ->
  (class_of tampered_or_invalid_token = cls_ValueError
   /\ class_of missing_master_key = cls_ValueError
   /\ (forall d, class_of (invalid_master_key d) = cls_ValueError)
   /\ (forall classes d,
         isinstance_exn tampered_or_invalid_token classes
         = isinstance_exn missing_master_key classes
         /\ isinstance_exn tampered_or_invalid_token classes
            = isinstance_exn (invalid_master_key d) classes))
  /\ (str_exn codec_error_text tampered_or_invalid_token
      <> str_exn codec_error_text missing_master_key
      /\ (forall d, str_exn codec_error_text tampered_or_invalid_token
                    <> str_exn codec_error_text (invalid_master_key d))
      /\ (forall d, str_exn codec_error_text missing_master_key
                    <> str_exn codec_error_text (invalid_master_key d)))
  /\ ((e = tampered_or_invalid_token
       /\ exists f t token,
            v = PyStr t /\ _fernet_instance w' = Some f
            /\ str_encode t = Ok token
            /\ Fernet_decrypt_pure f token = Raise InvalidToken)
      \/ ((e = missing_master_key \/ exists d, e = invalid_master_key d)
          /\ _fernet_instance w' = None)
      \/ (exists t start stop,
            v = PyStr t
            /\ e = UnicodeEncodeError "utf-8" t start stop "surrogates not allowed"
            /\ class_of e = cls_UnicodeEncodeError)
      \/ (exists plain,
            e = UnicodeDecodeError "utf-8" plain
            /\ class_of e = cls_UnicodeDecodeError)).
Proof.
  intros Hcall Hcls.
  split; [repeat split|split; [repeat split; intros; cbn; discriminate|]].
  destruct (isinstance_str v) eqn:Hv.
  2:{ destruct (non_text_rejected v w Hv) as [H1 H2]. rewrite H1, H2 in Hcall.
      destruct Hcall as [[= <- <-]|[= <- <-]]; discriminate. }
  destruct v as [| | |t| |]; try discriminate. clear Hv.
  destruct (_get_fernet w) as [[r|e0] w1] eqn:Hg.
  - destruct (get_fernet_returns w w1 r Hg) as (f & -> & Hi & _).
    destruct Hcall as [Henc|Hdec].
    + destruct (encrypt_cached_cases w w1 f t Hg) as [(? & H & _)|(? & ? & H)];
        rewrite H in Henc; [discriminate|]. injection Henc as <- <-.
      right; right; left. eauto 10.
    + pose proof (decrypt_unfold w w1 f t Hg) as Hun. rewrite Hdec in Hun.
      destruct (str_encode t) as [token|e1] eqn:He.
      * destruct (Fernet_decrypt_pure f token) as [plain|e2] eqn:Hd.
        -- destruct (bytes_decode plain) eqn:Hb; [discriminate|].
           apply bytes_decode_raises in Hb as ->.
           injection Hun as -> _. right; right; right. eauto.
        -- apply Fernet_decrypt_raises in Hd as Heq. subst e2.
           injection Hun as -> ->. left. split; [reflexivity|].
           exists f, t, token. repeat split; assumption.
      * apply str_encode_raises in He as (? & ? & ->).
        injection Hun as -> _. right; right; left. eauto 10.
  - right; left. pose proof (get_fernet_raises w w1 e0 Hg) as (He0 & _ & Hi & _).
    destruct Hcall as [Henc|Hdec].
    + rewrite (encrypt_get_fernet_fails w w1 e0 t Hg) in Henc.
      injection Henc as <- <-. now split.
    + rewrite (decrypt_get_fernet_fails w w1 e0 t Hg) in Hdec.
      injection Hdec as <- <-. now split.
Qed.

Lemma C4_errors_are_one_kind_witness :
  exists f t token,
    PyStr tampered_token = PyStr t
    /\ _fernet_instance (snd (decrypt (PyStr tampered_token) example_world)) = Some f
    /\ str_encode t = Ok token
    /\ Fernet_decrypt_pure f token = Raise InvalidToken.
Proof.
  destruct (C4_errors_are_one_kind (fun _ => EmptyString) example_world
              (snd (decrypt (PyStr tampered_token) example_world))
              (PyStr tampered_token) tampered_or_invalid_token)
    as (_ & _ & [[_ H]|[[[H|[d H]] _]|[(t & a & b & _ & H & _)|(p & H & _)]]]);
    [right; vm_compute; reflexivity|reflexivity|exact H|discriminate..].
Defined.

(** C4 as stated fails: the error [decrypt] raises on a tampered token,
    the error raised when the master key is missing and the one raised
    when it is malformed all have the class [ValueError]; an [except
    ValueError] clause catches the three alike. *)
Lemma C4_counterexample :
  exists e_token e_missing e_invalid,
    fst (decrypt (PyStr tampered_token) example_world) = Raise e_token
    /\ fst (decrypt (PyStr tampered_token) unconfigured_world) = Raise e_missing
    /\ fst (decrypt (PyStr tampered_token) malformed_world) = Raise e_invalid
    /\ class_of e_token = class_of e_missing
    /\ class_of e_token = class_of e_invalid
    /\ isinstance_exn e_token [cls_ValueError] = true
    /\ isinstance_exn e_missing [cls_ValueError] = true
    /\ isinstance_exn e_invalid [cls_ValueError] = true.
Proof.
  exists tampered_or_invalid_token, missing_master_key,
    (invalid_master_key fernet_key_error).
  repeat split; vm_compute; reflexivity.
Qed.

(** ** Tampered tokens *)




(** What [encrypt] returns is a token of the cached instance. *)
Lemma encrypt_gives_token (w w1 : world) (s t : pystr) :
  encrypt (PyStr s) w = (Ok t, w1) ->
  exists f plain token data,
    _fernet_instance w1 = Some f
    /\ t = text token /\ forallb Utf8.is_ascii token = true
    /\ str_encode s = Ok plain
    /\ Fernet_decrypt_pure f token = Ok plain
    /\ token_data t = Some data /\ signature_ok f data = true.
Proof.
  intros Henc.
  destruct (_get_fernet w) as [[r|e0] w0] eqn:Hg.
  2:{ rewrite (encrypt_get_fernet_fails w w0 e0 s Hg) in Henc. discriminate. }
  destruct (get_fernet_returns w w0 r Hg) as (f & -> & Hi & _).
  rewrite (encrypt_unfold w w0 f s Hg) in Henc.
  destruct (str_encode s) as [plain|] eqn:Hplain; [|discriminate].
  destruct (fernet_token f plain (now w0) (next_iv w0) (length_next_iv w0))
    as (token & Hparts & Hascii & Hdec & _).
  rewrite Hparts, bytes_decode_ascii in Henc by exact Hascii.
  injection Henc as <- <-.
  destruct (Fernet_decrypt_authentic f token plain Hdec) as (data & Hdata & Hsig).
  exists f, plain, token, data. repeat split; try assumption.
  unfold token_data, text. now rewrite str_encode_ascii, Hdata.
Qed.



Lemma decrypt_authentic (w : world) (f : Fernet) (t' p : pystr) :
  _fernet_instance w = Some f ->
  fst (decrypt (PyStr t') w) = Ok p ->
  exists data, token_data t' = Some data /\ signature_ok f data = true.
Proof.
  intros Hi Hok.
  rewrite (decrypt_unfold w w f t' (get_fernet_cached w f Hi)) in Hok.
  unfold token_data.
  destruct (str_encode t') as [token'|]; [|discriminate].
  destruct (Fernet_decrypt_pure f token') as [plain|] eqn:Hd; [|discriminate].
  apply Fernet_decrypt_authentic in Hd as (data & -> & Hsig). eauto.
Qed.





(** None of the two hundred strings got from [example_token] by
    writing [A] or [B] at one of its hundred places is a forgery: where the
    bytes differ from those of the token, the tag computed over them is
    not the one they carry. *)
Example example_token_changes_are_no_forgeries :
  forallb (fun i =>
             forallb (fun c =>
                        negb (forged example_fernet example_token
                                (with_character i c example_token)))
                     [65; 66])
          (seq 0 100)
  = true.
Proof. vm_compute. reflexivity. Qed.


(** * Further properties of the module, its tests and the credential model *)

(** ** The shape of tokens *)

Lemma length_b2a_base64 (bin : bytes) :
  length (Base64.b2a_base64 bin) = (4 * ((length bin + 2) / 3))%nat.
Proof.
  induction bin as [|a|a b|a b c l IH] using list_ind3; try reflexivity.
  cbn [Base64.b2a_base64 length]. rewrite IH.
  replace (S (S (S (length l))) + 2)%nat with (length l + 2 + 1 * 3)%nat by lia.
  rewrite Nat.div_add by discriminate. lia.
Qed.

Lemma length_urlsafe_b64encode (bin : bytes) :
  length (Base64.urlsafe_b64encode bin) = (4 * ((length bin + 2) / 3))%nat.
Proof. unfold Base64.urlsafe_b64encode. now rewrite length_map, length_b2a_base64. Qed.

Lemma b2a_urlsafe (n : N) :
  is_urlsafe_char (Byte.to_N (Base64._urlsafe_encode_translation (Base64.b2a n)))
  = true.
Proof.
  assert (H : forallb (fun c => is_urlsafe_char
                                  (Byte.to_N (Base64._urlsafe_encode_translation c)))
                (Base64.BASE64_PAD :: Base64.table_b2a_base64) = true)
    by (vm_compute; reflexivity).
  rewrite forallb_forall in H. apply H. unfold Base64.b2a.
  destruct (nth_in_or_default (N.to_nat n) Base64.table_b2a_base64 Base64.BASE64_PAD)
    as [Hin| ->]; [now right | now left].
Qed.

Lemma urlsafe_b64encode_alphabet (bin : bytes) :
  forallb is_urlsafe_char (text (Base64.urlsafe_b64encode bin)) = true.
Proof.
  unfold Base64.urlsafe_b64encode, text.
  induction bin as [|a|a b|a b c l IH] using list_ind3;
    cbn [Base64.b2a_base64 map forallb]; rewrite ?b2a_urlsafe, ?IH; reflexivity.
Qed.

Lemma length_pad (data : bytes) :
  length (Pkcs7.pad data) = (16 * (length data / 16 + 1))%nat.
Proof.
  unfold Pkcs7.pad. rewrite length_app, repeat_length.
  pose proof (Nat.div_mod_eq (length data) 16).
  pose proof (Nat.mod_upper_bound (length data) 16). lia.
Qed.

Lemma length_cbc_encrypt (ks : list Aes.block) (iv : Aes.block) (pt : list Aes.block) :
  length (Aes.cbc_encrypt ks iv pt) = length pt.
Proof.
  revert iv. induction pt as [|p pt IH]; intros iv; [reflexivity|].
  cbn [Aes.cbc_encrypt length]. now rewrite IH.
Qed.

(** The bytes under the base64 layer, with the size of the ciphertext. *)
Lemma encrypt_from_parts_data (f : Fernet) (data : bytes) (current_time : N)
    (iv : bytes) :
  length iv = 16%nat ->
  exists ciphertext,
    length ciphertext = (16 * (length data / 16 + 1))%nat
    /\ _encrypt_from_parts f data current_time iv
       = Ok (Base64.urlsafe_b64encode
               ((x80 :: to_bytes8 current_time ++ iv ++ ciphertext)
                ++ hmac_sha256 (_signing_key f)
                     (x80 :: to_bytes8 current_time ++ iv ++ ciphertext))).
Proof.
  intros Hiv.
  destruct (block_of_bytes_length iv Hiv) as [iv0 ->].
  destruct (blocks_of_bytes_multiple _ _ (length_pad data)) as [pt Hpt].
  exists (Aes.bytes_of_blocks
            (Aes.cbc_encrypt (Aes.key_expansion (_encryption_key f)) iv0 pt)).
  split.
  - rewrite length_bytes_of_blocks, length_cbc_encrypt.
    rewrite <- length_bytes_of_blocks, <- Hpt. apply length_pad.
  - unfold _encrypt_from_parts, aes_cbc_encrypt.
    now rewrite block_of_bytes_of_block, Hpt, blocks_of_bytes_of_blocks.
Qed.

Lemma encrypt_token_data (w w1 : world) (s t : pystr) :
  encrypt (PyStr s) w = (Ok t, w1) ->
  exists plain data,
    str_encode s = Ok plain
    /\ length data = (57 + 16 * (length plain / 16 + 1))%nat
    /\ (exists rest, data = x80 :: rest)
    /\ t = text (Base64.urlsafe_b64encode data).
Proof.
  intros Henc.
  destruct (encrypt_Ok_inv w w1 s t Henc)
    as (f & w0 & plain & token & _ & _ & _ & _ & _ & _ & Hplain & Hparts & ->).
  destruct (encrypt_from_parts_data f plain (now w0) (next_iv w0) (length_next_iv w0))
    as (ct & Hct & Hparts').
  rewrite Hparts in Hparts'. injection Hparts' as ->.
  set (basic_parts := x80 :: to_bytes8 (now w0) ++ next_iv w0 ++ ct).
  exists plain, (basic_parts ++ hmac_sha256 (_signing_key f) basic_parts).
  split; [exact Hplain|]. split; [|split; [|reflexivity]].
  - rewrite length_app, length_hmac_sha256. subst basic_parts. cbn [length].
    rewrite !length_app, length_to_bytes8, length_next_iv, Hct. lia.
  - eexists. subst basic_parts. cbn [app]. reflexivity.
Qed.

Lemma length_encode_from (s : pystr) (pos : nat) (out : bytes) :
  Utf8.encode_from s pos = Utf8.Encoded out -> (length s <= length out)%nat.
Proof.
  revert pos out. induction s as [|ch s IH]; intros pos out H; cbn [length]; [lia|].
  cbn [Utf8.encode_from] in H.
  destruct (Utf8.is_surrogate ch); [discriminate|].
  destruct (Utf8.encode_from s (S pos)) as [out'|] eqn:E; [|discriminate].
  injection H as <-. specialize (IH _ _ E). rewrite length_app.
  assert (1 <= length (Utf8.encode_char ch))%nat; [|lia].
  unfold Utf8.encode_char.
  destruct (ch <? 0x80); [cbn; lia|].
  destruct (ch <? 0x800); [cbn; lia|].
  destruct (ch <? 0x10000); cbn; lia.
Qed.

Lemma length_str_encode (s : pystr) (b : bytes) :
  str_encode s = Ok b -> (length s <= length b)%nat.
Proof.
  unfold str_encode, Utf8.encode.
  destruct (Utf8.encode_from s 0) as [out|] eqn:E; [|discriminate].
  intros [= <-]. exact (length_encode_from s 0 out E).
Qed.

(** X1: every token [encrypt] returns is a string of characters of
    the URL-safe base64 alphabet and the padding sign, it starts with [g]
    (the version byte 0x80), and its length is fixed by the length [n] of
    the UTF-8 encoding of the plaintext: four characters for every three
    of the [57 + 16 * (n / 16 + 1)] bytes of version, time, IV, padded
    ciphertext and tag. *)
Theorem X1_token_shape (w w1 : world) (s t : pystr) :
  encrypt (PyStr s) w = (Ok t, w1) ->
  exists plain,
    str_encode s = Ok plain
    /\ length t = (4 * ((57 + 16 * (length plain / 16 + 1) + 2) / 3))%nat
    /\ forallb is_urlsafe_char t = true
    /\ exists rest, t = pystr_of_string "g" ++ rest.
Proof.
  intros Henc.
  destruct (encrypt_token_data w w1 s t Henc)
    as (plain & data & Hplain & Hlen & (rest & ->) & ->).
  exists plain. split; [exact Hplain|]. split; [|split].
  - unfold text. now rewrite length_map, length_urlsafe_b64encode, Hlen.
  - apply urlsafe_b64encode_alphabet.
  - destruct rest as [|b [|c rest]]; [cbn [length] in Hlen; lia..|].
    eexists. unfold Base64.urlsafe_b64encode, text.
    cbn [Base64.b2a_base64 map app]. reflexivity.
Qed.

Lemma X1_token_shape_witness :
  exists plain,
    str_encode (pystr_of_string "some data") = Ok plain
    /\ length example_token = (4 * ((57 + 16 * (length plain / 16 + 1) + 2) / 3))%nat
    /\ forallb is_urlsafe_char example_token = true
    /\ exists rest, example_token = pystr_of_string "g" ++ rest.
Proof.
  apply (X1_token_shape example_world
           (snd (encrypt (PyStr (pystr_of_string "some data")) example_world))).
  vm_compute. reflexivity.
Defined.

(** X2: a token is at least 100 characters long and strictly longer
    than the plaintext it was made from, so [encrypt] never returns its
    argument. *)
Theorem X2_token_longer_than_plaintext (w w1 : world) (s t : pystr) :
  encrypt (PyStr s) w = (Ok t, w1) ->
  (100 <= length t)%nat /\ (length s < length t)%nat /\ t <> s.
Proof.
  intros Henc.
  destruct (encrypt_token_data w w1 s t Henc)
    as (plain & data & Hplain & Hlen & _ & ->).
  apply length_str_encode in Hplain.
  assert (Ht : length (text (Base64.urlsafe_b64encode data))
               = (4 * ((57 + 16 * (length plain / 16 + 1) + 2) / 3))%nat).
  { unfold text. now rewrite length_map, length_urlsafe_b64encode, Hlen. }
  assert (100 <= length (text (Base64.urlsafe_b64encode data))
          /\ length s < length (text (Base64.urlsafe_b64encode data)))%nat
    as [H1 H2].
  { rewrite Ht.
    pose proof (Nat.div_mod_eq (length plain) 16).
    pose proof (Nat.mod_upper_bound (length plain) 16).
    pose proof (Nat.div_mod_eq (57 + 16 * (length plain / 16 + 1) + 2) 3).
    pose proof (Nat.mod_upper_bound (57 + 16 * (length plain / 16 + 1) + 2) 3).
    lia. }
  repeat split; [exact H1|exact H2|]. intros Heq. rewrite Heq in H2. lia.
Qed.

Lemma X2_token_longer_than_plaintext_witness :
  (100 <= length example_token)%nat
  /\ (length (pystr_of_string "some data") < length example_token)%nat
  /\ example_token <> pystr_of_string "some data".
Proof.
  apply (X2_token_longer_than_plaintext example_world
           (snd (encrypt (PyStr (pystr_of_string "some data")) example_world))).
  vm_compute. reflexivity.
Defined.

(** ** What the base64 decoder steps over *)

Local Abbreviation translated s := (map Base64._urlsafe_decode_translation s).

Lemma a2b_loop_skip (b : byte) (rest : bytes) (quad_pos : nat) (leftchar : N)
    (pads : nat) :
  significant b = false ->
  Base64.a2b_loop (translated (b :: rest)) quad_pos leftchar pads
  = Base64.a2b_loop (translated rest) quad_pos leftchar pads.
Proof.
  unfold significant. cbv zeta. intros [Hpad Hval]%orb_false_iff.
  cbn [map Base64.a2b_loop]. rewrite Hpad.
  now destruct (Base64.a2b (Base64._urlsafe_decode_translation b)).
Qed.

Lemma a2b_loop_filter (s : bytes) (quad_pos : nat) (leftchar : N) (pads : nat) :
  Base64.a2b_loop (translated (List.filter significant s)) quad_pos leftchar pads
  = Base64.a2b_loop (translated s) quad_pos leftchar pads.
Proof.
  revert quad_pos leftchar pads.
  induction s as [|b s IH]; intros quad_pos leftchar pads; [reflexivity|].
  cbn [List.filter]. destruct (significant b) eqn:Hb.
  - cbn [map Base64.a2b_loop].
    destruct (byte_eqb _ Base64.BASE64_PAD).
    + destruct (2 <=? quad_pos)%nat; [|apply IH].
      destruct (4 <=? quad_pos + S pads)%nat; [reflexivity|apply IH].
    + destruct (Base64.a2b _); [|apply IH].
      destruct quad_pos as [|[|[|?]]]; now rewrite IH.
  - now rewrite a2b_loop_skip.
Qed.

Lemma urlsafe_b64decode_filter (s : bytes) :
  Base64.urlsafe_b64decode (List.filter significant s) = Base64.urlsafe_b64decode s.
Proof. apply a2b_loop_filter. Qed.

Lemma high_byte_insignificant (b : byte) :
  (Byte.to_N b <? 0x80) || negb (significant b) = true.
Proof. revert b. byte_check. Qed.

Lemma filter_none {A} (f : A -> bool) (l : list A) :
  forallb (fun x => negb (f x)) l = true -> List.filter f l = [].
Proof.
  induction l as [|x l IH]; [reflexivity|].
  cbn [forallb List.filter]. intros [Hx Hl]%andb_true_iff.
  apply negb_true_iff in Hx. rewrite Hx. now apply IH.
Qed.

Lemma high_insignificant (n : N) :
  128 <= n -> n < 256 -> negb (significant (byte_of_N n)) = true.
Proof.
  intros Hlo Hhi. pose proof (high_byte_insignificant (byte_of_N n)) as H.
  rewrite to_of_N_byte in H. replace (n mod 256) with n in H by dlia.
  destruct (N.ltb_spec n 0x80); [lia|exact H].
Qed.

Lemma cont_insignificant (n : N) : negb (significant (Utf8.cont n)) = true.
Proof.
  pose proof (high_byte_insignificant (Utf8.cont n)) as H.
  rewrite cont_to_N in H.
  destruct (N.ltb_spec (128 + n mod 64) 0x80); [dlia|exact H].
Qed.

(** The bytes the decoder reads of the encoding of one character. *)
Lemma filter_encode_char (ch : N) :
  ch <= 0x10FFFF ->
  List.filter significant (Utf8.encode_char ch)
  = if is_base64_symbol ch then [byte_of_N ch] else [].
Proof.
  intros Hmax. unfold is_base64_symbol, Utf8.encode_char.
  destruct (N.ltb_spec ch 0x80) as [H1|H1].
  { cbn [List.filter andb]. now destruct (significant (byte_of_N ch)). }
  cbn [andb]. apply filter_none.
  destruct (N.ltb_spec ch 0x800) as [H2|H2];
    [|destruct (N.ltb_spec ch 0x10000) as [H3|H3]];
    cbn [forallb]; rewrite ?cont_insignificant, ?andb_true_r;
    rewrite N.shiftr_div_pow2.
  - change (2 ^ 6) with 64.
    pose proof (lead2_to_N (ch / 64)) as H.
    pose proof (high_byte_insignificant (byte_of_N (N.lor 0xc0 (ch / 64)))) as Hb.
    rewrite H in Hb by dlia.
    destruct (N.ltb_spec (192 + ch / 64) 0x80); [dlia|exact Hb].
  - change (2 ^ 12) with 4096.
    pose proof (lead3_to_N (ch / 4096)) as H.
    pose proof (high_byte_insignificant (byte_of_N (N.lor 0xe0 (ch / 4096)))) as Hb.
    rewrite H in Hb by dlia.
    destruct (N.ltb_spec (224 + ch / 4096) 0x80); [dlia|exact Hb].
  - change (2 ^ 18) with 262144.
    pose proof (lead4_to_N (ch / 262144)) as H.
    pose proof (high_byte_insignificant (byte_of_N (N.lor 0xf0 (ch / 262144)))) as Hb.
    rewrite H in Hb by dlia.
    destruct (N.ltb_spec (240 + ch / 262144) 0x80); [dlia|exact Hb].
Qed.

Lemma encodable_filter (f : N -> bool) (s : pystr) :
  Utf8.encodable s = true -> Utf8.encodable (List.filter f s) = true.
Proof.
  unfold Utf8.encodable. induction s as [|ch s IH]; [reflexivity|].
  cbn [forallb List.filter]. intros [Hch Hs]%andb_true_iff.
  destruct (f ch); [cbn [forallb]; rewrite Hch|]; now apply IH.
Qed.

Lemma str_encode_scalar (s : pystr) :
  Utf8.encodable s = true -> str_encode s = Ok (flat_map Utf8.encode_char s).
Proof. intros Hs. unfold str_encode, Utf8.encode. now rewrite encode_from_scalar. Qed.

Lemma filter_flat_map_encode_char (s : pystr) :
  Utf8.encodable s = true ->
  List.filter significant (flat_map Utf8.encode_char s)
  = map byte_of_N (List.filter is_base64_symbol s).
Proof.
  induction s as [|ch s IH]; [reflexivity|].
  cbn [Utf8.encodable forallb]. intros [Hch Hs]%andb_true_iff.
  unfold Utf8.is_scalar in Hch. apply andb_true_iff in Hch as [Hmax _].
  apply N.leb_le in Hmax.
  cbn [flat_map List.filter]. rewrite List.filter_app, filter_encode_char, IH by assumption.
  now destruct (is_base64_symbol ch).
Qed.

Lemma encode_base64_symbols (s : pystr) :
  forallb is_base64_symbol s = true ->
  flat_map Utf8.encode_char s = map byte_of_N s.
Proof.
  induction s as [|ch s IH]; [reflexivity|].
  cbn [forallb flat_map map]. intros [Hch Hs]%andb_true_iff.
  rewrite IH by exact Hs. unfold is_base64_symbol in Hch.
  apply andb_true_iff in Hch as [Hlt _]. unfold Utf8.encode_char. now rewrite Hlt.
Qed.

Lemma forallb_filter {A} (f : A -> bool) (l : list A) :
  forallb f (List.filter f l) = true.
Proof.
  induction l as [|x l IH]; [reflexivity|].
  cbn [List.filter]. destruct (f x) eqn:Hx; [cbn [forallb]; now rewrite Hx|exact IH].
Qed.

(** The decoder sees the same in a string and in its base64 symbols. *)
Lemma token_data_filter (t : pystr) :
  Utf8.encodable t = true ->
  exists token token',
    str_encode t = Ok token
    /\ str_encode (List.filter is_base64_symbol t) = Ok token'
    /\ length token' = length (List.filter is_base64_symbol t)
    /\ Base64.urlsafe_b64decode token' = Base64.urlsafe_b64decode token.
Proof.
  intros Ht.
  exists (flat_map Utf8.encode_char t),
         (flat_map Utf8.encode_char (List.filter is_base64_symbol t)).
  split; [now apply str_encode_scalar|].
  split; [now apply str_encode_scalar, encodable_filter|].
  rewrite (encode_base64_symbols (List.filter is_base64_symbol t)) by apply forallb_filter.
  split; [apply length_map|].
  rewrite <- (urlsafe_b64decode_filter (flat_map Utf8.encode_char t)).
  now rewrite filter_flat_map_encode_char.
Qed.

Lemma get_fernet_Ok_Some (w w1 : world) (r : option Fernet) :
  _get_fernet w = (Ok r, w1) -> exists f, r = Some f.
Proof. intros Hg. destruct (get_fernet_returns w w1 r Hg) as (f & -> & _). eauto. Qed.

(** X5: [decrypt] ignores every character of its argument that is
    not a base64 symbol ([A-Z a-z 0-9 + / - _ =]): spaces, line breaks,
    other punctuation and all non-ASCII characters.  For a string of
    Unicode scalar values, the call behaves exactly as on the string with
    those characters removed, result and final state alike. *)
Theorem X5_decrypt_ignores_other_characters (w : world) (t : pystr) :
  Utf8.encodable t = true ->
  decrypt (PyStr t) w = decrypt (PyStr (List.filter is_base64_symbol t)) w.
Proof.
  intros Ht.
  destruct (_get_fernet w) as [[r|e] w1] eqn:Hg.
  - destruct (get_fernet_Ok_Some w w1 r Hg) as [f ->].
    destruct (token_data_filter t Ht) as (token & token' & He & He' & _ & Hd).
    rewrite !(decrypt_unfold w w1 f _ Hg), He, He'.
    now rewrite (Fernet_decrypt_same_data f token token' Hd).
  - now rewrite !(decrypt_get_fernet_fails w w1 e _ Hg).
Qed.

Lemma X5_decrypt_ignores_other_characters_witness :
  decrypt (PyStr wrapped_token) example_world_after_encrypt
  = decrypt (PyStr (List.filter is_base64_symbol wrapped_token))
      example_world_after_encrypt.
Proof.
  apply (X5_decrypt_ignores_other_characters example_world_after_encrypt wrapped_token).
  vm_compute. reflexivity.
Defined.

(** ** Tokens that end in padding *)

Lemma urlsafe_b64decode_padded_prefix (bin junk : bytes) :
  (length bin mod 3 <> 0)%nat ->
  Base64.urlsafe_b64decode (Base64.urlsafe_b64encode bin ++ junk)
  = Base64.Decoded bin.
Proof.
  unfold Base64.urlsafe_b64decode, Base64.urlsafe_b64encode, Base64.a2b_base64.
  induction bin as [|a|a b|a b c l IH] using list_ind3; intros Hlen.
  - now cbn in Hlen.
  - cbn [Base64.b2a_base64 map app]. apply a2b_loop_last1.
  - cbn [Base64.b2a_base64 map app]. apply a2b_loop_last2.
  - cbn [Base64.b2a_base64 map app]. rewrite a2b_loop_quad, IH; [reflexivity|].
    cbn [length] in Hlen.
    replace (S (S (S (length l)))) with (length l + 1 * 3)%nat in Hlen by lia.
    now rewrite Nat.Div0.mod_add in Hlen.
Qed.

Lemma sextet_not_pad (n : N) :
  reads_as n = true ->
  Base64._urlsafe_encode_translation (Base64.b2a n) <> Base64.BASE64_PAD.
Proof.
  intros [Hpad _]%reads_as_spec Heq. rewrite Heq in Hpad. discriminate.
Qed.

(** An encoding without padding holds no padding sign. *)
Lemma urlsafe_b64encode_no_pad (bin : bytes) :
  (length bin mod 3 = 0)%nat ->
  ~ In Base64.BASE64_PAD (Base64.urlsafe_b64encode bin).
Proof.
  unfold Base64.urlsafe_b64encode.
  induction bin as [|a|a b|a b c l IH] using list_ind3; intros Hlen;
    [now intros []|discriminate|discriminate|].
  cbn [length] in Hlen.
  replace (S (S (S (length l)))) with (length l + 1 * 3)%nat in Hlen by lia.
  rewrite Nat.Div0.mod_add in Hlen. specialize (IH Hlen).
  cbn [Base64.b2a_base64 map].
  pose proof (b64_char0 a) as H0.
  pose proof (b64_char1 a b) as H1. cbv zeta in H1.
  apply andb_true_iff in H1 as [H1 _]. apply andb_true_iff in H1 as [H1 _].
  pose proof (b64_char2 b c) as H2. cbv zeta in H2.
  apply andb_true_iff in H2 as [H2 _]. apply andb_true_iff in H2 as [H2 _].
  pose proof (b64_char3 c) as H3. cbv zeta in H3.
  apply andb_true_iff in H3 as [H3 _].
  intros [E|[E|[E|[E|E]]]]; [| | | |exact (IH E)];
    [exact (sextet_not_pad _ H0 E)|exact (sextet_not_pad _ H1 E)
    |exact (sextet_not_pad _ H2 E)|exact (sextet_not_pad _ H3 E)].
Qed.

Lemma last_of_map {A B} (f : A -> B) (l : list A) (d : A) :
  List.last (map f l) (f d) = f (List.last l d).
Proof.
  induction l as [|x [|y l] IH]; [reflexivity..|]. exact IH.
Qed.

Lemma last_In {A} (l : list A) (d : A) : l <> [] -> In (List.last l d) l.
Proof.
  induction l as [|x [|y l] IH]; intros Hne; [congruence|now left|].
  right. apply IH. discriminate.
Qed.

Lemma ends_with_pad (bin : bytes) :
  List.last (text (Base64.urlsafe_b64encode bin)) 0 = 61 -> (length bin mod 3 <> 0)%nat.
Proof.
  intros Hlast Hlen. apply (urlsafe_b64encode_no_pad bin Hlen).
  unfold text in Hlast.
  destruct (Base64.urlsafe_b64encode bin) as [|x l] eqn:E.
  { cbn in Hlast. discriminate. }
  rewrite <- E in *.
  assert (Hne : Base64.urlsafe_b64encode bin <> []) by (rewrite E; discriminate).
  change 0 with (Byte.to_N x00) in Hlast. rewrite last_of_map in Hlast.
  change 61 with (Byte.to_N Base64.BASE64_PAD) in Hlast. apply to_N_inj in Hlast.
  rewrite <- Hlast. now apply last_In.
Qed.

Lemma encodable_app (a b : pystr) :
  Utf8.encodable a = true -> Utf8.encodable b = true ->
  Utf8.encodable (a ++ b) = true.
Proof. unfold Utf8.encodable. intros Ha Hb. now rewrite forallb_app, Ha, Hb. Qed.

Lemma ascii_scalar (b : byte) :
  Utf8.is_ascii b = true -> Utf8.is_scalar (Byte.to_N b) = true.
Proof.
  unfold Utf8.is_ascii, Utf8.is_scalar, Utf8.is_surrogate. intros H%N.ltb_lt.
  apply andb_true_iff. split; [apply N.leb_le; lia|].
  apply negb_true_iff, andb_false_iff. left. apply N.leb_gt. lia.
Qed.

Lemma text_encodable (b : bytes) :
  forallb Utf8.is_ascii b = true -> Utf8.encodable (text b) = true.
Proof.
  unfold Utf8.encodable, text. induction b as [|c b IH]; [reflexivity|].
  cbn [forallb map]. intros [Hc Hb]%andb_true_iff.
  now rewrite ascii_scalar, IH.
Qed.

Lemma str_encode_app (a b : pystr) :
  Utf8.encodable a = true -> Utf8.encodable b = true ->
  str_encode (a ++ b)
  = Ok (flat_map Utf8.encode_char a ++ flat_map Utf8.encode_char b).
Proof.
  intros Ha Hb. rewrite str_encode_scalar by now apply encodable_app.
  now rewrite flat_map_app.
Qed.

Lemma flat_map_encode_text (b : bytes) :
  forallb Utf8.is_ascii b = true -> flat_map Utf8.encode_char (text b) = b.
Proof.
  intros Hb. pose proof (str_encode_ascii b Hb) as H.
  fold (text b) in H. rewrite str_encode_scalar in H by now apply text_encodable.
  now injection H.
Qed.

(** X6: when a token ends in the padding sign [=], [decrypt] reads
    nothing after it: any text appended to the token is ignored, and the
    call behaves as on the token itself. *)
Theorem X6_decrypt_ignores_text_after_padding (w w1 w2 : world) (s t x : pystr) :
  encrypt (PyStr s) w = (Ok t, w1) ->
  List.last t 0 = 61 ->
  Utf8.encodable x = true ->
  decrypt (PyStr (t ++ x)) w2 = decrypt (PyStr t) w2.
Proof.
  intros Henc Hlast Hx.
  destruct (encrypt_token_data w w1 s t Henc) as (plain & data & _ & _ & _ & ->).
  apply ends_with_pad in Hlast.
  pose proof (urlsafe_b64encode_ascii data) as Hascii.
  destruct (_get_fernet w2) as [[r|e] w3] eqn:Hg.
  - destruct (get_fernet_Ok_Some w2 w3 r Hg) as [f ->].
    rewrite !(decrypt_unfold w2 w3 f _ Hg).
    rewrite str_encode_app by (try apply text_encodable; assumption).
    rewrite flat_map_encode_text by exact Hascii.
    unfold text. rewrite str_encode_ascii by exact Hascii.
    rewrite (Fernet_decrypt_same_data f (Base64.urlsafe_b64encode data)
               (Base64.urlsafe_b64encode data ++ flat_map Utf8.encode_char x));
      [reflexivity|].
    now rewrite urlsafe_b64decode_padded_prefix, urlsafe_b64_roundtrip.
  - now rewrite !(decrypt_get_fernet_fails w2 w3 e _ Hg).
Qed.

Lemma X6_decrypt_ignores_text_after_padding_witness :
  decrypt (PyStr (example_token ++ pystr_of_string "anything at all"))
    example_world_after_encrypt
  = decrypt (PyStr example_token) example_world_after_encrypt.
Proof.
  apply (X6_decrypt_ignores_text_after_padding example_world
           example_world_after_encrypt example_world_after_encrypt
           (pystr_of_string "some data"));
    vm_compute; reflexivity.
Defined.

(** ** Strings too short to be tokens *)

Lemma emit_Decoded (b : byte) (r : Base64.decoded) (out : bytes) :
  Base64.emit b r = Base64.Decoded out ->
  exists out', r = Base64.Decoded out' /\ out = b :: out'.
Proof. destruct r as [out'|]; [|discriminate]. intros [= <-]. eauto. Qed.

(** Three bytes come out of four symbols: with [quad_pos] symbols of
    the current quad read, the bytes still to come and the ones of this
    quad already written are at most three per quad. *)
Lemma a2b_loop_length (ascii : bytes) (quad_pos : nat) (leftchar : N) (pads : nat)
    (out : bytes) :
  (quad_pos <= 3)%nat ->
  Base64.a2b_loop ascii quad_pos leftchar pads = Base64.Decoded out ->
  (length out + (quad_pos - 1) <= 3 * ((length ascii + quad_pos + pads) / 4))%nat.
Proof.
  revert quad_pos leftchar pads out.
  induction ascii as [|c ascii IH]; intros quad_pos leftchar pads out Hq H.
  - cbn [Base64.a2b_loop] in H.
    destruct quad_pos as [|[|?]]; [|discriminate..]. injection H as <-. cbn. lia.
  - assert (Hmono : forall (out' : bytes) (p' : nat),
              (length out' + (quad_pos - 1)
               <= 3 * ((length ascii + quad_pos + p') / 4))%nat ->
              (p' <= S pads)%nat ->
              (length out' + (quad_pos - 1)
               <= 3 * ((length (c :: ascii) + quad_pos + pads) / 4))%nat).
    { intros out' p' Hle Hp. cbn [length].
      assert ((length ascii + quad_pos + p') / 4
              <= (S (length ascii) + quad_pos + pads) / 4)%nat
        by (apply Nat.Div0.div_le_mono; lia).
      lia. }
    cbn [Base64.a2b_loop] in H.
    destruct (byte_eqb c Base64.BASE64_PAD).
    + destruct (2 <=? quad_pos)%nat eqn:H2.
      * destruct (4 <=? quad_pos + S pads)%nat eqn:H4.
        -- injection H as <-. apply Nat.leb_le in H4. cbn [length].
           assert (1 <= (S (length ascii) + quad_pos + pads) / 4)%nat; [|lia].
           apply Nat.div_le_lower_bound; lia.
        -- apply IH in H; [|exact Hq]. apply (Hmono out (S pads)); [exact H|lia].
      * apply IH in H; [|exact Hq]. apply (Hmono out pads); [exact H|lia].
    + destruct (Base64.a2b c) as [v|].
      2:{ apply IH in H; [|exact Hq]. apply (Hmono out pads); [exact H|lia]. }
      destruct quad_pos as [|[|[|q]]].
      * apply IH in H; [|lia]. cbn [length Nat.sub] in *.
        assert ((length ascii + 1 + 0) / 4 <= (S (length ascii) + 0 + pads) / 4)%nat
          by (apply Nat.Div0.div_le_mono; lia).
        lia.
      * apply emit_Decoded in H as (out' & H & ->). apply IH in H; [|lia].
        cbn [length Nat.sub] in *.
        assert ((length ascii + 2 + 0) / 4 <= (S (length ascii) + 1 + pads) / 4)%nat
          by (apply Nat.Div0.div_le_mono; lia).
        lia.
      * apply emit_Decoded in H as (out' & H & ->). apply IH in H; [|lia].
        cbn [length Nat.sub] in *.
        assert ((length ascii + 3 + 0) / 4 <= (S (length ascii) + 2 + pads) / 4)%nat
          by (apply Nat.Div0.div_le_mono; lia).
        lia.
      * assert (q = O) by lia. subst q.
        apply emit_Decoded in H as (out' & H & ->). apply IH in H; [|lia].
        cbn [length Nat.sub] in *.
        assert ((length ascii + 0 + 0) / 4 + 1 <= (S (length ascii) + 3 + pads) / 4)%nat.
        { replace (S (length ascii) + 3 + pads)%nat
            with (length ascii + pads + 1 * 4)%nat by lia.
          rewrite Nat.div_add by discriminate.
          assert ((length ascii + 0 + 0) / 4 <= (length ascii + pads) / 4)%nat
            by (apply Nat.Div0.div_le_mono; lia).
          lia. }
        lia.
Qed.

Lemma urlsafe_b64decode_length (s out : bytes) :
  Base64.urlsafe_b64decode s = Base64.Decoded out ->
  (length out <= 3 * (length s / 4))%nat.
Proof.
  unfold Base64.urlsafe_b64decode, Base64.a2b_base64. intros H.
  apply a2b_loop_length in H; [|lia]. rewrite length_map in H.
  now rewrite !Nat.add_0_r in H.
Qed.

Lemma blocks_of_bytes_length (l : bytes) (bs : list Aes.block) :
  Aes.blocks_of_bytes l = Some bs -> length l = (16 * length bs)%nat.
Proof.
  revert l. induction bs as [|b bs IH]; intros l H.
  - destruct l as [|? l]; [reflexivity|]. exfalso.
    do 15 (destruct l as [|? l]; [discriminate|]).
    cbn [Aes.blocks_of_bytes] in H. destruct (Aes.blocks_of_bytes l); discriminate.
  - destruct l as [|? l]; [discriminate|].
    do 15 (destruct l as [|? l]; [discriminate|]).
    cbn [Aes.blocks_of_bytes] in H.
    destruct (Aes.blocks_of_bytes l) as [bs'|] eqn:E; [|discriminate].
    injection H as _ <-. cbn [length]. rewrite (IH l E). lia.
Qed.

Lemma length_cbc_decrypt (ks : list Aes.block) (iv : Aes.block) (ct : list Aes.block) :
  length (Aes.cbc_decrypt ks iv ct) = length ct.
Proof.
  revert iv. induction ct as [|c ct IH]; intros iv; [reflexivity|].
  cbn [Aes.cbc_decrypt length]. now rewrite IH.
Qed.

(** A plaintext comes only out of 73 bytes or more: version, time, IV,
    one block of ciphertext at least, and the tag. *)
Lemma decrypt_data_length (f : Fernet) (data plain : bytes) :
  _decrypt_data f data = Ok plain -> (73 <= length data)%nat.
Proof.
  unfold _decrypt_data, _verify_signature.
  destruct (signature_ok f data); cbn [rbind]; [|discriminate].
  destruct (Aes.block_of_bytes _) as [iv0|]; [|discriminate].
  set (ct := firstn (length data - 32 - 25) (skipn 25 data)).
  assert (Hct : (length ct <= length data - 57)%nat).
  { subst ct. rewrite length_firstn, length_skipn. lia. }
  unfold aes_cbc_decrypt.
  destruct (Aes.block_of_bytes _); [|discriminate].
  destruct (Aes.blocks_of_bytes ct) as [cts|] eqn:Hcts; [|discriminate].
  apply blocks_of_bytes_length in Hcts.
  destruct cts as [|c cts].
  - cbn. discriminate.
  - intros _. cbn [length] in Hcts. lia.
Qed.

Lemma Fernet_decrypt_short (f : Fernet) (token : bytes) :
  (length token < 100)%nat -> Fernet_decrypt_pure f token = Raise InvalidToken.
Proof.
  intros Hlen.
  destruct (Fernet_decrypt_pure f token) as [plain|e] eqn:H.
  - exfalso. unfold Fernet_decrypt_pure, _get_unverified_token_data in H.
    destruct (Base64.urlsafe_b64decode token) as [data|] eqn:Hd; [|discriminate].
    apply urlsafe_b64decode_length in Hd.
    assert (length data <= 72)%nat.
    { assert (length token / 4 < 25)%nat; [|lia].
      apply Nat.Div0.div_lt_upper_bound. lia. }
    destruct data as [|b0 data']; [discriminate|].
    destruct (negb (byte_eqb b0 x80)); [discriminate|].
    destruct (length (b0 :: data') <? 9)%nat; [discriminate|].
    cbn [rbind] in H. apply decrypt_data_length in H. lia.
  - now apply Fernet_decrypt_raises in H as ->.
Qed.

Lemma length_filter_le {A} (f : A -> bool) (l : list A) :
  (length (List.filter f l) <= length l)%nat.
Proof.
  induction l as [|x l IH]; [reflexivity|].
  cbn [List.filter]. destruct (f x); cbn [length]; lia.
Qed.

(** X9: no string of fewer than 100 characters is a token.  With
    the instance at hand, [decrypt] raises the tampered-or-invalid-token
    error on every such string of Unicode scalar values, the empty string
    included, whatever the key. *)
Theorem X9_decrypt_rejects_short_strings (w w1 : world) (f : Fernet) (t : pystr) :
  _get_fernet w = (Ok (Some f), w1) ->
  Utf8.encodable t = true ->
  (length t < 100)%nat ->
  decrypt (PyStr t) w = (Raise tampered_or_invalid_token, after_decrypt w1).
Proof.
  intros Hg Ht Hlen.
  destruct (token_data_filter t Ht) as (token & token' & He & _ & Hlen' & Hd).
  rewrite (decrypt_unfold w w1 f t Hg), He.
  rewrite <- (Fernet_decrypt_same_data f token token' Hd).
  rewrite Fernet_decrypt_short; [reflexivity|].
  pose proof (length_filter_le is_base64_symbol t). lia.
Qed.

Lemma X9_decrypt_rejects_short_strings_witness :
  decrypt (PyStr (pystr_of_string "gAAAAABm_...")) example_world
  = (Raise tampered_or_invalid_token,
     after_decrypt (snd (_get_fernet example_world))).
Proof.
  apply (X9_decrypt_rejects_short_strings example_world
           (snd (_get_fernet example_world)) example_fernet);
    vm_compute; (reflexivity || lia).
Defined.

(** ** Payloads that are not text *)

(** X7: a token the cached instance accepts but whose payload is
    not valid UTF-8 (made by another user of the same key) makes
    [decrypt] raise [UnicodeDecodeError], which the [except InvalidToken]
    clause lets through: not every failure of [decrypt] on a string
    carries one of the module's three messages. *)
Theorem X7_decrypt_binary_payload (w w1 : world) (f : Fernet) (data : bytes)
    (current_time : N) (iv : bytes) :
  _get_fernet w = (Ok (Some f), w1) ->
  length iv = 16%nat ->
  Utf8.decode data = None ->
  exists token,
    _encrypt_from_parts f data current_time iv = Ok token
    /\ decrypt (PyStr (text token)) w
       = (Raise (UnicodeDecodeError "utf-8" data), after_decrypt w1).
Proof.
  intros Hg Hiv Hdata.
  destruct (fernet_token f data current_time iv Hiv)
    as (token & Henc & Hascii & Hdec & _).
  exists token. split; [exact Henc|].
  rewrite (decrypt_unfold w w1 f _ Hg). unfold text.
  rewrite str_encode_ascii, Hdec by exact Hascii.
  unfold bytes_decode. now rewrite Hdata.
Qed.

Lemma X7_decrypt_binary_payload_witness :
  exists token,
    _encrypt_from_parts example_fernet binary_payload
      (now example_world) (next_iv example_world) = Ok token
    /\ decrypt (PyStr (text token)) example_world
       = (Raise (UnicodeDecodeError "utf-8" binary_payload),
          after_decrypt (snd (_get_fernet example_world))).
Proof.
  apply (X7_decrypt_binary_payload example_world (snd (_get_fernet example_world))
           example_fernet);
    vm_compute; reflexivity.
Defined.

(** ** An empty master key *)

(** X8: a master key set to the empty string is treated as no key
    at all: with no instance cached, [encrypt] and [decrypt] raise the
    missing-master-key error ("not set"), not the invalid-key error, and
    cache nothing. *)
Theorem X8_empty_master_key_is_missing (w : world) (s : pystr) :
  _fernet_instance w = None ->
  environ w !! APP_MASTER_KEY = Some [] ->
  encrypt (PyStr s) w
  = (Raise missing_master_key, set_trace (Getenv APP_MASTER_KEY :: trace w) w)
  /\ decrypt (PyStr s) w
     = (Raise missing_master_key, set_trace (Getenv APP_MASTER_KEY :: trace w) w).
Proof.
  intros Hi Hk. pose proof (get_fernet_missing w Hi (or_intror Hk)) as Hg.
  split;
    [apply (encrypt_get_fernet_fails w _ _ s Hg)
    |apply (decrypt_get_fernet_fails w _ _ s Hg)].
Qed.

Lemma X8_empty_master_key_is_missing_witness :
  encrypt (PyStr (pystr_of_string "some data")) empty_key_world
  = (Raise missing_master_key,
     set_trace (Getenv APP_MASTER_KEY :: trace empty_key_world) empty_key_world)
  /\ decrypt (PyStr example_token) empty_key_world
     = (Raise missing_master_key,
        set_trace (Getenv APP_MASTER_KEY :: trace empty_key_world) empty_key_world).
Proof.
  split;
    apply (X8_empty_master_key_is_missing empty_key_world); reflexivity.
Defined.

(** ** Every way a call can fail *)

(** X10: every exception [encrypt] or [decrypt] raises is a
    [TypeError] (exactly when the argument is not a string) or an instance
    of [ValueError] (when it is): the module's own three errors or a codec
    error, whose classes derive from [ValueError].  The library's
    [InvalidToken] and an [AttributeError] on the instance never reach the
    caller, so [except (ValueError, TypeError)] catches every failure. *)
Theorem X10_every_error_is_ValueError_or_TypeError (v : value) (w w' : world)
    (e : exn) :
  encrypt v w = (Raise e, w') \/ decrypt v w = (Raise e, w') ->
  (if isinstance_str v then isinstance_exn e [cls_ValueError] = true
   else class_of e = cls_TypeError)
  /\ isinstance_exn e [cls_ValueError; cls_TypeError] = true
  /\ e <> InvalidToken /\ (forall msg, e <> AttributeError msg).
Proof.
  intros Hcall.
  assert (H : if isinstance_str v then isinstance_exn e [cls_ValueError] = true
              else class_of e = cls_TypeError).
  { destruct (isinstance_str v) eqn:Hv.
    2:{ destruct (non_text_rejected v w Hv) as [H1 H2]. rewrite H1, H2 in Hcall.
        now destruct Hcall as [[= <- <-]|[= <- <-]]. }
    destruct v as [| | |t| |]; try discriminate. clear Hv.
    destruct (_get_fernet w) as [[r|e0] w1] eqn:Hg.
    - destruct (get_fernet_Ok_Some w w1 r Hg) as [f ->].
      destruct Hcall as [Henc|Hdec].
      + destruct (encrypt_cached_cases w w1 f t Hg) as [(? & H & _)|(? & ? & H)];
          rewrite H in Henc; [discriminate|]. now injection Henc as <- <-.
      + destruct (decrypt_cached_cases w w1 f t Hg)
          as [(? & H)|[H|[(? & H)|(? & ? & H)]]];
          rewrite H in Hdec; [discriminate|..]; now injection Hdec as <- <-.
    - destruct (get_fernet_raises w w1 e0 Hg) as ([->|[d ->]] & _);
        (destruct Hcall as [Hc|Hc];
         [rewrite (encrypt_get_fernet_fails w w1 _ t Hg) in Hc
         |rewrite (decrypt_get_fernet_fails w w1 _ t Hg) in Hc];
         now injection Hc as <- <-). }
  split; [exact H|].
  destruct (isinstance_str v); destruct e; try discriminate;
    repeat split; try reflexivity; intros; discriminate.
Qed.

Lemma X10_every_error_is_ValueError_or_TypeError_witness :
  let e := UnicodeEncodeError "utf-8" [0xD800] 0 1 "surrogates not allowed" in
  (if isinstance_str (PyStr [0xD800]) then isinstance_exn e [cls_ValueError] = true
   else class_of e = cls_TypeError)
  /\ isinstance_exn e [cls_ValueError; cls_TypeError] = true
  /\ e <> InvalidToken /\ (forall msg, e <> AttributeError msg).
Proof.
  intros e.
  apply (X10_every_error_is_ValueError_or_TypeError (PyStr [0xD800]) example_world
           (snd (encrypt (PyStr [0xD800]) example_world)) e).
  left. vm_compute. reflexivity.
Defined.

(** ** Tokens over time, across states and across processes *)

(** X3: a token stays good for the life of the process.  After
    [encrypt(s)] returned the token, whatever the process does next (more
    calls with any arguments, setting, changing or removing
    [APP_MASTER_KEY], any time passing), [decrypt] of the token returns
    [s]: tokens do not expire and a later change of the key in the
    environment does not reach the cached instance. *)
Theorem X3_token_outlives_changes (w w1 : world) (s t : pystr) (acts : list action) :
  encrypt (PyStr s) w = (Ok t, w1) ->
  Utf8.encodable s = true ->
  decrypt (PyStr t) (run acts w1) = (Ok s, after_decrypt (run acts w1)).
Proof.
  intros Henc Hs.
  destruct (encrypt_gives_token w w1 s t Henc)
    as (f & plain & token & _ & Hi & -> & Hascii & Hplain & Hdec & _).
  destruct (str_encode_decode s Hs) as (plain' & Hplain' & Hback).
  assert (plain' = plain) by congruence. subst plain'.
  destruct (run_cached acts w1 f Hi) as [Hi' _].
  exact (decrypt_returns (run acts w1) f token plain s Hi' Hascii Hdec Hback).
Qed.

Lemma X3_token_outlives_changes_witness :
  let acts := [Unsetenv APP_MASTER_KEY; Sleep 1000000000;
               Call_decrypt (PyStr (pystr_of_string "gAAAAABm_..."));
               Putenv APP_MASTER_KEY noncanonical_key;
               Call_encrypt (PyStr (pystr_of_string "other data"))] in
  decrypt (PyStr example_token) (run acts example_world_after_encrypt)
  = (Ok (pystr_of_string "some data"),
     after_decrypt (run acts example_world_after_encrypt)).
Proof.
  intros acts.
  apply (X3_token_outlives_changes example_world example_world_after_encrypt);
    vm_compute; reflexivity.
Defined.

(** X4: tokens carry over between processes.  If two processes are
    configured with the same valid master key, a token [encrypt] returns
    in one is decrypted to the original string by the other, whatever
    their clocks, random sources and histories: what is stored encrypted
    can be read back after a restart. *)
Theorem X4_token_portable (w w' : world) (key s : pystr) :
  environ w !! APP_MASTER_KEY = Some key ->
  environ w' !! APP_MASTER_KEY = Some key ->
  is_valid_master_key key = true ->
  _fernet_instance w = None -> _fernet_instance w' = None ->
  Utf8.encodable s = true ->
  exists t w1,
    encrypt (PyStr s) w = (Ok t, w1)
    /\ fst (decrypt (PyStr t) w') = Ok s.
Proof.
  intros Hk Hk' Hkey Hi Hi' Hs.
  destruct (valid_master_key_accepted key Hkey) as (Hne & b & f & Hb & Hf).
  pose proof (get_fernet_init w key b f Hi Hk Hne Hb Hf) as Hg.
  pose proof (get_fernet_init w' key b f Hi' Hk' Hne Hb Hf) as Hg'.
  destruct (encrypt_returns w _ f s Hg Hs)
    as (plain & token & _ & Hback & _ & Hascii & Hdec & Henc).
  eexists _, _. split; [exact Henc|].
  rewrite (decrypt_unfold w' _ f _ Hg'). unfold text.
  now rewrite str_encode_ascii, Hdec, Hback.
Qed.

Lemma X4_token_portable_witness :
  exists t w1,
    encrypt (PyStr (pystr_of_string "some data")) example_world = (Ok t, w1)
    /\ fst (decrypt (PyStr t) second_world) = Ok (pystr_of_string "some data").
Proof.
  apply (X4_token_portable example_world second_world example_key);
    vm_compute; reflexivity.
Defined.

(** X13: under one instance a token stands for one plaintext: if
    [encrypt] returned the same token for two strings of Unicode scalar
    values, in states that hold the same instance, the strings are
    equal. *)
Theorem X13_token_determines_plaintext (w w1 w' w1' : world) (s s' t : pystr) :
  encrypt (PyStr s) w = (Ok t, w1) ->
  encrypt (PyStr s') w' = (Ok t, w1') ->
  _fernet_instance w1 = _fernet_instance w1' ->
  Utf8.encodable s = true -> Utf8.encodable s' = true ->
  s = s'.
Proof.
  intros Henc Henc' Hsame Hs Hs'.
  destruct (encrypt_gives_token w w1 s t Henc)
    as (f & plain & token & _ & Hi & Ht & _ & Hplain & Hdec & _).
  destruct (encrypt_gives_token w' w1' s' t Henc')
    as (f' & plain' & token' & _ & Hi' & Ht' & _ & Hplain' & Hdec' & _).
  assert (f' = f) by congruence. subst f'.
  assert (token' = token) by (apply text_inj; congruence). subst token'.
  assert (plain' = plain) by congruence. subst plain'.
  destruct (str_encode_decode s Hs) as (p & Hp & Hback).
  destruct (str_encode_decode s' Hs') as (p' & Hp' & Hback').
  congruence.
Qed.

Lemma X13_token_determines_plaintext_witness :
  pystr_of_string "some data" = pystr_of_string "some data".
Proof.
  apply (X13_token_determines_plaintext example_world example_world_after_encrypt
           example_world example_world_after_encrypt
           (pystr_of_string "some data") (pystr_of_string "some data")
           example_token);
    vm_compute; reflexivity.
Defined.

(** ** What a call leaves alone *)

Lemma get_fernet_frame (w : world) :
  environ (snd (_get_fernet w)) = environ w
  /\ clock (snd (_get_fernet w)) = clock w
  /\ entropy (snd (_get_fernet w)) = entropy w
  /\ entropy_pos (snd (_get_fernet w)) = entropy_pos w.
Proof.
  pose proof (get_fernet_cases w) as Hc.
  destruct (_get_fernet w) as [r w1]. now inversion Hc; subst.
Qed.

(** X11: [encrypt] and [decrypt] never write to [os.environ] and
    never touch the clock or the random stream itself.  [decrypt] draws
    no random bytes; [encrypt] draws exactly sixteen (the IV) when it
    returns a token, and none when it raises. *)
Theorem X11_calls_leave_process_alone (v : value) (w : world) :
  (environ (snd (encrypt v w)) = environ w
   /\ clock (snd (encrypt v w)) = clock w
   /\ entropy (snd (encrypt v w)) = entropy w
   /\ entropy_pos (snd (encrypt v w))
      = match fst (encrypt v w) with
        | Ok _ => (entropy_pos w + 16)%nat
        | Raise _ => entropy_pos w
        end)
  /\ (environ (snd (decrypt v w)) = environ w
      /\ clock (snd (decrypt v w)) = clock w
      /\ entropy (snd (decrypt v w)) = entropy w
      /\ entropy_pos (snd (decrypt v w)) = entropy_pos w).
Proof.
  destruct (isinstance_str v) eqn:Hv.
  2:{ destruct (non_text_rejected v w Hv) as [-> ->]. now cbn. }
  destruct v as [| | |t| |]; try discriminate. clear Hv.
  pose proof (get_fernet_frame w) as (Henv & Hclk & Hent & Hpos).
  destruct (_get_fernet w) as [[r|e0] w1] eqn:Hg; cbn [snd] in *.
  - destruct (get_fernet_Ok_Some w w1 r Hg) as [f ->]. split.
    + destruct (encrypt_cached_cases w w1 f t Hg) as [(? & -> & _)|(? & ? & ->)];
        cbn [fst snd after_encrypt set_entropy_pos set_trace
             environ clock entropy entropy_pos];
        repeat split; congruence.
    + destruct (decrypt_cached_cases w w1 f t Hg)
        as [(? & ->)|[->|[(? & ->)|(? & ? & ->)]]];
        cbn [fst snd after_decrypt set_trace environ clock entropy entropy_pos];
        repeat split; congruence.
  - rewrite (encrypt_get_fernet_fails w w1 e0 t Hg).
    rewrite (decrypt_get_fernet_fails w w1 e0 t Hg). cbn [fst snd].
    repeat split; congruence.
Qed.

(** ** What a token shows without the key *)

(** X12: a token is not opaque.  Under its base64 layer, which
    anyone can remove, it starts with the version byte, the time of the
    call in seconds as eight big-endian bytes, and the sixteen random
    bytes of the IV, all in clear; only the plaintext is encrypted. *)
Theorem X12_token_shows_time_and_iv (w w1 : world) (s t : pystr) :
  encrypt (PyStr s) w = (Ok t, w1) ->
  exists rest,
    token_data t = Some (x80 :: to_bytes8 (clock w mod 2 ^ 64) ++ next_iv w ++ rest).
Proof.
  intros Henc.
  destruct (encrypt_Ok_inv w w1 s t Henc)
    as (f & w0 & plain & token & Hg & _ & Hiv & _ & _ & _ & _ & Hparts & ->).
  destruct (get_fernet_returns w w0 _ Hg) as (_ & _ & _ & _ & Hnow & _).
  destruct (fernet_token f plain (now w0) (next_iv w0) (length_next_iv w0))
    as (token' & Hparts' & Hascii & _ & rest & Hd).
  assert (token' = token) by congruence. subst token'.
  exists rest. unfold token_data, text.
  rewrite str_encode_ascii, Hd by exact Hascii.
  rewrite Hiv, Hnow. reflexivity.
Qed.

Lemma X12_token_shows_time_and_iv_witness :
  exists rest,
    token_data example_token
    = Some (x80 :: to_bytes8 (clock example_world mod 2 ^ 64)
                ++ next_iv example_world ++ rest).
Proof.
  apply (X12_token_shows_time_and_iv example_world example_world_after_encrypt
           (pystr_of_string "some data")).
  vm_compute. reflexivity.
Defined.

(** ** The test case of [core/tests.py] *)

Lemma tbind_Returned {A B} (m : TestM A) (k : A -> TestM B) (w w' : world) (a : A) :
  m w = (Returned a, w') -> tbind m k w = k a w'.
Proof. intros H. unfold tbind. now rewrite H. Qed.

Lemma call_Ok {A} (m : M A) (w w' : world) (a : A) :
  m w = (Ok a, w') -> call m w = (Returned a, w').
Proof. intros H. unfold call. now rewrite H. Qed.

Lemma call_Raise {A} (m : M A) (w w' : world) (e : exn) :
  m w = (Raise e, w') -> call m w = (Raised e, w').
Proof. intros H. unfold call. now rewrite H. Qed.

Lemma next_key_valid (w : world) :
  is_valid_master_key
    (text (Base64.urlsafe_b64encode (map (entropy w) (seq (entropy_pos w) 32))))
  = true.
Proof. apply generated_key_valid. now rewrite length_map, length_seq. Qed.

(** [setUp] returns, whatever the state: the key it installs is the
    encoding of the next 32 random bytes. *)
Lemma setUp_spec (w : world) :
  exists self w1,
    setUp w = (Returned self, w1)
    /\ original_key self = environ w !! APP_MASTER_KEY
    /\ test_key self
       = text (Base64.urlsafe_b64encode (map (entropy w) (seq (entropy_pos w) 32)))
    /\ environ w1 = <[APP_MASTER_KEY := test_key self]> (environ w)
    /\ _fernet_instance w1 = None.
Proof.
  set (key := text (Base64.urlsafe_b64encode
                      (map (entropy w) (seq (entropy_pos w) 32)))).
  exists {| original_key := environ w !! APP_MASTER_KEY; test_key := key |},
    (set_fernet_instance None
       (step (set_entropy_pos (entropy_pos w + 32)
                (set_trace (Urandom 32 :: trace w) w))
             (Putenv APP_MASTER_KEY key))).
  split; [|repeat split].
  unfold setUp, tbind, os_environ_get, call, Fernet_generate_key, bind, os_urandom,
    bind, log, ret, lift, os_environ_setitem, importlib_reload, tret.
  cbn [set_trace set_entropy_pos entropy entropy_pos].
  rewrite bytes_decode_ascii by apply urlsafe_b64encode_ascii.
  reflexivity.
Qed.

Lemma tearDown_spec (self : EncryptionServiceTests) (w : world) :
  exists w',
    tearDown self w = (Returned tt, w')
    /\ _fernet_instance w' = None
    /\ environ w'
       = match original_key self with
         | Some original_key => <[APP_MASTER_KEY := original_key]> (environ w)
         | None => delete APP_MASTER_KEY (environ w)
         end.
Proof.
  unfold tearDown, tbind, os_environ_setitem, os_environ_contains,
    os_environ_delitem, importlib_reload, tret.
  change "APP_MASTER_KEY"%string with APP_MASTER_KEY.
  destruct (original_key self) as [k|].
  - eexists. repeat split.
  - destruct (environ w !! APP_MASTER_KEY) as [k|] eqn:Hk.
    + rewrite bool_decide_eq_true_2 by eauto. rewrite Hk. eexists. repeat split.
    + rewrite bool_decide_eq_false_2 by (intros [? ?]; discriminate).
      eexists. repeat split. cbn [set_fernet_instance environ].
      symmetry. now apply delete_id.
Qed.

Lemma run_test_passes (test : EncryptionServiceTests -> TestM unit) (w : world) :
  (forall self w1,
      setUp w = (Returned self, w1) -> fst (test self w1) = Returned tt) ->
  fst (run_test test w) = Returned tt.
Proof.
  intros Htest. destruct (setUp_spec w) as (self & w1 & Hset & _).
  specialize (Htest self w1 Hset). unfold run_test. rewrite Hset.
  destruct (test self w1) as [outcome w2]. cbn [fst] in Htest. subst outcome.
  destruct (tearDown_spec self w2) as (w3 & -> & _). reflexivity.
Qed.

Lemma setUp_configures (w w1 : world) (self : EncryptionServiceTests) :
  setUp w = (Returned self, w1) ->
  environ w1 !! APP_MASTER_KEY = Some (test_key self)
  /\ is_valid_master_key (test_key self) = true
  /\ _fernet_instance w1 = None.
Proof.
  intros Hset. destruct (setUp_spec w) as (self' & w1' & Hset' & _ & Hkey & Henv & Hi).
  rewrite Hset in Hset'. injection Hset' as <- <-.
  split; [rewrite Henv; apply lookup_insert_eq|]. split; [|exact Hi].
  rewrite Hkey. apply next_key_valid.
Qed.

(** X14: [setUp] always succeeds.  It remembers the value of
    [APP_MASTER_KEY] (or that it was unset), installs a fresh key that is
    a valid master key (the URL-safe base64 text of the next 32 bytes of
    [os.urandom]), and leaves the module without a cached instance, so
    that the next call reads the new key. *)
Theorem X14_setUp_installs_valid_key (w : world) :
  exists self w1,
    setUp w = (Returned self, w1)
    /\ original_key self = environ w !! APP_MASTER_KEY
    /\ is_valid_master_key (test_key self) = true
    /\ environ w1 = <[APP_MASTER_KEY := test_key self]> (environ w)
    /\ _fernet_instance w1 = None
    /\ exists f w2, _get_fernet w1 = (Ok (Some f), w2).
Proof.
  destruct (setUp_spec w) as (self & w1 & Hset & Horig & Hkey & Henv & Hi).
  destruct (setUp_configures w w1 self Hset) as (Hk & Hvalid & _).
  exists self, w1. repeat split; try assumption.
  destruct (get_fernet_valid w1 (test_key self) Hk Hvalid) as (f & w2 & Hg & _).
  eauto.
Qed.

(** X15: the fixture puts the environment back.  Whatever a test
    method does to [APP_MASTER_KEY] (set it, change it, delete it), and
    whether it passes, fails or raises, after [setUp], the method and
    [tearDown] the environment is exactly what it was before [setUp], with
    the variable restored or unset again, and the module holds no cached
    instance.  The method is only required to leave the other variables
    alone. *)
Theorem X15_fixture_restores_environment
    (test : EncryptionServiceTests -> TestM unit) (w : world) :
  (forall self w1 name,
      name <> APP_MASTER_KEY ->
      environ (snd (test self w1)) !! name = environ w1 !! name) ->
  environ (snd (run_test test w)) = environ w
  /\ _fernet_instance (snd (run_test test w)) = None.
Proof.
  intros Hframe.
  destruct (setUp_spec w) as (self & w1 & Hset & Horig & _ & Henv & _).
  unfold run_test. rewrite Hset. specialize (Hframe self w1).
  destruct (test self w1) as [outcome w2]. cbn [snd] in Hframe.
  destruct (tearDown_spec self w2) as (w3 & -> & Hi & Henv3). cbn [snd].
  split; [|exact Hi]. rewrite Henv3, Horig. apply map_eq. intros name.
  destruct (decide (name = APP_MASTER_KEY)) as [->|Hne].
  - destruct (environ w !! APP_MASTER_KEY) as [k|] eqn:Hk.
    + now rewrite lookup_insert_eq.
    + now rewrite lookup_delete_eq.
  - assert (Hname : environ w2 !! name = environ w !! name).
    { rewrite (Hframe name Hne), Henv. now rewrite lookup_insert_ne. }
    destruct (environ w !! APP_MASTER_KEY) as [k|].
    + now rewrite lookup_insert_ne.
    + now rewrite lookup_delete_ne.
Qed.

Lemma encrypt_token_length (w w1 : world) (s t : pystr) :
  encrypt (PyStr s) w = (Ok t, w1) ->
  (100 <= length t)%nat /\ (length s < length t)%nat.
Proof.
  intros Henc.
  destruct (encrypt_token_data w w1 s t Henc)
    as (plain & data & Hplain & Hlen & _ & ->).
  apply length_str_encode in Hplain.
  unfold text. rewrite length_map, length_urlsafe_b64encode, Hlen.
  pose proof (Nat.div_mod_eq (length plain) 16).
  pose proof (Nat.mod_upper_bound (length plain) 16).
  pose proof (Nat.div_mod_eq (57 + 16 * (length plain / 16 + 1) + 2) 3).
  pose proof (Nat.mod_upper_bound (57 + 16 * (length plain / 16 + 1) + 2) 3).
  lia.
Qed.

(** X16: [test_encrypt_decrypt_successful_cycle] passes in every
    process: whatever the environment, the clock, the random bytes and
    the state of the module before it, [setUp], the test method and
    [tearDown] run through without a failed assertion or an exception. *)
Theorem X16_test_successful_cycle_passes (w : world) :
  fst (run_test test_encrypt_decrypt_successful_cycle w) = Returned tt.
Proof.
  apply run_test_passes. intros self w1 Hset.
  destruct (setUp_configures w w1 self Hset) as (Hk & Hvalid & _).
  destruct (get_fernet_valid w1 (test_key self) Hk Hvalid) as (f & w2 & Hg & Hi).
  set (s := pystr_of_string "my-secret-api-key-12345").
  assert (Hs : Utf8.encodable s = true) by reflexivity.
  destruct (encrypt_returns w1 w2 f s Hg Hs)
    as (plain & token & _ & Hback & _ & Hascii & Hdec & Henc).
  pose proof (encrypt_token_length w1 _ s _ Henc) as [_ Hlen].
  assert (Hi' : _fernet_instance (after_encrypt w2) = Some f) by exact Hi.
  pose proof (decrypt_returns _ f token plain s Hi' Hascii Hdec Hback) as Hdecr.
  unfold test_encrypt_decrypt_successful_cycle. cbv zeta. fold s.
  rewrite (tbind_Returned _ _ _ _ _ (call_Ok _ _ _ _ Henc)).
  unfold assertIsInstance_str. cbn [isinstance_str].
  rewrite (tbind_Returned _ _ _ _ tt eq_refl).
  unfold assertNotEqual.
  rewrite bool_decide_eq_false_2 by (intros Heq; rewrite <- Heq in Hlen; lia).
  rewrite (tbind_Returned _ _ _ _ tt eq_refl).
  rewrite (tbind_Returned _ _ _ _ _ (call_Ok _ _ _ _ Hdecr)).
  unfold assertEqual. now rewrite bool_decide_eq_true_2.
Qed.

(** ** The tampering of the tests *)

Lemma removelast_map {A B} (f : A -> B) (l : list A) :
  removelast (map f l) = map f (removelast l).
Proof.
  induction l as [|x [|y l] IH]; [reflexivity..|].
  cbn [map removelast] in *. now rewrite IH.
Qed.

Lemma forallb_removelast {A} (f : A -> bool) (l : list A) :
  forallb f l = true -> forallb f (removelast l) = true.
Proof.
  induction l as [|x [|y l] IH]; [reflexivity..|].
  cbn [forallb removelast] in *. intros [Hx H]%andb_true_iff.
  rewrite Hx. now apply IH.
Qed.

(** With one byte in the last quad, the encoding ends in two padding
    signs; a [Z] in place of the second leaves the quad incomplete. *)
Lemma urlsafe_b64decode_last_replaced (bin : bytes) :
  (length bin mod 3 = 1)%nat ->
  Base64.urlsafe_b64decode (removelast (Base64.urlsafe_b64encode bin) ++ [x5a])
  = Base64.Error Base64.Incorrect_padding.
Proof.
  unfold Base64.urlsafe_b64decode, Base64.urlsafe_b64encode, Base64.a2b_base64.
  induction bin as [|a|a b|a b c l IH] using list_ind3; intros Hlen;
    [discriminate| |discriminate|].
  - cbn [Base64.b2a_base64 map removelast app].
    pose proof (b64_char0 a) as H0.
    pose proof (b64_char1_last a) as H1. cbv zeta in H1.
    apply andb_true_iff in H1 as [H1 _].
    rewrite (a2b_loop_sextet _ _ _ _ _ H0), (a2b_loop_sextet _ _ _ _ _ H1).
    reflexivity.
  - cbn [length] in Hlen.
    replace (S (S (S (length l)))) with (length l + 1 * 3)%nat in Hlen by lia.
    rewrite Nat.Div0.mod_add in Hlen. specialize (IH Hlen).
    assert (Hne : map Base64._urlsafe_encode_translation (Base64.b2a_base64 l) <> []).
    { intros E. apply (f_equal (@length byte)) in E.
      rewrite length_map, length_b2a_base64 in E. cbn [length] in E.
      destruct l as [|d l]; [discriminate|]. cbn [length] in E.
      pose proof (Nat.div_mod_eq (S (length l) + 2) 3).
      pose proof (Nat.mod_upper_bound (S (length l) + 2) 3). lia. }
    change (Base64.b2a_base64 (a :: b :: c :: l))
      with ([Base64.b2a (N.shiftr (lo a) 2);
             Base64.b2a (N.lor (N.shiftl (N.land (lo a) 3) 4) (N.shiftr (lo b) 4));
             Base64.b2a (N.lor (N.shiftl (N.land (lo b) 15) 2) (N.shiftr (lo c) 6));
             Base64.b2a (N.land (lo c) 63)] ++ Base64.b2a_base64 l).
    rewrite (map_app Base64._urlsafe_encode_translation).
    rewrite removelast_app by exact Hne.
    rewrite <- app_assoc, (map_app Base64._urlsafe_decode_translation).
    cbn [map app].
    now rewrite a2b_loop_quad, IH.
Qed.

Lemma tampered_regex_matches (codec_error_text : exn -> string) :
  re_search "Cannot decrypt data: The token is invalid or has been tampered with."
    (str_exn codec_error_text tampered_or_invalid_token) = true.
Proof. vm_compute. reflexivity. Qed.

Lemma missing_regex_matches (codec_error_text : exn -> string) :
  re_search "APP_MASTER_KEY environment variable not set"
    (str_exn codec_error_text missing_master_key) = true.
Proof. vm_compute. reflexivity. Qed.

Lemma invalid_regex_matches (codec_error_text : exn -> string) :
  re_search "Invalid APP_MASTER_KEY"
    (str_exn codec_error_text (invalid_master_key fernet_key_error)) = true.
Proof. vm_compute. reflexivity. Qed.

Lemma assertRaisesRegex_passes {A} (codec_error_text : exn -> string)
    (cls : exn_class) (expected_regex : string) (body : TestM A) (w w' : world)
    (e : exn) :
  body w = (Raised e, w') ->
  isinstance_exn e [cls] = true ->
  re_search expected_regex (str_exn codec_error_text e) = true ->
  assertRaisesRegex codec_error_text cls expected_regex body w = (Returned tt, w').
Proof. intros Hb Hi Hr. unfold assertRaisesRegex. now rewrite Hb, Hi, Hr. Qed.

(** X17: [test_decrypting_tampered_data_raises_value_error] passes
    in every process and for every key [setUp] can draw: the token of
    ["some data"] always ends in two padding signs, and with [Z] in place
    of the last one the base64 layer no longer decodes, so [decrypt]
    raises the tampered-or-invalid-token error. *)
Theorem X17_test_tampered_data_passes (codec_error_text : exn -> string) (w : world) :
  fst (run_test
         (test_decrypting_tampered_data_raises_value_error codec_error_text) w)
  = Returned tt.
Proof.
  apply run_test_passes. intros self w1 Hset.
  destruct (setUp_configures w w1 self Hset) as (Hk & Hvalid & _).
  destruct (get_fernet_valid w1 (test_key self) Hk Hvalid) as (f & w2 & Hg & Hi).
  set (s := pystr_of_string "some data").
  assert (Hs : Utf8.encodable s = true) by reflexivity.
  destruct (encrypt_returns w1 w2 f s Hg Hs)
    as (plain & token & _ & _ & _ & Hascii & _ & Henc).
  destruct (encrypt_token_data w1 _ s _ Henc)
    as (plain' & data & Hplain' & Hlen & _ & Ht).
  apply text_inj in Ht. subst token.
  vm_compute in Hplain'. injection Hplain' as <-.
  change (length data = 73%nat) in Hlen.
  set (token' := removelast (Base64.urlsafe_b64encode data) ++ [x5a]).
  assert (Hascii' : forallb Utf8.is_ascii token' = true).
  { subst token'. rewrite forallb_app, forallb_removelast by exact Hascii.
    reflexivity. }
  assert (Hi' : _fernet_instance (after_encrypt w2) = Some f) by exact Hi.
  assert (Hdecr : decrypt (PyStr (text token')) (after_encrypt w2)
                  = (Raise tampered_or_invalid_token,
                     after_decrypt (after_encrypt w2))).
  { rewrite (decrypt_unfold _ _ f _ (get_fernet_cached _ f Hi')). unfold text.
    rewrite str_encode_ascii by exact Hascii'.
    rewrite Fernet_decrypt_unauthentic; [reflexivity|].
    subst token'. rewrite urlsafe_b64decode_last_replaced; [exact I|].
    now rewrite Hlen. }
  unfold test_decrypting_tampered_data_raises_value_error. cbv zeta. fold s.
  rewrite (tbind_Returned _ _ _ _ _ (call_Ok _ _ _ _ Henc)).
  unfold all_but_last, text. rewrite removelast_map.
  change (pystr_of_string "Z") with (map Byte.to_N [x5a]).
  rewrite <- map_app. fold token'. fold (text token').
  rewrite (assertRaisesRegex_passes codec_error_text cls_ValueError _ _ _ _ _
             (call_Raise _ _ _ _ Hdecr) eq_refl
             (tampered_regex_matches codec_error_text)).
  reflexivity.
Qed.

(** ** The tests of the configuration errors and of the input kinds *)

(** X18: [test_encrypt_decrypt_without_master_key_raises_error]
    passes in every process: once the key [setUp] installed is deleted and
    the module reloaded, [encrypt] and then [decrypt] raise the
    missing-master-key error, the second call as well because the first
    has cached nothing. *)
Theorem X18_test_without_master_key_passes (codec_error_text : exn -> string)
    (w : world) :
  fst (run_test
         (test_encrypt_decrypt_without_master_key_raises_error codec_error_text) w)
  = Returned tt.
Proof.
  apply run_test_passes. intros self w1 Hset.
  destruct (setUp_configures w w1 self Hset) as (Hk & _ & _).
  unfold test_encrypt_decrypt_without_master_key_raises_error. cbv zeta.
  change "APP_MASTER_KEY"%string with APP_MASTER_KEY.
  assert (Hdel : os_environ_delitem APP_MASTER_KEY w1
                 = (Returned tt, step w1 (Unsetenv APP_MASTER_KEY))).
  { unfold os_environ_delitem. now rewrite Hk. }
  rewrite (tbind_Returned _ _ _ _ _ Hdel).
  rewrite (tbind_Returned importlib_reload _ _ _ tt eq_refl).
  set (w3 := set_fernet_instance None (step w1 (Unsetenv APP_MASTER_KEY))).
  assert (Hk3 : environ w3 !! APP_MASTER_KEY = None) by apply lookup_delete_eq.
  pose proof (get_fernet_missing w3 eq_refl (or_introl Hk3)) as Hg.
  pose proof (encrypt_get_fernet_fails w3 _ _
                (pystr_of_string "this will fail") Hg) as Henc.
  rewrite (tbind_Returned _ _ _ _ _
             (assertRaisesRegex_passes codec_error_text cls_ValueError _ _ _ _ _
                (call_Raise _ _ _ _ Henc) eq_refl
                (missing_regex_matches codec_error_text))).
  set (w4 := set_trace (Getenv APP_MASTER_KEY :: trace w3) w3).
  pose proof (get_fernet_missing w4 eq_refl (or_introl Hk3)) as Hg'.
  pose proof (decrypt_get_fernet_fails w4 _ _
                (pystr_of_string "gAAAAABm_...") Hg') as Hdec.
  now rewrite (assertRaisesRegex_passes codec_error_text cls_ValueError _ _ _ _ _
                 (call_Raise _ _ _ _ Hdec) eq_refl
                 (missing_regex_matches codec_error_text)).
Qed.

(** X19: [test_invalid_master_key_raises_error] passes in every
    process: with the key ["this-is-not-a-base64-key"] in the environment
    and the module reloaded, [encrypt] raises the invalid-master-key
    error, whose text starts with the expected words. *)
Theorem X19_test_invalid_master_key_passes (codec_error_text : exn -> string)
    (w : world) :
  fst (run_test (test_invalid_master_key_raises_error codec_error_text) w)
  = Returned tt.
Proof.
  apply run_test_passes. intros self w1 _.
  unfold test_invalid_master_key_raises_error.
  fold malformed_key.
  rewrite (tbind_Returned (os_environ_setitem _ _) _ _ _ tt eq_refl).
  rewrite (tbind_Returned importlib_reload _ _ _ tt eq_refl).
  set (w3 := set_fernet_instance None
               (step w1 (Putenv "APP_MASTER_KEY" malformed_key))).
  assert (Hk3 : environ w3 !! APP_MASTER_KEY = Some malformed_key)
    by apply lookup_insert_eq.
  assert (Hg : _get_fernet w3
               = (Raise (invalid_master_key fernet_key_error),
                  set_trace (FernetNew :: Getenv APP_MASTER_KEY :: trace w3) w3)).
  { apply (get_fernet_rejected w3 malformed_key
             (ascii_bytes "this-is-not-a-base64-key"));
      [reflexivity|exact Hk3|discriminate|vm_compute; reflexivity..]. }
  pose proof (encrypt_get_fernet_fails w3 _ _
                (pystr_of_string "this will also fail") Hg) as Henc.
  now rewrite (assertRaisesRegex_passes codec_error_text cls_ValueError _ _ _ _ _
                 (call_Raise _ _ _ _ Henc) eq_refl
                 (invalid_regex_matches codec_error_text)).
Qed.

(** X20: [test_encrypting_non_string_input_raises_type_error] and
    [test_decrypting_non_string_input_raises_type_error] pass in every
    process: each of the six calls, on a number, on bytes and on [None],
    raises [TypeError]. *)
Theorem X20_tests_non_string_input_pass (w : world) :
  fst (run_test test_encrypting_non_string_input_raises_type_error w) = Returned tt
  /\ fst (run_test test_decrypting_non_string_input_raises_type_error w)
     = Returned tt.
Proof. split; apply run_test_passes; intros self w1 _; reflexivity. Qed.

(** ** The variables the tests leave alone *)

Lemma encrypt_environ (v : value) (w : world) :
  environ (snd (encrypt v w)) = environ w.
Proof.
  destruct (isinstance_str v) eqn:Hv.
  2:{ now destruct (non_text_rejected v w Hv) as [-> _]. }
  destruct v as [| | |t| |]; try discriminate. clear Hv.
  pose proof (get_fernet_frame w) as (Henv & _).
  destruct (_get_fernet w) as [[r|e0] w1] eqn:Hg; cbn [snd] in *.
  - destruct (get_fernet_Ok_Some w w1 r Hg) as [f ->].
    now destruct (encrypt_cached_cases w w1 f t Hg) as [(? & -> & _)|(? & ? & ->)].
  - now rewrite (encrypt_get_fernet_fails w w1 e0 t Hg).
Qed.

Lemma assertRaisesRegex_environ {A} (codec_error_text : exn -> string)
    (cls : exn_class) (expected_regex : string) (body : TestM A) (w : world) :
  environ (snd (assertRaisesRegex codec_error_text cls expected_regex body w))
  = environ (snd (body w)).
Proof.
  unfold assertRaisesRegex. destruct (body w) as [[a|e|key|] w']; try reflexivity.
  destruct (isinstance_exn e [cls]); [|reflexivity].
  now destruct (re_search _ _).
Qed.

Lemma call_environ {A} (m : M A) (w : world) :
  environ (snd (call m w)) = environ (snd (m w)).
Proof. unfold call. now destruct (m w) as [[a|e] w']. Qed.

Lemma test_invalid_master_key_environ (codec_error_text : exn -> string)
    (self : EncryptionServiceTests) (w : world) :
  environ (snd (test_invalid_master_key_raises_error codec_error_text self w))
  = <[APP_MASTER_KEY := malformed_key]> (environ w).
Proof.
  unfold test_invalid_master_key_raises_error.
  rewrite (tbind_Returned (os_environ_setitem _ _) _ _ _ tt eq_refl).
  rewrite (tbind_Returned importlib_reload _ _ _ tt eq_refl).
  now rewrite assertRaisesRegex_environ, call_environ, encrypt_environ.
Qed.

Lemma X15_fixture_restores_environment_witness :
  let w := import_module {[ APP_MASTER_KEY := example_key; "HOME"%string := [47] ]}
             example_entropy 1700000000 in
  let test := test_invalid_master_key_raises_error (fun _ => EmptyString) in
  environ (snd (run_test test w)) = environ w
  /\ _fernet_instance (snd (run_test test w)) = None.
Proof.
  intros w test.
  apply (X15_fixture_restores_environment test w).
  intros self w1 name Hne. subst test.
  rewrite test_invalid_master_key_environ. now apply lookup_insert_ne.
Defined.

(** ** Spellings of the master key *)

Lemma Fernet_init_same_data (b b' : bytes) :
  match Base64.urlsafe_b64decode b, Base64.urlsafe_b64decode b' with
  | Base64.Decoded raw, Base64.Decoded raw' => raw = raw'
  | Base64.Error _, Base64.Error _ => True
  | _, _ => False
  end ->
  Fernet_init b = Fernet_init b'.
Proof.
  unfold Fernet_init.
  destruct (Base64.urlsafe_b64decode b), (Base64.urlsafe_b64decode b');
    intros H; try contradiction; [now subst|reflexivity].
Qed.

Lemma get_fernet_by_key (w : world) (key : pystr) (b : bytes) :
  _fernet_instance w = None ->
  environ w !! APP_MASTER_KEY = Some key -> key <> [] ->
  str_encode key = Ok b ->
  fst (_get_fernet w)
  = match Fernet_init b with
    | Ok f => Ok (Some f)
    | Raise e => Raise (invalid_master_key e)
    end.
Proof.
  intros Hi Hk Hne Hb. destruct (Fernet_init b) as [f|e] eqn:Hf.
  - now rewrite (get_fernet_init w key b f Hi Hk Hne Hb Hf).
  - now rewrite (get_fernet_rejected w key b e Hi Hk Hne Hb Hf).
Qed.

(** X21: the instance [_get_fernet] builds depends only on the
    bytes the master key decodes to.  Two processes whose keys (not
    empty, of Unicode scalar values) decode to the same bytes under the
    library's decoder, or both fail to decode, get the same result from
    [_get_fernet]: the same instance, or the same invalid-key error.  In
    particular a key followed by a line break, or broken by spaces,
    configures the process as the key itself does. *)
Theorem X21_master_key_spelling (w w' : world) (key key' : pystr) :
  _fernet_instance w = None -> _fernet_instance w' = None ->
  environ w !! APP_MASTER_KEY = Some key ->
  environ w' !! APP_MASTER_KEY = Some key' ->
  key <> [] -> key' <> [] ->
  Utf8.encodable key = true -> Utf8.encodable key' = true ->
  token_data key = token_data key' ->
  fst (_get_fernet w) = fst (_get_fernet w').
Proof.
  intros Hi Hi' Hk Hk' Hne Hne' He He' Hdata.
  pose proof (str_encode_scalar key He) as Hb.
  pose proof (str_encode_scalar key' He') as Hb'.
  rewrite (get_fernet_by_key w key _ Hi Hk Hne Hb).
  rewrite (get_fernet_by_key w' key' _ Hi' Hk' Hne' Hb').
  rewrite (Fernet_init_same_data (flat_map Utf8.encode_char key)
             (flat_map Utf8.encode_char key')).
  - destruct (Fernet_init _) as [f|e] eqn:Hf; [reflexivity|].
    now rewrite (Fernet_init_raises _ e Hf).
  - unfold token_data in Hdata. rewrite Hb, Hb' in Hdata.
    destruct (Base64.urlsafe_b64decode (flat_map Utf8.encode_char key)),
      (Base64.urlsafe_b64decode (flat_map Utf8.encode_char key'));
      congruence || exact I.
Qed.

Lemma X21_master_key_spelling_witness :
  fst (_get_fernet example_world) = fst (_get_fernet newline_world)
  /\ fst (_get_fernet newline_world) = Ok (Some example_fernet).
Proof.
  split; [|vm_compute; reflexivity].
  apply (X21_master_key_spelling example_world newline_world example_key
           example_key_with_newline);
    try discriminate; vm_compute; reflexivity.
Defined.

(** ** The mask of a stored credential *)

(** X22: a credential that stores a token [encrypt] returned always
    shows the fixed mask [sk-...xxxx]: tokens are never empty, and the
    mask holds nothing of the token or of the key behind it. *)
Theorem X22_masked_key_of_stored_token (w w1 : world) (s t : pystr)
    (credential : ApiCredential.t) :
  encrypt (PyStr s) w = (Ok t, w1) ->
  ApiCredential.api_key_encrypted credential = PyStr t ->
  ApiCredential.get_masked_key credential = pystr_of_string "sk-...xxxx".
Proof.
  intros Henc Hfield. destruct (encrypt_token_length w w1 s t Henc) as [Hlen _].
  unfold ApiCredential.get_masked_key. rewrite Hfield. cbn [truthy].
  destruct t; [cbn [length] in Hlen; lia|reflexivity].
Qed.

Lemma X22_masked_key_of_stored_token_witness :
  ApiCredential.get_masked_key example_credential = pystr_of_string "sk-...xxxx".
Proof.
  apply (X22_masked_key_of_stored_token example_world example_world_after_encrypt
           (pystr_of_string "some data") example_token);
    vm_compute; reflexivity.
Defined.
